(** * MemcacheDB item layer (item.c): freelist, record header, store access

    A shallow embedding of [item.c].  The process memory the file touches is
    an explicit [state]: the malloc heap holding item buffers, the three
    freelist globals ([freeitem], [freeitemtotal], [freeitemcurr]), and two
    scripts that stand for the environment: the outcomes of the coming
    [malloc]/[realloc] calls and the answers of the coming Berkeley DB calls.
    Every C function becomes a computation in the monad [M] below.

    What item.c takes from elsewhere is a parameter: [settings.item_buf_size],
    [sizeof(item)], Berkeley DB's return codes [DB_BUFFER_SMALL] and
    [DB_NOTFOUND], and the contents of fresh memory.

    A buffer carries its capacity, the header fields and the bytes written
    behind the header; a write past the end of a block is a fault.  What is
    left out: the reuse of addresses by malloc, the diagnostics printed on
    stderr when [settings.verbose > 1] (they change no state), and the mutex
    taken by the thread-safe freelist wrappers.  *)

From Stdlib Require Import ZArith Lia Ascii String.
From stdpp Require Import gmap strings list.

Local Open Scope Z_scope.

(** ** Constants of item.c *)

Definition MAX_ITEM_FREELIST_LENGTH : Z := 4000.
Definition INIT_ITEM_FREELIST_LENGTH : Z := 500.

(** Pointers are addresses; [NULL] is address 0. *)
Definition NULL : Z := 0.

(** [size_t] arithmetic wraps modulo 2^64, [uint8_t] modulo 2^8,
    [u_int32_t] (the type of [DBT.size]) modulo 2^32, and [int] is a 32-bit
    two's complement integer. *)
Definition size_t (z : Z) : Z := z mod 2 ^ 64.
Definition uint8_t (z : Z) : Z := z mod 2 ^ 8.
Definition uint32_t (z : Z) : Z := z mod 2 ^ 32.
Definition int (z : Z) : Z := (z + 2 ^ 31) mod 2 ^ 32 - 2 ^ 31.

Definition INT_MIN : Z := - 2 ^ 31.
Definition INT_MAX : Z := 2 ^ 31 - 1.

(** ** Data *)

(** The fields of [struct _stritem] and the bytes behind the header
    ([it->end]): the key with its terminator, the suffix and the data, as far
    as they have been written.  The bytes of the block further on are zero
    after [memset] and are not tracked otherwise. *)
Record item := Item {
  nbytes : Z;
  nsuffix : Z;
  nkey : Z;
  it_end : string;
}.

(** Assignments to one field. *)
Definition set_nbytes (v : Z) (i : item) : item :=
  Item v (nsuffix i) (nkey i) (it_end i).
Definition set_nsuffix (v : Z) (i : item) : item :=
  Item (nbytes i) v (nkey i) (it_end i).
Definition set_nkey (v : Z) (i : item) : item :=
  Item (nbytes i) (nsuffix i) v (it_end i).
Definition set_end (v : string) (i : item) : item :=
  Item (nbytes i) (nsuffix i) (nkey i) v.

(** What [memset(it, 0, n)] leaves in a buffer. *)
Definition zero_item : item := Item 0 0 0 "".

(** ** C strings and bytes in memory *)

Definition NUL : Ascii.ascii := "000"%char.

(** The string a [char *] points to: the bytes up to the first NUL. *)
Fixpoint cstr (s : string) : string :=
  match s with
  | EmptyString => EmptyString
  | String c s' => if Ascii.eqb c NUL then EmptyString else String c (cstr s')
  end.

Definition strlen (s : string) : Z := Z.of_nat (String.length (cstr s)).

Fixpoint string_drop (n : nat) (s : string) : string :=
  match n, s with
  | O, _ => s
  | S n', String _ s' => string_drop n' s'
  | S _, EmptyString => EmptyString
  end.

(** The bytes [d] after the bytes [w] have been written at offset [o]:
    what lies before and behind the written bytes stays. *)
Fixpoint mem_write (o : nat) (w d : string) : string :=
  match o with
  | O => w +:+ string_drop (String.length w) d
  | S o' =>
      match d with
      | EmptyString => String NUL (mem_write o' w EmptyString)
      | String c d' => String c (mem_write o' w d')
      end
  end.

(** A live malloc block: the number of bytes asked for and its contents. *)
Record block := Block {
  blk_cap : Z;
  blk_item : item;
}.

(** One answer of the store: the return code of the call, the value left in
    [dbdata.size], and the record copied into the user buffer, if any. *)
Record db_reply := DbReply {
  rep_ret : Z;
  rep_size : Z;
  rep_data : option item;
}.

(** Observable actions, in program order.  The trace is ghost state: no
    function reads it. *)
Inductive event :=
| EMalloc (n : Z) (p : Z)            (* malloc(n) returned p, NULL on failure *)
| EFree (p : Z)                      (* free(p) *)
| ERealloc (n : Z) (ok : bool)       (* realloc(freeitem, n entries) *)
| EPush (p : Z)                      (* freeitem[freeitemcurr++] = p *)
| EPop (p : Z)                       (* p = freeitem[--freeitemcurr] *)
| EDbGet (key : string) (nkey buf ulen ret : Z)
| EDbPut (key : string) (nkey buf size ret : Z)
| EDbDel (key : string) (nkey ret : Z)
| EDbExists (key : string) (nkey ret : Z).

Record state := State {
  heap : gmap Z block;        (* live item buffers *)
  brk : Z;                    (* the next address malloc hands out *)
  freeitem : list Z;          (* static item **freeitem *)
  freeitemtotal : Z;          (* static int freeitemtotal *)
  freeitemcurr : Z;           (* static int freeitemcurr *)
  mem_script : list bool;     (* coming malloc/realloc calls: true = fails *)
  db_script : list db_reply;  (* coming answers of the store *)
  trace : list event;
}.

(** ** The monad of item.c: state, plus the two ways a run can stop early *)

Inductive error :=
| MemFault     (* access to a dead block or past the end of a live one, free of a
                  dead block, index out of the array *)
| NoReply.     (* the store script has no answer left *)

Inductive result (A : Type) :=
| Ok (a : A) (s : state)
| Err (e : error).
Arguments Ok {A} a s.
Arguments Err {A} e.

Definition M (A : Type) : Type := state → result A.

Definition pure {A} (a : A) : M A := λ s, Ok a s.
Definition bind {A B} (c : M A) (k : A → M B) : M B :=
  λ s, match c s with
       | Ok a s' => k a s'
       | Err e => Err e
       end.
Definition fault {A} : M A := λ _, Err MemFault.

Notation "'let*' x := c 'in' k" := (bind c (λ x, k))
  (at level 10, x name, c at level 100, k at level 200).
Notation "c ;; k" := (bind c (λ _, k))
  (at level 100, k at level 200, right associativity).

Definition emit (e : event) : M unit := λ s,
  Ok tt (State (heap s) (brk s) (freeitem s) (freeitemtotal s)
               (freeitemcurr s) (mem_script s) (db_script s) (trace s ++ [e])).

Definition set_heap (h : gmap Z block) : M unit := λ s,
  Ok tt (State h (brk s) (freeitem s) (freeitemtotal s)
               (freeitemcurr s) (mem_script s) (db_script s) (trace s)).

Definition set_freeitem (a : list Z) : M unit := λ s,
  Ok tt (State (heap s) (brk s) a (freeitemtotal s)
               (freeitemcurr s) (mem_script s) (db_script s) (trace s)).

Definition set_freeitemtotal (n : Z) : M unit := λ s,
  Ok tt (State (heap s) (brk s) (freeitem s) n
               (freeitemcurr s) (mem_script s) (db_script s) (trace s)).

Definition set_freeitemcurr (n : Z) : M unit := λ s,
  Ok tt (State (heap s) (brk s) (freeitem s) (freeitemtotal s)
               n (mem_script s) (db_script s) (trace s)).

Definition gets {A} (f : state → A) : M A := λ s, Ok (f s) s.

(** The next memory request fails when the script says so; an empty script
    grants every request. *)
Definition mem_fails : M bool := λ s,
  match mem_script s with
  | [] => Ok false s
  | b :: rest =>
      Ok b (State (heap s) (brk s) (freeitem s) (freeitemtotal s)
                  (freeitemcurr s) rest (db_script s) (trace s))
  end.

(** ** libc: formatted output *)

(** [printf]'s [%d]: the decimal digits of a non-negative number, most
    significant first, and a minus sign in front of a negative one. *)
Definition digit (d : Z) : Ascii.ascii := Ascii.ascii_of_nat (48 + Z.to_nat d).

Fixpoint digits (fuel : nat) (n : Z) (acc : string) : string :=
  match fuel with
  | O => acc
  | S fuel' =>
      let acc' := String (digit (n mod 10)) acc in
      if n / 10 =? 0 then acc' else digits fuel' (n / 10) acc'
  end.

Definition udec (n : Z) : string := digits (S (Z.to_nat (Z.log2 n))) n "".

Definition fmt_d (z : Z) : string :=
  if z <? 0 then String "-"%char (udec (- z)) else udec z.

Definition CRLF : string := String "013"%char (String "010"%char "").

(** [" %d %d\r\n"] applied to two integers. *)
Definition fmt_suffix (a b : Z) : string :=
  String " "%char (fmt_d a) +:+ String " "%char (fmt_d b) +:+ CRLF.

(** Decimal text read back, to say what [%d] prints without recourse to
    the printer: the value of a digit character, the value of a run of
    digits read from the left, and the number a numeral stands for.  A
    numeral is a run of digits without a leading zero (but for ["0"]
    itself), with a minus sign in front when it stands for a negative
    number. *)
Definition digit_value (c : Ascii.ascii) : option Z :=
  let n := Z.of_nat (Ascii.nat_of_ascii c) in
  if (48 <=? n) && (n <=? 57) then Some (n - 48) else None.

Fixpoint dec_value (acc : Z) (s : string) : option Z :=
  match s with
  | EmptyString => Some acc
  | String c s' =>
      match digit_value c with
      | Some d => dec_value (10 * acc + d) s'
      | None => None
      end
  end.

Definition udecimal_of (s : string) : option Z :=
  match s with
  | EmptyString => None
  | String c t =>
      if Ascii.eqb c "0" && negb (String.eqb t "") then None
      else dec_value 0 s
  end.

Definition decimal_of (s : string) : option Z :=
  match s with
  | EmptyString => None
  | String c t =>
      if Ascii.eqb c "-" then
        match udecimal_of t with
        | Some n => if 0 <? n then Some (- n) else None
        | None => None
        end
      else udecimal_of s
  end.

(** [snprintf(buf, size, ...)] keeps the first [size - 1] characters of the
    formatted text [s] (the last byte is the terminator) and returns the
    length of the whole of [s]. *)
Definition snprintf (size : Z) (s : string) : string * Z :=
  (String.substring 0 (Z.to_nat (size - 1)) s, Z.of_nat (String.length s)).

(** ** Sample data for the examples at the end

    A 64-bit build ([sizeof(item)] is 8), Berkeley DB's values for the two
    return codes, and 64-byte item buffers. *)

Definition junk0 : item := Item (-1) 255 255 "?".
Definition BUF : Z := 64.
Definition SIZEOF_ITEM : Z := 8.
Definition BDB_BUFFER_SMALL : Z := -30999.
Definition BDB_NOTFOUND : Z := -30988.
Definition BDB_RUNRECOVERY : Z := -30973.

(** The state [item_init] leaves in a new process. *)
Definition start (ms : list bool) (ds : list db_reply) : state :=
  State ∅ 1 (replicate 500 NULL) 500 0 ms ds [].

(** A process whose freelist holds one recycled buffer, at address 1. *)
Definition old_item : item :=
  Item 5 6 3 ("old" +:+ String NUL (fmt_suffix 0 3 +:+ "abc" +:+ CRLF)).

Definition warm (ms : list bool) (ds : list db_reply) : state :=
  State {[1 := Block 64 old_item]} 2 (<[0%nat := 1]> (replicate 500 NULL))
        500 1 ms ds [].

(** A record of 97 bytes as the store holds it. *)
Definition big_item : item :=
  Item 70 7 11 ("elevenchars" +:+ String NUL (fmt_suffix 0 68)).

(** A key of 255 bytes. *)
Definition long_key : string :=
  string_of_list_ascii (replicate 255 "a"%char).

(** The answers of a store whose record does not fit the first buffer. *)
Definition resize_script : list db_reply :=
  [DbReply BDB_BUFFER_SMALL 97 None; DbReply 0 97 (Some big_item)].

(** A process whose caller holds the buffer at address 1. *)
Definition holding : state :=
  State {[1 := Block 64 old_item]} 2 (replicate 500 NULL) 500 0 [] [] [].

(** ** libc: memory *)

Section Program.

(** Fresh memory holds whatever was there before. *)
Variable junk : item.

(** [malloc(n)]: a new block at a fresh address, or NULL. *)
Definition malloc (n : Z) : M Z :=
  let* f := mem_fails in
  if (f : bool) then emit (EMalloc n NULL) ;; pure NULL
  else λ s,
    let p := brk s in
    Ok p (State (<[p := Block n junk]> (heap s)) (p + 1) (freeitem s)
                (freeitemtotal s) (freeitemcurr s) (mem_script s)
                (db_script s) (trace s ++ [EMalloc n p])).

(** [memset(p, 0, n)] on a whole block. *)
Definition memset0 (p : Z) : M unit :=
  let* h := gets heap in
  match h !! p with
  | Some b => set_heap (<[p := Block (blk_cap b) zero_item]> h)
  | None => fault
  end.

(** [free(p)]; freeing a block that is not live is a fault. *)
Definition free (p : Z) : M unit :=
  let* h := gets heap in
  match h !! p with
  | Some _ => set_heap (delete p h) ;; emit (EFree p)
  | None => fault
  end.

(** [realloc(freeitem, sizeof(item * ) * n)]: the array grown to [n]
    entries, the new ones unset, or nothing on failure. *)
Definition realloc (a : list Z) (n : Z) : M (option (list Z)) :=
  let* f := mem_fails in
  emit (ERealloc n (negb f)) ;;
  if (f : bool) then pure None
  else pure (Some (a ++ replicate (Z.to_nat n - length a) NULL)).

(** Reading and writing the header of the item at [p]. *)
Definition load (p : Z) : M item :=
  let* h := gets heap in
  match h !! p with
  | Some b => pure (blk_item b)
  | None => fault
  end.

Definition store (p : Z) (f : item → item) : M unit :=
  let* h := gets heap in
  match h !! p with
  | Some b => set_heap (<[p := Block (blk_cap b) (f (blk_item b))]> h)
  | None => fault
  end.

(** ** The freelist *)

(** [freeitem[i]] and [freeitem[i] = p]; outside the array both fault. *)
Definition freeitem_get (i : Z) : M Z :=
  let* a := gets freeitem in
  if i <? 0 then fault
  else match a !! Z.to_nat i with
       | Some p => pure p
       | None => fault
       end.

Definition freeitem_put (i : Z) (p : Z) : M unit :=
  let* a := gets freeitem in
  if (0 <=? i) && (i <? Z.of_nat (length a))
  then set_freeitem (<[Z.to_nat i := p]> a)
  else fault.

(** [item_init]: the array of 500 slots; a failed malloc leaves the null
    array, which has no slot. *)
Definition item_init : M unit :=
  set_freeitemtotal INIT_ITEM_FREELIST_LENGTH ;;
  set_freeitemcurr 0 ;;
  let* f := mem_fails in
  if (f : bool) then set_freeitem []
  else set_freeitem (replicate (Z.to_nat INIT_ITEM_FREELIST_LENGTH) NULL).

Variable item_buf_size : Z.   (* settings.item_buf_size *)

Definition do_item_from_freelist : M Z :=
  let* curr := gets freeitemcurr in
  if 0 <? curr then
    set_freeitemcurr (curr - 1) ;;
    let* s := freeitem_get (curr - 1) in
    emit (EPop s) ;;
    pure s
  else
    let* s := malloc item_buf_size in
    if s =? NULL then pure s
    else memset0 s ;; pure s.

Definition do_item_add_to_freelist (it : Z) : M Z :=
  let* curr := gets freeitemcurr in
  let* total := gets freeitemtotal in
  if curr <? total then
    freeitem_put curr it ;;
    set_freeitemcurr (curr + 1) ;;
    emit (EPush it) ;;
    pure 0
  else if MAX_ITEM_FREELIST_LENGTH <=? total then pure 1
  else
    let* a := gets freeitem in
    let* new_freeitem := realloc a (total * 2) in
    match new_freeitem with
    | Some a' =>
        set_freeitemtotal (total * 2) ;;
        set_freeitem a' ;;
        freeitem_put curr it ;;
        set_freeitemcurr (curr + 1) ;;
        emit (EPush it) ;;
        pure 0
    | None => pure 1
    end.

(** Modelled from the spec: [item_from_freelist] and
    [item_add_to_freelist], the thread-safe wrappers that item.c calls and
    that are defined outside it.  The spec has every pool acquire and
    release run under one process-wide lock held for the pool operation
    only; in a sequential run that is the unlocked function. *)
Definition item_from_freelist : M Z := do_item_from_freelist.
Definition item_add_to_freelist (it : Z) : M Z := do_item_add_to_freelist it.

(** ** The record header *)

Variable sizeof_item : Z.   (* sizeof(item), from memcachedb.h *)

(** [item_make_header]: the suffix, [*nsuffix] and the returned total.
    [nkey] is a [uint8_t], [flags] and [nbytes] are [int]s; [nbytes - 2] is
    computed in [int]. *)
Definition item_make_header (nkey flags nbytes : Z) : string * Z * Z :=
  let '(suffix, n) := snprintf 40 (fmt_suffix flags (int (nbytes - 2))) in
  let nsuffix := uint8_t n in
  (suffix, nsuffix, size_t (sizeof_item + nkey + nsuffix + nbytes)).

(** Modelled from the spec: [ITEM_ntotal], a macro of memcachedb.h, which
    is not among the sources.  The spec has the total size of a record
    computed from its own header fields as header size + key length +
    suffix length + payload length.  The key length of that layout is the
    one [item_alloc1] hands to [item_make_header], the key and its
    terminator: [item_alloc1] stores the length without the terminator in
    [it->nkey] and copies the key with it ([strcpy]), so the macro adds 1 to
    the field. *)
Definition ITEM_ntotal (it : item) : Z :=
  size_t (sizeof_item + nkey it + 1 + nsuffix it + nbytes it).

(** Modelled from the spec: [ITEM_key] and [ITEM_suffix], macros of
    memcachedb.h, which is not among the sources, as offsets from [it->end].
    The spec lays a record out as header, key bytes, suffix bytes, payload
    bytes.  The key starts right behind the header; the suffix starts behind
    the key and its terminator, [it->nkey + 1] bytes further, the key length
    that [ITEM_ntotal] counts. *)
Definition ITEM_key : Z := 0.
Definition ITEM_suffix (it : item) : Z := nkey it + 1.

(** A write of the [n] bytes [w] at [it->end + o].  A write that does not
    stay inside the block is a fault. *)
Definition write_end (p : Z) (o n : Z) (w : string) : M unit :=
  let* h := gets heap in
  match h !! p with
  | Some b =>
      if (0 <=? o) && (sizeof_item + o + n <=? blk_cap b) then
        set_heap (<[p := Block (blk_cap b)
                            (set_end (mem_write (Z.to_nat o) w
                                                (it_end (blk_item b)))
                                     (blk_item b))]> h)
      else fault
  | None => fault
  end.

(** [strcpy(it->end + o, src)] copies the string and its terminator;
    [memcpy(it->end + o, src, n)] copies [n] bytes. *)
Definition strcpy (p : Z) (o : Z) (src : string) : M unit :=
  write_end p o (strlen src + 1) (cstr src +:+ String NUL EmptyString).

Definition memcpy (p : Z) (o : Z) (src : string) (n : Z) : M unit :=
  write_end p o n (String.substring 0 (Z.to_nat n) src).

(** ** Allocation *)

(** The tail of [item_alloc1], once the buffer is there. *)
Definition item_fill (it : Z) (key : string) (nkey nbytes : Z)
    (suffix : string) (nsuffix : Z) : M Z :=
  store it (set_nkey (uint8_t nkey)) ;;
  store it (set_nbytes nbytes) ;;
  strcpy it ITEM_key key ;;
  let* i := load it in
  memcpy it (ITEM_suffix i) suffix nsuffix ;;
  store it (set_nsuffix nsuffix) ;;
  pure it.

Definition item_alloc1 (key : string) (nkey flags nbytes : Z) : M Z :=
  let '(suffix, nsuffix, ntotal) :=
    item_make_header (uint8_t (nkey + 1)) flags nbytes in
  if item_buf_size <? ntotal then
    let* it := malloc ntotal in
    if it =? NULL then pure NULL
    else memset0 it ;; item_fill it key nkey nbytes suffix nsuffix
  else
    let* it := item_from_freelist in
    if it =? NULL then pure NULL
    else item_fill it key nkey nbytes suffix nsuffix.

Definition item_alloc2 (ntotal : Z) : M Z :=
  if item_buf_size <? ntotal then
    let* it := malloc ntotal in
    if it =? NULL then pure NULL
    else memset0 it ;; pure it
  else
    let* it := item_from_freelist in
    if it =? NULL then pure NULL
    else pure it.

Definition item_free (it : Z) : M Z :=
  if it =? NULL then pure 0
  else
    let* i := load it in
    let ntotal := ITEM_ntotal i in
    if item_buf_size <? ntotal then
      free it ;; pure 0
    else
      let* r := item_add_to_freelist it in
      if negb (r =? 0) then free it ;; pure 0
      else pure 0.

(** ** Berkeley DB *)

Variable DB_BUFFER_SMALL : Z.
Variable DB_NOTFOUND : Z.

Definition db_next : M db_reply := λ s,
  match db_script s with
  | [] => Err NoReply
  | r :: rest =>
      Ok r (State (heap s) (brk s) (freeitem s) (freeitemtotal s)
                  (freeitemcurr s) (mem_script s) rest (trace s))
  end.

(** [dbp->get] with [DB_DBT_USERMEM]: the store may fill the user buffer
    [data], within the [ulen] bytes it was told of; it leaves its return code
    and [dbdata.size]. *)
Definition dbp_get (key : string) (nkey : Z) (data ulen : Z) : M (Z * Z) :=
  let* r := db_next in
  match rep_data r with
  | Some i => store data (λ _, i)
  | None => pure tt
  end ;;
  emit (EDbGet key nkey data ulen (rep_ret r)) ;;
  pure (rep_ret r, rep_size r).

Definition dbp_put (key : string) (nkey : Z) (data size : Z) : M Z :=
  let* r := db_next in
  emit (EDbPut key nkey data size (rep_ret r)) ;;
  pure (rep_ret r).

Definition dbp_del (key : string) (nkey : Z) : M Z :=
  let* r := db_next in
  emit (EDbDel key nkey (rep_ret r)) ;;
  pure (rep_ret r).

Definition dbp_exists (key : string) (nkey : Z) : M Z :=
  let* r := db_next in
  emit (EDbExists key nkey (rep_ret r)) ;;
  pure (rep_ret r).

(** ** Store access *)

(** The [while (!stop)] loop of [item_get]; [it] is the buffer held and
    [ulen] is [dbdata.ulen].  Every turn takes one answer of the store, so
    the number of answers left bounds the number of turns. *)
Fixpoint item_get_loop (fuel : nat) (key : string) (nkey it ulen : Z) : M Z :=
  match fuel with
  | O => λ _, Err NoReply
  | S fuel' =>
      let* r := dbp_get key nkey it ulen in
      let ret := r.1 in
      let size := r.2 in
      if ret =? DB_BUFFER_SMALL then
        item_free it ;;
        let* it' := item_alloc2 size in
        if it' =? NULL then pure NULL
        else item_get_loop fuel' key nkey it' size
      else if ret =? 0 then pure it
      else if ret =? DB_NOTFOUND then
        item_free it ;; pure NULL
      else
        item_free it ;; pure NULL
  end.

(** [item_get].  [dbdata.ulen] is a [u_int32_t]: the assignment
    [dbdata.ulen = settings.item_buf_size] keeps the low 32 bits of the
    [size_t]. *)
Definition item_get (key : string) (nkey : Z) : M Z :=
  let* it := item_alloc2 item_buf_size in
  if it =? 0 then pure NULL
  else
    let* n := gets (λ s, length (db_script s)) in
    item_get_loop n key nkey it (uint32_t item_buf_size).

Definition item_put (key : string) (nkey : Z) (it : Z) : M Z :=
  let* i := load it in
  let* ret := dbp_put key nkey it (uint32_t (ITEM_ntotal i)) in
  if ret =? 0 then pure 0 else pure (-1).

Definition item_delete (key : string) (nkey : Z) : M Z :=
  let* ret := dbp_del key nkey in
  if ret =? 0 then pure 0
  else if ret =? DB_NOTFOUND then pure 1
  else pure (-1).

Definition item_exists (key : string) (nkey : Z) : M Z :=
  let* ret := dbp_exists key nkey in
  if ret =? 0 then pure 1 else pure 0.

(** ** Notions used to state the properties *)

(** The buffers the freelist holds, oldest first: [freeitem[0..freeitemcurr)]. *)
Definition pool (s : state) : list Z :=
  take (Z.to_nat (freeitemcurr s)) (freeitem s).

(** The array has its [freeitemtotal] slots, at least one, and
    [freeitemcurr] lies inside. *)
Definition pool_ok (s : state) : Prop :=
  length (freeitem s) = Z.to_nat (freeitemtotal s) ∧
  0 < freeitemtotal s ∧
  0 ≤ freeitemcurr s ≤ freeitemtotal s.

(** A state item.c can be in between two calls: the pooled buffers are
    live and pairwise different, live blocks sit below [brk] and none is
    smaller than the buffers item.c asks for. *)
Definition wf (s : state) : Prop :=
  pool_ok s ∧
  0 < brk s ∧
  NoDup (pool s) ∧
  (∀ p, p ∈ pool s → is_Some (heap s !! p)) ∧
  (∀ p b, heap s !! p = Some b → 0 < p < brk s ∧ item_buf_size ≤ blk_cap b).

(** The same as a check that runs. *)
Definition wfb (s : state) : bool :=
  bool_decide (length (freeitem s) = Z.to_nat (freeitemtotal s)) &&
  (0 <? freeitemtotal s) && (0 <=? freeitemcurr s) &&
  (freeitemcurr s <=? freeitemtotal s) && (0 <? brk s) &&
  bool_decide (NoDup (pool s)) &&
  forallb (λ p, bool_decide (is_Some (heap s !! p))) (pool s) &&
  forallb (λ pb, (0 <? pb.1) && (pb.1 <? brk s) &&
                 (item_buf_size <=? blk_cap pb.2))
          (map_to_list (heap s)).

(** A buffer in the hands of a caller: live and not in the freelist. *)
Definition held (s : state) (it : Z) : Prop :=
  is_Some (heap s !! it) ∧ it ∉ pool s.

Definition next_mem_fails (s : state) : bool :=
  match mem_script s with
  | [] => false
  | b :: _ => b
  end.

(** Buffers a stretch of the trace hands out (from the freelist or from
    malloc) and buffers it gives back (to the freelist or to free). *)
Definition acquired (evs : list event) : list Z :=
  flat_map (λ e, match e with
                 | EMalloc _ p => if p =? NULL then [] else [p]
                 | EPop p => [p]
                 | _ => []
                 end) evs.

Definition released (evs : list event) : list Z :=
  flat_map (λ e, match e with
                 | EFree p | EPush p => [p]
                 | _ => []
                 end) evs.

(** The successful [malloc] calls of a stretch: size and address. *)
Definition mallocs (evs : list event) : list (Z * Z) :=
  flat_map (λ e, match e with
                 | EMalloc n p => if p =? NULL then [] else [(n, p)]
                 | _ => []
                 end) evs.

(** The store reads of a stretch: buffer, [ulen], return code. *)
Definition db_gets (evs : list event) : list (Z * Z * Z) :=
  flat_map (λ e, match e with
                 | EDbGet _ _ buf ulen r => [(buf, ulen, r)]
                 | _ => []
                 end) evs.

(** The sizes of the records a stretch writes to the store. *)
Definition db_puts (evs : list event) : list Z :=
  flat_map (λ e, match e with
                 | EDbPut _ _ _ size _ => [size]
                 | _ => []
                 end) evs.

(** The ownership discipline of one operation, checked along its trace.
    [h] is the buffer the operation holds.  Taking a buffer while holding
    one, giving back a buffer that is not the one held, and reading from the
    store into anything but the buffer held all fail the check; otherwise
    the result is what is held at the end. *)
Fixpoint audit (h : option Z) (evs : list event) : option (option Z) :=
  match evs with
  | [] => Some h
  | e :: evs' =>
      match e with
      | EMalloc _ p =>
          if p =? NULL then audit h evs'
          else match h with
               | None => audit (Some p) evs'
               | Some _ => None
               end
      | EPop p =>
          match h with
          | None => audit (Some p) evs'
          | Some _ => None
          end
      | EFree p | EPush p =>
          match h with
          | Some q => if p =? q then audit None evs' else None
          | None => None
          end
      | EDbGet _ _ buf _ _ =>
          match h with
          | Some q => if buf =? q then audit h evs' else None
          | None => None
          end
      | _ => audit h evs'
      end
  end.

(** The events by which [item_free] gives a buffer back, and those by which
    [item_alloc2] hands one out or fails to. *)
Definition free_shape (it : Z) (evs : list event) : Prop :=
  evs = [EPush it] ∨ (∃ m, evs = [ERealloc m true; EPush it]) ∨
  evs = [EFree it] ∨ (∃ m, evs = [ERealloc m false; EFree it]).

Definition alloc_shape (it : Z) (evs : list event) : Prop :=
  (it = NULL ∧ ∃ m, evs = [EMalloc m NULL]) ∨
  (it ≠ NULL ∧ (evs = [EPop it] ∨ ∃ n, evs = [EMalloc n it])).

(** The store's answers include one that ends the loop of [item_get]. *)
Definition settles (DB_BUFFER_SMALL : Z) (script : list db_reply) : Prop :=
  Exists (λ r, rep_ret r ≠ DB_BUFFER_SMALL) script.

(** The value a run returns, if it returns. *)
Definition value {A} (r : result A) : option A :=
  match r with
  | Ok a _ => Some a
  | Err _ => None
  end.

(** Calls on the freelist, and a run of them. *)
Inductive pool_call :=
| Release (it : Z)
| Acquire.

Definition pool_step (c : pool_call) : M Z :=
  match c with
  | Release it => do_item_add_to_freelist it
  | Acquire => do_item_from_freelist
  end.

Fixpoint pool_run (cs : list pool_call) : M unit :=
  match cs with
  | [] => pure tt
  | c :: cs' => pool_step c ;; pool_run cs'
  end.

(** What holds of the freelist from [item_init] on: the array is in
    order and its size is one of the four sizes doubling reaches from 500. *)
Definition pool_inv (s : state) : Prop :=
  pool_ok s ∧ 0 < brk s ∧
  (freeitemtotal s = 500 ∨ freeitemtotal s = 1000 ∨
   freeitemtotal s = 2000 ∨ freeitemtotal s = 4000).

(** The state a run ends in, if it returns. *)
Definition final {A} (r : result A) : option state :=
  match r with
  | Ok _ s => Some s
  | Err _ => None
  end.

(** Runs of releases and of acquisitions that keep what each call returned. *)
Fixpoint release_all (ps : list Z) : M (list Z) :=
  match ps with
  | [] => pure []
  | p :: ps' =>
      let* r := do_item_add_to_freelist p in
      let* rs := release_all ps' in
      pure (r :: rs)
  end.

Fixpoint acquire_n (n : nat) : M (list Z) :=
  match n with
  | O => pure []
  | S n' =>
      let* p := do_item_from_freelist in
      let* ps := acquire_n n' in
      pure (p :: ps)
  end.

(** The buffers a stretch of the trace puts into the freelist and takes
    out of it. *)
Definition pushed (evs : list event) : list Z :=
  flat_map (λ e, match e with EPush p => [p] | _ => [] end) evs.

Definition popped (evs : list event) : list Z :=
  flat_map (λ e, match e with EPop p => [p] | _ => [] end) evs.

(** A call leaves the buffers in callers' hands where they are and as they
    are: all of them, or all but [it]. *)
Definition all_kept (s s' : state) : Prop :=
  ∀ q, held s q → held s' q ∧ heap s' !! q = heap s !! q.

Definition others_kept (s s' : state) (it : Z) : Prop :=
  ∀ q, q ≠ it → held s q → held s' q ∧ heap s' !! q = heap s !! q.

(** The calls item.c offers, to state what holds of each of them. *)
Inductive api_call :=
| CallAlloc1 (key : string) (nkey flags nbytes : Z)
| CallAlloc2 (ntotal : Z)
| CallFree (it : Z)
| CallGet (key : string) (nkey : Z)
| CallPut (key : string) (nkey it : Z)
| CallDelete (key : string) (nkey : Z)
| CallExists (key : string) (nkey : Z).

Definition api_run (c : api_call) : M Z :=
  match c with
  | CallAlloc1 key nkey flags nbytes => item_alloc1 key nkey flags nbytes
  | CallAlloc2 ntotal => item_alloc2 ntotal
  | CallFree it => item_free it
  | CallGet key nkey => item_get key nkey
  | CallPut key nkey it => item_put key nkey it
  | CallDelete key nkey => item_delete key nkey
  | CallExists key nkey => item_exists key nkey
  end.



(** The [ulen] and the return code of the store reads of a stretch. *)
Definition read_log (evs : list event) : list (Z * Z) :=
  map (λ g, (g.1.2, g.2)) (db_gets evs).

(** What the end of a stretch of the trace says of an [item_get] that
    returned [r]: a failed [malloc], a store read that ended in an error, or
    a store read that succeeded into [r]. *)
Definition get_outcome (key : string) (nkey r : Z) (evs : list event) : Prop :=
  if r =? NULL then
    (∃ m, last evs = Some (EMalloc m NULL)) ∨
    (∃ it u c, last (db_gets evs) = Some (it, u, c) ∧
               c ≠ 0 ∧ c ≠ DB_BUFFER_SMALL)
  else
    ∃ u, last evs = Some (EDbGet key nkey r u 0) ∧ DB_BUFFER_SMALL ≠ 0.


(** Where [item_get] stands between two events of its trace: about to take
    a buffer; holding [q] and about to read into it; about to give [q]
    back, [again] telling whether it then takes another buffer (the resize)
    or returns NULL, and [grew] what the freelist's [realloc] has said on the
    way, if it was asked; returned, with the value returned. *)
Inductive phase :=
| Taking
| Reading (q : Z)
| Releasing (q : Z) (again : bool) (grew : option bool)
| Returned (r : Z).

(** The one way on from each phase.  A read must go into the buffer held,
    and what follows it is decided by the store's answer: the resize on
    DB_BUFFER_SMALL, the return of the buffer on 0, its release and NULL
    on any other code.  A release is a push (after a [realloc] that
    succeeded, if there was one) or a [free] (after one that failed, if there
    was one) of the buffer held.  Nothing follows the return. *)
Definition get_step (ph : phase) (e : event) : option phase :=
  match ph, e with
  | Taking, EMalloc _ p =>
      Some (if p =? NULL then Returned NULL else Reading p)
  | Taking, EPop p => Some (Reading p)
  | Reading q, EDbGet _ _ buf _ c =>
      if buf =? q then
        Some (if c =? DB_BUFFER_SMALL then Releasing q true None
              else if c =? 0 then Returned q
              else Releasing q false None)
      else None
  | Releasing q again None, ERealloc _ ok => Some (Releasing q again (Some ok))
  | Releasing q again grew, EPush p =>
      if (p =? q) && negb (bool_decide (grew = Some false))
      then Some (if again then Taking else Returned NULL)
      else None
  | Releasing q again grew, EFree p =>
      if (p =? q) && negb (bool_decide (grew = Some true))
      then Some (if again then Taking else Returned NULL)
      else None
  | _, _ => None
  end.

Fixpoint get_phases (ph : phase) (evs : list event) : option phase :=
  match evs with
  | [] => Some ph
  | e :: evs' =>
      match get_step ph e with
      | Some ph' => get_phases ph' evs'
      | None => None
      end
  end.

(** The two copies of [item_alloc1], of the key with its terminator and of
    the suffix, stay inside a block of [cap] bytes. *)
Definition item_fits (cap : Z) (key : string) (nkey nsuffix : Z) : Prop :=
  sizeof_item + ITEM_key + (strlen key + 1) ≤ cap ∧
  sizeof_item + (uint8_t nkey + 1) + nsuffix ≤ cap.

(** The record [item_alloc1] leaves in a buffer that held [i0]. *)
Definition filled (key : string) (nkey nbytes : Z) (suffix : string)
    (nsuffix : Z) (i0 : item) : item :=
  Item nbytes nsuffix (uint8_t nkey)
       (mem_write (Z.to_nat (uint8_t nkey + 1))
                  (String.substring 0 (Z.to_nat nsuffix) suffix)
                  (mem_write (Z.to_nat ITEM_key)
                             (cstr key +:+ String NUL EmptyString)
                             (it_end i0))).

(** * Properties *)

(** Runs the monad's plumbing on a state given by its fields. *)
Ltac mrun :=
  repeat (progress (
    cbv beta iota zeta delta
      [bind gets pure emit fault set_heap set_freeitem set_freeitemtotal
       set_freeitemcurr mem_fails db_next heap brk freeitem freeitemtotal
       freeitemcurr mem_script db_script trace];
    simpl)).


(** ** Strings *)

Lemma length_append (s t : string) :
  String.length (s +:+ t) = (String.length s + String.length t)%nat.
Proof. induction s as [|c s IH]; simpl; [done | by rewrite IH]. Qed.

Lemma substring_whole (n : nat) (s : string) :
  (String.length s ≤ n)%nat → String.substring 0 n s = s.
Proof.
  revert n. induction s as [|c s IH]; intros [|n] Hn; simpl in *; try done.
  - lia.
  - f_equal. apply IH. lia.
Qed.

(** [%d] prints at most [k] digits for a number below [10^k]. *)
Lemma digits_length (fuel : nat) : ∀ (k : nat) (n : Z) (acc : string),
  (1 ≤ k)%nat → 0 ≤ n < 10 ^ Z.of_nat k →
  (String.length (digits fuel n acc) ≤ String.length acc + k)%nat.
Proof.
  induction fuel as [|fuel IH]; intros k n acc Hk Hn; simpl; [lia|].
  destruct (n / 10 =? 0) eqn:Hq; simpl; [lia|].
  apply Z.eqb_neq in Hq.
  destruct k as [|[|k]]; [lia | |].
  - exfalso. apply Hq. apply Z.div_small. simpl in Hn. lia.
  - etrans; [apply (IH (S k)) | simpl; lia]; [lia|].
    split; [apply Z.div_pos; lia|].
    apply Z.div_lt_upper_bound; [lia|].
    replace (Z.of_nat (S (S k))) with (Z.succ (Z.of_nat (S k))) in Hn by lia.
    rewrite Z.pow_succ_r in Hn; lia.
Qed.

Lemma fmt_d_length (z : Z) :
  INT_MIN ≤ z ≤ INT_MAX → (String.length (fmt_d z) ≤ 11)%nat.
Proof.
  unfold INT_MIN, INT_MAX, fmt_d, udec. intros Hz.
  destruct (z <? 0) eqn:Hneg; simpl.
  - apply Z.ltb_lt in Hneg.
    pose proof (digits_length (S (Z.to_nat (Z.log2 (- z)))) 10 (- z) "") as H.
    simpl String.length in H. apply le_n_S, H; lia.
  - apply Z.ltb_ge in Hneg.
    pose proof (digits_length (S (Z.to_nat (Z.log2 z))) 10 z "") as H.
    simpl String.length in H. etrans; [apply H|]; lia.
Qed.

Lemma int_range (z : Z) : INT_MIN ≤ int z ≤ INT_MAX.
Proof. unfold int, INT_MIN, INT_MAX. pose proof (Z.mod_pos_bound (z + 2 ^ 31) (2 ^ 32)). lia. Qed.

Lemma int_id (z : Z) : INT_MIN ≤ z ≤ INT_MAX → int z = z.
Proof. unfold int, INT_MIN, INT_MAX. intros. rewrite Z.mod_small; lia. Qed.

Lemma fmt_suffix_length (a b : Z) :
  INT_MIN ≤ a ≤ INT_MAX → INT_MIN ≤ b ≤ INT_MAX →
  (String.length (fmt_suffix a b) ≤ 26)%nat.
Proof.
  intros Ha Hb. unfold fmt_suffix. simpl. rewrite length_append. simpl.
  rewrite length_append. simpl.
  pose proof (fmt_d_length a Ha). pose proof (fmt_d_length b Hb). lia.
Qed.

(** ** What [%d] prints *)

Lemma digit_cases (d : Z) : 0 ≤ d < 10 →
  digit_value (digit d) = Some d ∧ Ascii.eqb (digit d) "-" = false ∧
  (Ascii.eqb (digit d) "0" = true → d = 0).
Proof.
  intros Hd.
  assert (d = 0 ∨ d = 1 ∨ d = 2 ∨ d = 3 ∨ d = 4 ∨ d = 5 ∨ d = 6 ∨ d = 7 ∨
          d = 8 ∨ d = 9) as H by lia.
  destruct H as [->|[->|[->|[->|[->|[->|[->|[->|[->| ->]]]]]]]]];
    vm_compute; repeat split; congruence.
Qed.

Lemma digits_spec (fuel : nat) : ∀ (n : Z) (acc : string),
  (1 ≤ fuel)%nat → 0 ≤ n < 2 ^ Z.of_nat fuel →
  ∃ c ds,
    digits fuel n acc = String c (ds +:+ acc) ∧
    Ascii.eqb c "-" = false ∧
    (Ascii.eqb c "0" = true → ds = EmptyString ∧ n = 0) ∧
    ∀ a, dec_value a (String c (ds +:+ acc)) =
         dec_value (a * 10 ^ Z.of_nat (S (String.length ds)) + n) acc.
Proof.
  induction fuel as [|fuel IH]; intros n acc Hfuel Hn; [lia|].
  cbn [digits]. cbv zeta.
  pose proof (Z.mod_pos_bound n 10 ltac:(lia)) as Hm.
  destruct (digit_cases (n mod 10) Hm) as (Hv & Hminus & Hzero).
  destruct (n / 10 =? 0) eqn:Hq;
    [apply Z.eqb_eq in Hq | apply Z.eqb_neq in Hq].
  - assert (n mod 10 = n) as Hsmall.
    { pose proof (Z.div_mod n 10 ltac:(lia)). lia. }
    exists (digit (n mod 10)), EmptyString. split; [done|]. split; [done|].
    split. { intros H0. split; [done|]. rewrite <- Hsmall. by apply Hzero. }
    intros a. cbn [dec_value]. rewrite Hv. simpl String.length.
    change (String.append EmptyString acc) with acc.
    f_equal. change (10 ^ Z.of_nat 1) with 10. lia.
  - assert (10 ≤ n) as Hten.
    { destruct (Z.lt_ge_cases n 10) as [Hlt|]; [|done].
      exfalso. apply Hq. apply Z.div_small. lia. }
    destruct (IH (n / 10) (String (digit (n mod 10)) acc))
      as (c & ds & Heq & Hc & Hz & Hval).
    { destruct fuel; [simpl in Hn; lia | lia]. }
    { split; [apply Z.div_pos; lia|].
      apply Z.div_lt_upper_bound; [lia|].
      rewrite Nat2Z.inj_succ, Z.pow_succ_r in Hn by lia. lia. }
    exists c, (ds +:+ String (digit (n mod 10)) EmptyString).
    assert ((ds +:+ String (digit (n mod 10)) EmptyString) +:+ acc
            = ds +:+ String (digit (n mod 10)) acc) as Happ.
    { clear. induction ds as [|c' ds IHd]; [done|].
      unfold String.append in *; fold String.append in *. by f_equal. }
    rewrite Happ. split; [done|]. split; [done|]. split.
    { intros H0. destruct (Hz H0) as [_ ?]. done. }
    intros a. rewrite Hval. cbn [dec_value]. rewrite Hv. f_equal.
    assert (String.length (ds +:+ String (digit (n mod 10)) EmptyString)
            = S (String.length ds)) as ->.
    { clear. induction ds as [|c' ds IHd]; [done|].
      unfold String.append in *; fold String.append in *.
      cbn [String.length]. by rewrite IHd. }
    rewrite (Nat2Z.inj_succ (S _)), Z.pow_succ_r by lia.
    pose proof (Z.div_mod n 10 ltac:(lia)). lia.
Qed.

Lemma udecimal_of_udec (n : Z) : 0 ≤ n →
  udecimal_of (udec n) = Some n ∧
  ∃ c t, udec n = String c t ∧ Ascii.eqb c "-" = false.
Proof.
  intros Hn. unfold udec.
  destruct (digits_spec (S (Z.to_nat (Z.log2 n))) n EmptyString)
    as (c & ds & Heq & Hc & Hz & Hval).
  { lia. }
  { split; [done|]. destruct (decide (n = 0)) as [->|Hne]; [done|].
    rewrite Nat2Z.inj_succ, Z2Nat.id by apply Z.log2_nonneg.
    apply Z.log2_spec. lia. }
  rewrite Heq. split; [|by eexists _, _].
  unfold udecimal_of.
  destruct (Ascii.eqb c "0") eqn:H0.
  - destruct (Hz eq_refl) as [-> ->]. rewrite (Hval 0). reflexivity.
  - cbn [andb]. rewrite (Hval 0). reflexivity.
Qed.

Lemma decimal_of_fmt_d (z : Z) : decimal_of (fmt_d z) = Some z.
Proof.
  unfold fmt_d. destruct (z <? 0) eqn:Hneg;
    [apply Z.ltb_lt in Hneg | apply Z.ltb_ge in Hneg].
  - cbn [decimal_of]. change (Ascii.eqb "-" "-") with true. cbv iota.
    destruct (udecimal_of_udec (- z)) as [-> _]; [lia|].
    rewrite (proj2 (Z.ltb_lt 0 (- z))) by lia. f_equal. lia.
  - destruct (udecimal_of_udec z Hneg) as [Hu (c & t & Heq & Hc)].
    rewrite Heq in *. cbn [decimal_of]. by rewrite Hc.
Qed.

(** ** The suffix written by [item_make_header] *)

(** C4.  For all [int] values of [flags] and [nbytes], [item_make_header]
    formats the suffix with [" %d %d\r\n"] from [flags] and [nbytes - 2]
    through [snprintf] into a 40-byte buffer, which keeps at most the first
    39 characters of the text; the text of two [int]s is never longer than
    26 characters, so what is stored is the whole text, and the suffix length
    returned is the length of what is stored.  The text is a space, the
    decimal numeral of [flags], a space, the decimal numeral of [nbytes - 2]
    (taken as an [int]), a carriage return and a line feed. *)
Theorem item_make_header_suffix (nkey flags nbytes : Z) :
  INT_MIN ≤ flags ≤ INT_MAX →
  INT_MIN ≤ nbytes ≤ INT_MAX →
  let text := fmt_suffix flags (int (nbytes - 2)) in
  let '(suffix, nsuffix, _) := item_make_header nkey flags nbytes in
  suffix = String.substring 0 39 text ∧
  suffix = text ∧
  nsuffix = Z.of_nat (String.length suffix) ∧
  (String.length suffix ≤ 26)%nat ∧
  (INT_MIN + 2 ≤ nbytes → suffix = fmt_suffix flags (nbytes - 2)) ∧
  ∃ a b,
    suffix = String " " (a +:+ String " " (b +:+ CRLF)) ∧
    decimal_of a = Some flags ∧
    decimal_of b = Some (int (nbytes - 2)) ∧
    (INT_MIN + 2 ≤ nbytes → decimal_of b = Some (nbytes - 2)).
Proof.
  intros Hf Hn. cbv zeta. unfold item_make_header, snprintf.
  pose proof (fmt_suffix_length flags (int (nbytes - 2)) Hf (int_range _)) as Hlen.
  change (Z.to_nat (40 - 1)) with 39%nat.
  rewrite (substring_whole 39) by lia.
  split; [done|]. split; [done|]. split.
  { unfold uint8_t. rewrite Z.mod_small; [done|]. change (2 ^ 8) with 256. lia. }
  split; [done|]. split.
  { intros Hlo. rewrite int_id; [done|]. unfold INT_MIN, INT_MAX in *. lia. }
  exists (fmt_d flags), (fmt_d (int (nbytes - 2))).
  split; [reflexivity|]. rewrite !decimal_of_fmt_d.
  split; [done|]. split; [done|].
  intros Hlo. rewrite int_id; [done|]. unfold INT_MIN, INT_MAX in *. lia.
Qed.

(** ** Store calls that return a code *)

(** C8.  [item_delete] answers with one of three codes, and each code
    stands for one outcome of the store only: 0 exactly when the store
    deleted the record, 1 exactly when the store reported the key absent
    ([DB_NOTFOUND]), -1 exactly for every other return of the store.  In
    particular an absent key gives 1, never -1. *)
Theorem item_delete_result (key : string) (nkey : Z) (s : state) (r : db_reply)
    (rest : list db_reply) :
  DB_NOTFOUND ≠ 0 →
  db_script s = r :: rest →
  ∃ v s',
    item_delete key nkey s = Ok v s' ∧
    trace s' = trace s ++ [EDbDel key nkey (rep_ret r)] ∧
    (v = 0 ∨ v = 1 ∨ v = -1) ∧
    (v = 0 ↔ rep_ret r = 0) ∧
    (v = 1 ↔ rep_ret r = DB_NOTFOUND) ∧
    (v = -1 ↔ rep_ret r ≠ 0 ∧ rep_ret r ≠ DB_NOTFOUND).
Proof.
  intros Hnf Hs. unfold item_delete, dbp_del, db_next, bind, emit, pure.
  rewrite Hs. simpl.
  destruct (rep_ret r =? 0) eqn:H0; [apply Z.eqb_eq in H0 | apply Z.eqb_neq in H0].
  - eexists _, _. split; [done|]. simpl. repeat split; try lia; auto.
  - destruct (rep_ret r =? DB_NOTFOUND) eqn:H1;
      [apply Z.eqb_eq in H1 | apply Z.eqb_neq in H1];
      (eexists _, _; split; [done|]); simpl; repeat split; try lia; auto.
      all: intros [? ?]; done.
Qed.

(** C10.  [item_exists] returns 1 exactly when the store's [exists] call
    returns 0 (success) and 0 for every other return of the store, an error
    as well as [DB_NOTFOUND]: the caller sees the same 0 for both. *)
Theorem item_exists_result (key : string) (nkey : Z) (s : state) (r : db_reply)
    (rest : list db_reply) :
  db_script s = r :: rest →
  ∃ v s',
    item_exists key nkey s = Ok v s' ∧
    trace s' = trace s ++ [EDbExists key nkey (rep_ret r)] ∧
    heap s' = heap s ∧
    (v = 1 ↔ rep_ret r = 0) ∧
    (rep_ret r ≠ 0 → v = 0).
Proof.
  intros Hs. unfold item_exists, dbp_exists, db_next, bind, emit, pure.
  rewrite Hs. simpl.
  destruct (rep_ret r =? 0) eqn:H0; [apply Z.eqb_eq in H0 | apply Z.eqb_neq in H0];
    (eexists _, _; split; [done|]); simpl; repeat split; try lia; auto.
Qed.

(** ** The freelist as a stack *)

Lemma pool_snoc (a : list Z) (n : nat) (p : Z) :
  (n < length a)%nat → take (S n) (<[n := p]> a) = take n a ++ [p].
Proof.
  intros Hn. rewrite (take_S_r _ _ p); [|by apply list_lookup_insert_eq].
  by rewrite take_insert_ge.
Qed.

(** The four ways through [do_item_add_to_freelist]. *)
Lemma add_room (it : Z) (s : state) :
  pool_ok s → freeitemcurr s < freeitemtotal s →
  do_item_add_to_freelist it s =
    Ok 0 (State (heap s) (brk s)
                (<[Z.to_nat (freeitemcurr s) := it]> (freeitem s))
                (freeitemtotal s) (freeitemcurr s + 1) (mem_script s)
                (db_script s) (trace s ++ [EPush it])).
Proof.
  intros (Hlen & Htot & Hc) Hlt. destruct s as [h b a t c ms ds tr]; simpl in *.
  unfold do_item_add_to_freelist, freeitem_put. mrun.
  rewrite (proj2 (Z.ltb_lt c t) Hlt).
  rewrite (proj2 (Z.leb_le 0 c)) by lia.
  rewrite (proj2 (Z.ltb_lt c (Z.of_nat (length a)))) by lia.
  done.
Qed.

Lemma add_capped (it : Z) (s : state) :
  freeitemtotal s ≤ freeitemcurr s →
  MAX_ITEM_FREELIST_LENGTH ≤ freeitemtotal s →
  do_item_add_to_freelist it s = Ok 1 s.
Proof.
  intros Hfull Hmax. destruct s as [h b a t c ms ds tr]; simpl in *.
  unfold do_item_add_to_freelist. mrun.
  rewrite (proj2 (Z.ltb_ge _ _) Hfull), (proj2 (Z.leb_le _ _) Hmax). done.
Qed.

Lemma add_grown (it : Z) (s : state) :
  pool_ok s → freeitemtotal s ≤ freeitemcurr s →
  freeitemtotal s < MAX_ITEM_FREELIST_LENGTH →
  next_mem_fails s = false →
  do_item_add_to_freelist it s =
    Ok 0 (State (heap s) (brk s)
                (<[Z.to_nat (freeitemcurr s) := it]>
                   (freeitem s ++
                    replicate (Z.to_nat (freeitemtotal s * 2) - length (freeitem s)) NULL))
                (freeitemtotal s * 2) (freeitemcurr s + 1)
                (tail (mem_script s)) (db_script s)
                (trace s ++ [ERealloc (freeitemtotal s * 2) true; EPush it])).
Proof.
  intros (Hlen & Htot & Hc) Hfull Hmax Hmem.
  destruct s as [h b a t c ms ds tr]; simpl in *.
  unfold do_item_add_to_freelist, realloc, freeitem_put. mrun.
  rewrite (proj2 (Z.ltb_ge _ _) Hfull), (proj2 (Z.leb_gt _ _) Hmax).
  assert (Hin : (0 <=? c) &&
      (c <? Z.of_nat (length (a ++ replicate (Z.to_nat (t * 2) - length a) NULL)))
      = true).
  { rewrite length_app, length_replicate.
    apply andb_true_iff. split; [apply Z.leb_le | apply Z.ltb_lt]; lia. }
  destruct ms as [|[] ms]; simpl in *; try done; mrun;
    rewrite Hin; by rewrite <- app_assoc.
Qed.

Lemma add_refused (it : Z) (s : state) :
  freeitemtotal s ≤ freeitemcurr s →
  freeitemtotal s < MAX_ITEM_FREELIST_LENGTH →
  next_mem_fails s = true →
  do_item_add_to_freelist it s =
    Ok 1 (State (heap s) (brk s) (freeitem s) (freeitemtotal s)
                (freeitemcurr s) (tail (mem_script s)) (db_script s)
                (trace s ++ [ERealloc (freeitemtotal s * 2) false])).
Proof.
  intros Hfull Hmax Hmem.
  destruct s as [h b a t c ms ds tr]; simpl in *.
  unfold do_item_add_to_freelist, realloc. mrun.
  rewrite (proj2 (Z.ltb_ge _ _) Hfull), (proj2 (Z.leb_gt _ _) Hmax).
  destruct ms as [|[] ms]; simpl in *; done.
Qed.

(** The two ways through [do_item_from_freelist] when the list has a
    buffer and when it has none. *)
Lemma from_pool (s : state) :
  pool_ok s → 0 < freeitemcurr s →
  ∃ p, freeitem s !! Z.to_nat (freeitemcurr s - 1) = Some p ∧
       pool s = take (Z.to_nat (freeitemcurr s - 1)) (freeitem s) ++ [p] ∧
       do_item_from_freelist s =
         Ok p (State (heap s) (brk s) (freeitem s) (freeitemtotal s)
                     (freeitemcurr s - 1) (mem_script s) (db_script s)
                     (trace s ++ [EPop p])).
Proof.
  intros (Hlen & Htot & Hc) Hpos.
  destruct (lookup_lt_is_Some_2 (freeitem s) (Z.to_nat (freeitemcurr s - 1)))
    as [p Hp]; [lia|].
  exists p. split; [done|]. split.
  - unfold pool. replace (Z.to_nat (freeitemcurr s))
      with (S (Z.to_nat (freeitemcurr s - 1))) by lia.
    by apply take_S_r.
  - destruct s as [h b a t c ms ds tr]; simpl in *.
    unfold do_item_from_freelist, freeitem_get. mrun.
    rewrite (proj2 (Z.ltb_lt _ _) Hpos).
    rewrite (proj2 (Z.ltb_ge (c - 1) 0)) by lia. by rewrite Hp.
Qed.

Lemma from_malloc (s : state) :
  freeitemcurr s ≤ 0 → next_mem_fails s = false → 0 < brk s →
  do_item_from_freelist s =
    Ok (brk s)
       (State (<[brk s := Block item_buf_size zero_item]> (heap s))
              (brk s + 1) (freeitem s) (freeitemtotal s) (freeitemcurr s)
              (tail (mem_script s)) (db_script s)
              (trace s ++ [EMalloc item_buf_size (brk s)])).
Proof.
  intros Hc Hmem Hbrk. destruct s as [h b a t c ms ds tr]; simpl in *.
  unfold do_item_from_freelist, malloc, memset0. mrun.
  rewrite (proj2 (Z.ltb_ge _ _) Hc).
  assert ((b =? NULL) = false) as Hb by (apply Z.eqb_neq; unfold NULL; lia).
  destruct ms as [|[] ms]; simpl in *; try done; mrun;
    rewrite Hb; mrun; rewrite lookup_insert_eq; mrun;
    by rewrite insert_insert_eq.
Qed.

Lemma from_malloc_failed (s : state) :
  freeitemcurr s ≤ 0 → next_mem_fails s = true →
  do_item_from_freelist s =
    Ok NULL (State (heap s) (brk s) (freeitem s) (freeitemtotal s)
                   (freeitemcurr s) (tail (mem_script s)) (db_script s)
                   (trace s ++ [EMalloc item_buf_size NULL])).
Proof.
  intros Hc Hmem. destruct s as [h b a t c ms ds tr]; simpl in *.
  unfold do_item_from_freelist, malloc. mrun.
  rewrite (proj2 (Z.ltb_ge _ _) Hc).
  destruct ms as [|[] ms]; simpl in *; done.
Qed.

(** [do_item_add_to_freelist] on any freelist: it never faults, touches
    neither the heap nor the store, and either appends the buffer or leaves
    the list as it was. *)
Lemma add_to_freelist_cases (it : Z) (s : state) :
  pool_ok s →
  ∃ r s' evs,
    do_item_add_to_freelist it s = Ok r s' ∧
    trace s' = trace s ++ evs ∧
    heap s' = heap s ∧ brk s' = brk s ∧ db_script s' = db_script s ∧
    pool_ok s' ∧
    ((r = 0 ∧ pool s' = pool s ++ [it] ∧
      (evs = [EPush it] ∧ freeitemtotal s' = freeitemtotal s ∧
       mem_script s' = mem_script s ∨
       evs = [ERealloc (freeitemtotal s * 2) true; EPush it] ∧
       freeitemtotal s' = freeitemtotal s * 2 ∧
       mem_script s' = tail (mem_script s))) ∨
     (r = 1 ∧ pool s' = pool s ∧ freeitemtotal s' = freeitemtotal s ∧
      (evs = [] ∧ mem_script s' = mem_script s ∨
       evs = [ERealloc (freeitemtotal s * 2) false] ∧
       mem_script s' = tail (mem_script s)))).
Proof.
  intros Hok. pose proof Hok as (Hlen & Htot & Hc).
  destruct (Z.lt_ge_cases (freeitemcurr s) (freeitemtotal s)) as [Hlt|Hfull].
  - eexists 0, _, [EPush it]. rewrite add_room by done.
    split; [reflexivity|]. unfold pool_ok, pool. simpl.
    repeat split; try done; try lia.
    + by rewrite length_insert.
    + left. split; [done|]. split; [|by left].
      replace (Z.to_nat (freeitemcurr s + 1)) with (S (Z.to_nat (freeitemcurr s))) by lia.
      apply pool_snoc. lia.
  - destruct (Z.le_gt_cases MAX_ITEM_FREELIST_LENGTH (freeitemtotal s)) as [Hmax|Hmax].
    { eexists 1, s, []. rewrite add_capped by done. rewrite app_nil_r.
      repeat split; try done; try lia.
      right. repeat split; try done. by left. }
    destruct (next_mem_fails s) eqn:Hmem.
    + eexists 1, _, [ERealloc (freeitemtotal s * 2) false].
      rewrite add_refused by done.
      split; [reflexivity|]. unfold pool_ok, pool. simpl.
      repeat split; try done; try lia.
      right. repeat split; try done. by right.
    + eexists 0, _, [ERealloc (freeitemtotal s * 2) true; EPush it].
      rewrite add_grown by done.
      split; [reflexivity|]. unfold pool_ok, pool. simpl.
      repeat split; try done; try lia.
      * rewrite length_insert, length_app, length_replicate. lia.
      * left. split; [done|]. split; [|by right].
        replace (Z.to_nat (freeitemcurr s + 1)) with (S (Z.to_nat (freeitemcurr s))) by lia.
        rewrite pool_snoc by (rewrite length_app, length_replicate; lia).
        f_equal. rewrite take_app_le by lia. done.
Qed.

(** [do_item_from_freelist] on any freelist: it never faults and never
    touches the array; it takes the last buffer of the list, or asks malloc
    when the list is empty. *)
Lemma from_freelist_cases (s : state) :
  pool_ok s → 0 < brk s →
  ∃ p s' evs,
    do_item_from_freelist s = Ok p s' ∧
    trace s' = trace s ++ evs ∧
    db_script s' = db_script s ∧
    freeitem s' = freeitem s ∧ freeitemtotal s' = freeitemtotal s ∧
    pool_ok s' ∧ 0 < brk s' ∧
    ((0 < freeitemcurr s ∧ evs = [EPop p] ∧ pool s = pool s' ++ [p] ∧
      freeitemcurr s' = freeitemcurr s - 1 ∧
      heap s' = heap s ∧ brk s' = brk s ∧ mem_script s' = mem_script s) ∨
     (freeitemcurr s = 0 ∧ next_mem_fails s = false ∧
      p = brk s ∧ evs = [EMalloc item_buf_size p] ∧
      heap s' = <[p := Block item_buf_size zero_item]> (heap s) ∧
      brk s' = brk s + 1 ∧ freeitemcurr s' = 0 ∧
      mem_script s' = tail (mem_script s)) ∨
     (freeitemcurr s = 0 ∧ next_mem_fails s = true ∧
      p = NULL ∧ evs = [EMalloc item_buf_size NULL] ∧
      heap s' = heap s ∧ brk s' = brk s ∧ freeitemcurr s' = 0 ∧
      mem_script s' = tail (mem_script s))).
Proof.
  intros Hok Hbrk. pose proof Hok as (Hlen & Htot & Hc).
  destruct (Z.lt_ge_cases 0 (freeitemcurr s)) as [Hpos|Hemp].
  - destruct (from_pool s Hok Hpos) as (p & Hp & Hpool & Hrun).
    eexists p, _, [EPop p]. rewrite Hrun. split; [reflexivity|].
    unfold pool_ok. simpl. repeat split; try done; try lia.
    left. repeat split; try done.
  - destruct (next_mem_fails s) eqn:Hmem.
    + eexists NULL, _, _. rewrite from_malloc_failed by done.
      split; [reflexivity|]. unfold pool_ok. simpl.
      repeat split; try done; try lia.
      right. right. repeat split; try done; lia.
    + eexists (brk s), _, _. rewrite from_malloc by done.
      split; [reflexivity|]. unfold pool_ok. simpl.
      repeat split; try done; try lia.
      right. left. repeat split; try done; lia.
Qed.

(** C5.  On every freelist, [do_item_from_freelist] takes away and returns
    the last buffer of the list when there is one, which is the buffer
    released most recently: a buffer just accepted by
    [do_item_add_to_freelist] is the next one handed out, and the list is
    then what it was before.  On an empty list it returns a fresh block of
    [item_buf_size] bytes set to zero, or NULL when malloc fails, and then
    heap and freelist are unchanged. *)
Theorem do_item_from_freelist_lifo (s : state) :
  pool_ok s → 0 < brk s →
  ∃ p s',
    do_item_from_freelist s = Ok p s' ∧
    (0 < freeitemcurr s →
       pool s = pool s' ++ [p] ∧ heap s' = heap s ∧
       trace s' = trace s ++ [EPop p]) ∧
    (freeitemcurr s = 0 → next_mem_fails s = false →
       p ≠ NULL ∧ p = brk s ∧
       heap s' = <[p := Block item_buf_size zero_item]> (heap s) ∧
       pool s' = pool s ∧
       trace s' = trace s ++ [EMalloc item_buf_size p]) ∧
    (freeitemcurr s = 0 → next_mem_fails s = true →
       p = NULL ∧ heap s' = heap s ∧ pool s' = pool s ∧
       freeitem s' = freeitem s ∧ freeitemtotal s' = freeitemtotal s ∧
       freeitemcurr s' = freeitemcurr s) ∧
    (∀ it s1, do_item_add_to_freelist it s = Ok 0 s1 →
       ∃ s2, do_item_from_freelist s1 = Ok it s2 ∧ pool s2 = pool s ∧
             heap s2 = heap s).
Proof.
  intros Hok Hbrk.
  destruct (from_freelist_cases s Hok Hbrk)
    as (p & s' & evs & Hrun & Htr & _ & Ha & Ht & _ & _ & Hcases).
  exists p, s'. split; [done|].
  assert (Hsame : freeitemcurr s' = freeitemcurr s → pool s' = pool s).
  { intros Hc. unfold pool. by rewrite Hc, Ha. }
  split; [intros Hpos | split; [intros Hz Hm | split; [intros Hz Hm|]]].
  - destruct Hcases as [(_ & -> & Hpool & _ & Hh & _)|[(? & _)|(? & _)]];
      [done | lia | lia].
  - destruct Hcases as [(? & _)|[(_ & _ & Hp & -> & Hh & _ & Hc' & _)|(_ & ? & _)]];
      [lia | | congruence].
    repeat split; try done.
    + unfold NULL. lia.
    + apply Hsame. lia.
  - destruct Hcases as [(? & _)|[(_ & ? & _)|(_ & _ & Hp & _ & Hh & _ & Hc' & _)]];
      [lia | congruence |].
    repeat split; try done; try lia. apply Hsame. lia.
  -   intros it s1 Hadd.
  destruct (add_to_freelist_cases it s Hok)
    as (r & s1' & evs1 & Hrun1 & _ & Hh1 & Hb1 & _ & Hok1 & Hc1).
  rewrite Hadd in Hrun1. injection Hrun1 as <- <-.
  destruct Hc1 as [(_ & Hpool1 & _)|(? & _)]; [|done].
  assert (0 < brk s1) as Hbrk1 by lia.
  destruct (from_freelist_cases s1 Hok1 Hbrk1)
    as (q & s2 & evs2 & Hrun2 & _ & _ & _ & _ & _ & _ & Hc2).
  assert (0 < freeitemcurr s1) as Hpos1.
  { destruct (Z.lt_ge_cases 0 (freeitemcurr s1)) as [|Hle]; [done|].
    exfalso. unfold pool in Hpool1 at 1.
    replace (Z.to_nat (freeitemcurr s1)) with 0%nat in Hpool1 by lia.
    simpl in Hpool1. by destruct (pool s). }
  destruct Hc2 as [(_ & _ & Hpool2 & _ & Hh2 & _)|[(? & _)|(? & _)]]; try lia.
  rewrite Hpool1 in Hpool2. apply app_inj_tail in Hpool2 as [-> ->].
  exists s2. repeat split; [done|congruence].
Qed.

(** ** Growth of the freelist *)

Lemma item_init_inv (s0 : state) :
  next_mem_fails s0 = false → 0 < brk s0 →
  ∃ s, item_init s0 = Ok tt s ∧ pool_inv s ∧
       freeitemtotal s = INIT_ITEM_FREELIST_LENGTH ∧ freeitemcurr s = 0.
Proof.
  intros Hmem Hbrk. destruct s0 as [h b a t c ms ds tr]; simpl in *.
  unfold item_init. unfold next_mem_fails in Hmem. simpl in Hmem.
  cbv beta iota zeta delta [bind set_freeitemtotal set_freeitemcurr mem_fails
    set_freeitem heap brk freeitem freeitemtotal freeitemcurr mem_script
    db_script trace].
  destruct ms as [|[] ms]; try done;
    (eexists; split; [reflexivity|]);
    unfold pool_inv, pool_ok;
    cbn [heap brk freeitem freeitemtotal freeitemcurr];
    rewrite length_replicate;
    unfold INIT_ITEM_FREELIST_LENGTH; repeat split; auto; lia.
Qed.

Lemma pool_step_inv (c : pool_call) (s : state) :
  pool_inv s → ∃ r s', pool_step c s = Ok r s' ∧ pool_inv s'.
Proof.
  intros (Hok & Hbrk & Htot). destruct c as [it|]; simpl.
  - destruct (add_to_freelist_cases it s Hok)
      as (r & s' & evs & Hrun & _ & _ & Hb & _ & Hok' & Hc).
    exists r, s'. split; [done|]. split; [done|]. split; [lia|].
    destruct (Z.lt_ge_cases (freeitemtotal s) MAX_ITEM_FREELIST_LENGTH) as [Hlt|Hge].
    + unfold MAX_ITEM_FREELIST_LENGTH in Hlt.
      destruct Hc as [(_ & _ & [(_ & Ht & _)|(_ & Ht & _)])|(_ & _ & Ht & _)]; lia.
    + destruct (Z.lt_ge_cases (freeitemcurr s) (freeitemtotal s)) as [Hroom|Hfull].
      * rewrite add_room in Hrun by done.
        injection Hrun as <- <-. simpl. done.
      * rewrite add_capped in Hrun by done. injection Hrun as <- <-. done.
  - destruct (from_freelist_cases s Hok Hbrk)
      as (p & s' & evs & Hrun & _ & _ & _ & Ht & Hok' & Hb & _).
    exists p, s'. split; [done|]. split; [done|]. split; [done|].
    by rewrite Ht.
Qed.

Lemma pool_run_inv (cs : list pool_call) : ∀ s,
  pool_inv s → ∃ s', pool_run cs s = Ok tt s' ∧ pool_inv s'.
Proof.
  induction cs as [|c cs IH]; intros s Hinv; simpl.
  - by exists s.
  - destruct (pool_step_inv c s Hinv) as (r & s1 & Hstep & Hinv1).
    destruct (IH s1 Hinv1) as (s' & Hrun & Hinv').
    exists s'. unfold bind. by rewrite Hstep.
Qed.

(** C6.  After [item_init] and any run of releases and acquisitions, with
    the memory requests failing or not as they may: the array has 500, 1000,
    2000 or 4000 slots, never more than [MAX_ITEM_FREELIST_LENGTH]; a
    release into a list with room appends; a release into a full list below
    the maximum asks [realloc] once for twice the size and, when granted,
    has exactly doubled the size, appends and returns 0; a release into a
    full list at the maximum returns 1 and changes nothing; a release whose
    [realloc] fails returns 1 with size and list unchanged. *)
Theorem do_item_add_to_freelist_growth (s0 : state) (cs : list pool_call) :
  next_mem_fails s0 = false → 0 < brk s0 →
  ∃ s,
    (item_init ;; pool_run cs) s0 = Ok tt s ∧
    (freeitemtotal s = 500 ∨ freeitemtotal s = 1000 ∨
     freeitemtotal s = 2000 ∨ freeitemtotal s = 4000) ∧
    freeitemtotal s ≤ MAX_ITEM_FREELIST_LENGTH ∧
    ∀ it,
      (freeitemcurr s < freeitemtotal s →
         ∃ s', do_item_add_to_freelist it s = Ok 0 s' ∧
               freeitemtotal s' = freeitemtotal s ∧
               pool s' = pool s ++ [it] ∧
               trace s' = trace s ++ [EPush it]) ∧
      (freeitemcurr s = freeitemtotal s →
       freeitemtotal s < MAX_ITEM_FREELIST_LENGTH →
       next_mem_fails s = false →
         ∃ s', do_item_add_to_freelist it s = Ok 0 s' ∧
               freeitemtotal s' = freeitemtotal s * 2 ∧
               freeitemtotal s' ≤ MAX_ITEM_FREELIST_LENGTH ∧
               pool s' = pool s ++ [it] ∧
               trace s' = trace s ++
                 [ERealloc (freeitemtotal s * 2) true; EPush it]) ∧
      (freeitemcurr s = freeitemtotal s →
       MAX_ITEM_FREELIST_LENGTH ≤ freeitemtotal s →
         do_item_add_to_freelist it s = Ok 1 s) ∧
      (freeitemcurr s = freeitemtotal s →
       freeitemtotal s < MAX_ITEM_FREELIST_LENGTH →
       next_mem_fails s = true →
         ∃ s', do_item_add_to_freelist it s = Ok 1 s' ∧
               freeitemtotal s' = freeitemtotal s ∧
               freeitem s' = freeitem s ∧
               freeitemcurr s' = freeitemcurr s ∧
               pool s' = pool s ∧ heap s' = heap s).
Proof.
  intros Hmem Hbrk.
  destruct (item_init_inv s0 Hmem Hbrk) as (s1 & Hinit & Hinv1 & _).
  destruct (pool_run_inv cs s1 Hinv1) as (s & Hrun & Hok & _ & Htot).
  exists s. split; [unfold bind; by rewrite Hinit|].
  split; [done|]. split; [unfold MAX_ITEM_FREELIST_LENGTH; lia|].
  intros it. pose proof Hok as (Hlen & Hpos & Hcur).
  split; [intros Hroom | split; [intros Hfull Hlt Hm | split;
    [intros Hfull Hmax | intros Hfull Hlt Hm]]].
  - eexists. rewrite add_room by done. split; [reflexivity|].
    unfold pool. simpl. repeat split.
    replace (Z.to_nat (freeitemcurr s + 1)) with (S (Z.to_nat (freeitemcurr s))) by lia.
    apply pool_snoc. lia.
  - eexists. rewrite add_grown by (done || lia). split; [reflexivity|].
    unfold pool. simpl. repeat split.
    + unfold MAX_ITEM_FREELIST_LENGTH in *. lia.
    + replace (Z.to_nat (freeitemcurr s + 1)) with (S (Z.to_nat (freeitemcurr s))) by lia.
      rewrite pool_snoc by (rewrite length_app, length_replicate; lia).
      f_equal. by rewrite take_app_le by lia.
  - apply add_capped; lia.
  - eexists. rewrite add_refused by (done || lia). split; [reflexivity|].
    unfold pool. simpl. done.
Qed.

(** ** Well-formed states *)

Lemma wfb_sound (s : state) : wfb s = true → wf s.
Proof.
  unfold wfb, wf, pool_ok. rewrite !andb_true_iff.
  intros [[[[[[[Hlen Ht] Hc0] Hc1] Hb] Hnd] Hlive] Hheap].
  apply bool_decide_eq_true in Hlen, Hnd.
  apply Z.ltb_lt in Ht, Hb. apply Z.leb_le in Hc0, Hc1.
  rewrite forallb_forall in Hlive, Hheap.
  repeat (split; [done || lia|]). split.
  - intros p Hp. apply list_elem_of_In in Hp.
    by apply Hlive, bool_decide_eq_true in Hp.
  - intros p b Hpb. apply elem_of_map_to_list, list_elem_of_In in Hpb.
    apply Hheap in Hpb. simpl in Hpb. rewrite !andb_true_iff in Hpb.
    destruct Hpb as [[H1 H2] H3].
    apply Z.ltb_lt in H1, H2. apply Z.leb_le in H3. lia.
Qed.

Lemma wf_frame (s s' : state) :
  wf s → pool_ok s' → pool s' = pool s → heap s' = heap s → brk s' = brk s →
  wf s'.
Proof.
  intros (_ & Hb & Hnd & Hlive & Hheap) Hok Hp Hh Hbrk.
  unfold wf. rewrite Hp, Hh, Hbrk. done.
Qed.

Lemma wf_push (s s' : state) (it : Z) :
  wf s → held s it → pool_ok s' → pool s' = pool s ++ [it] →
  heap s' = heap s → brk s' = brk s → wf s'.
Proof.
  intros (_ & Hb & Hnd & Hlive & Hheap) [Hit Hout] Hok Hp Hh Hbrk.
  unfold wf. rewrite Hp, Hh, Hbrk.
  split; [done|]. split; [done|]. split; [|split; [|done]].
  - apply NoDup_app. split; [done|]. split; [|apply NoDup_singleton].
    intros x Hx Hx'. apply list_elem_of_singleton in Hx'. by subst.
  - intros q Hq. apply elem_of_app in Hq as [Hq|Hq]; [by apply Hlive|].
    apply list_elem_of_singleton in Hq. by subst.
Qed.

Lemma wf_free (s s' : state) (it : Z) :
  wf s → it ∉ pool s → pool_ok s' → pool s' = pool s →
  heap s' = delete it (heap s) → brk s' = brk s → wf s'.
Proof.
  intros (_ & Hb & Hnd & Hlive & Hheap) Hout Hok Hp Hh Hbrk.
  unfold wf. rewrite Hp, Hh, Hbrk.
  split; [done|]. split; [done|]. split; [done|]. split.
  - intros q Hq. rewrite lookup_delete_ne; [by apply Hlive|].
    intros ->. done.
  - intros q b Hq. apply lookup_delete_Some in Hq as [_ Hq]. by apply Hheap.
Qed.

Lemma wf_pop (s s' : state) (p : Z) :
  wf s → pool_ok s' → pool s = pool s' ++ [p] →
  heap s' = heap s → brk s' = brk s → wf s' ∧ held s' p ∧ p ≠ NULL.
Proof.
  intros (_ & Hb & Hnd & Hlive & Hheap) Hok Hp Hh Hbrk.
  rewrite Hp in Hnd, Hlive. apply NoDup_app in Hnd as (Hnd & Hdis & _).
  assert (is_Some (heap s !! p)) as Hin.
  { apply Hlive, elem_of_app. right. by apply list_elem_of_singleton. }
  unfold wf, held. rewrite Hh, Hbrk.
  split; [|split; [split|]].
  - split; [done|]. split; [done|]. split; [done|]. split; [|done].
    intros q Hq. apply Hlive, elem_of_app. by left.
  - done.
  - intros Hq. apply (Hdis p Hq). by apply list_elem_of_singleton.
  - destruct Hin as [b Hb']. apply Hheap in Hb'. unfold NULL. lia.
Qed.

Lemma wf_malloc (s s' : state) (n : Z) (i : item) :
  wf s → pool_ok s' → pool s' = pool s →
  heap s' = <[brk s := Block n i]> (heap s) → brk s' = brk s + 1 →
  item_buf_size ≤ n →
  wf s' ∧ held s' (brk s) ∧ brk s ≠ NULL ∧ heap s !! brk s = None.
Proof.
  intros (_ & Hb & Hnd & Hlive & Hheap) Hok Hp Hh Hbrk Hn.
  assert (heap s !! brk s = None) as Hfresh.
  { destruct (heap s !! brk s) as [b|] eqn:Hl; [|done].
    apply Hheap in Hl. lia. }
  unfold wf, held. rewrite Hp, Hh, Hbrk.
  split; [|split; [split|split; [unfold NULL; lia | done]]].
  - split; [done|]. split; [lia|]. split; [done|]. split.
    + intros q Hq. destruct (decide (brk s = q)) as [->|Hne].
      * rewrite lookup_insert_eq. eauto.
      * rewrite lookup_insert_ne by done. by apply Hlive.
    + intros q b Hq. apply lookup_insert_Some in Hq as [[<- <-]|[_ Hq]].
      * simpl. lia.
      * apply Hheap in Hq. lia.
  - rewrite lookup_insert_eq. eauto.
  - intros Hq. apply Hlive in Hq as [b Hq]. congruence.
Qed.

Lemma wf_store (s s' : state) (p : Z) (b : block) (i : item) :
  wf s → heap s !! p = Some b → pool_ok s' → pool s' = pool s →
  heap s' = <[p := Block (blk_cap b) i]> (heap s) → brk s' = brk s →
  wf s' ∧ (held s p → held s' p).
Proof.
  intros (_ & Hb & Hnd & Hlive & Hheap) Hl Hok Hp Hh Hbrk.
  unfold wf, held. rewrite Hp, Hh, Hbrk. split.
  - split; [done|]. split; [done|]. split; [done|]. split.
    + intros q Hq. destruct (decide (p = q)) as [->|Hne].
      * rewrite lookup_insert_eq. eauto.
      * rewrite lookup_insert_ne by done. by apply Hlive.
    + intros q b' Hq. apply lookup_insert_Some in Hq as [[<- <-]|[_ Hq]];
        [by apply Hheap in Hl | by apply Hheap in Hq].
  - intros [_ Hout]. split; [|done]. rewrite lookup_insert_eq. eauto.
Qed.

(** ** The primitives on a state *)

Lemma bind_Ok {A B} (c : M A) (k : A → M B) (s s1 : state) (a : A) :
  c s = Ok a s1 → bind c k s = k a s1.
Proof. intros H. unfold bind. by rewrite H. Qed.

Lemma load_Ok (p : Z) (s : state) (b : block) :
  heap s !! p = Some b → load p s = Ok (blk_item b) s.
Proof. intros H. unfold load, bind, gets, pure. by rewrite H. Qed.

Lemma free_Ok (p : Z) (s : state) (b : block) :
  heap s !! p = Some b →
  free p s = Ok tt (State (delete p (heap s)) (brk s) (freeitem s)
                          (freeitemtotal s) (freeitemcurr s) (mem_script s)
                          (db_script s) (trace s ++ [EFree p])).
Proof.
  intros H. destruct s as [h b' a t c ms ds tr]; simpl in *.
  unfold free. mrun. rewrite H. by mrun.
Qed.

Lemma store_Ok (p : Z) (f : item → item) (s : state) (b : block) :
  heap s !! p = Some b →
  store p f s =
    Ok tt (State (<[p := Block (blk_cap b) (f (blk_item b))]> (heap s))
                 (brk s) (freeitem s) (freeitemtotal s) (freeitemcurr s)
                 (mem_script s) (db_script s) (trace s)).
Proof.
  intros H. destruct s as [h b' a t c ms ds tr]; simpl in *.
  unfold store. mrun. rewrite H. by mrun.
Qed.

Lemma memset0_Ok (p : Z) (s : state) (b : block) :
  heap s !! p = Some b →
  memset0 p s =
    Ok tt (State (<[p := Block (blk_cap b) zero_item]> (heap s))
                 (brk s) (freeitem s) (freeitemtotal s) (freeitemcurr s)
                 (mem_script s) (db_script s) (trace s)).
Proof.
  intros H. destruct s as [h b' a t c ms ds tr]; simpl in *.
  unfold memset0. mrun. rewrite H. by mrun.
Qed.

Lemma malloc_Ok (n : Z) (s : state) :
  next_mem_fails s = false →
  malloc n s =
    Ok (brk s) (State (<[brk s := Block n junk]> (heap s)) (brk s + 1)
                      (freeitem s) (freeitemtotal s) (freeitemcurr s)
                      (tail (mem_script s)) (db_script s)
                      (trace s ++ [EMalloc n (brk s)])).
Proof.
  intros H. destruct s as [h b' a t c ms ds tr].
  unfold next_mem_fails in H. simpl in *. unfold malloc. mrun.
  destruct ms as [|[] ms]; done.
Qed.

Lemma malloc_failed (n : Z) (s : state) :
  next_mem_fails s = true →
  malloc n s =
    Ok NULL (State (heap s) (brk s) (freeitem s) (freeitemtotal s)
                   (freeitemcurr s) (tail (mem_script s)) (db_script s)
                   (trace s ++ [EMalloc n NULL])).
Proof.
  intros H. destruct s as [h b' a t c ms ds tr].
  unfold next_mem_fails in H. simpl in *. unfold malloc. mrun.
  destruct ms as [|[] ms]; done.
Qed.

(** ** [item_free] *)

(** On a buffer held by the caller [item_free] never faults and returns 0;
    the buffer goes to the freelist, or to [free] when its record is larger
    than [item_buf_size] or the freelist refused it. *)
Lemma item_free_cases (it : Z) (s : state) :
  wf s → held s it →
  ∃ s' evs b,
    heap s !! it = Some b ∧
    item_free it s = Ok 0 s' ∧
    trace s' = trace s ++ evs ∧
    db_script s' = db_script s ∧ brk s' = brk s ∧
    (mem_script s = [] → mem_script s' = []) ∧
    wf s' ∧
    ((ITEM_ntotal (blk_item b) ≤ item_buf_size ∧
      value (item_add_to_freelist it s) = Some 0 ∧
      pool s' = pool s ++ [it] ∧ heap s' = heap s ∧
      (evs = [EPush it] ∨
       evs = [ERealloc (freeitemtotal s * 2) true; EPush it])) ∨
     (ITEM_ntotal (blk_item b) ≤ item_buf_size ∧
      value (item_add_to_freelist it s) = Some 1 ∧
      pool s' = pool s ∧ heap s' = delete it (heap s) ∧
      (evs = [EFree it] ∨
       evs = [ERealloc (freeitemtotal s * 2) false; EFree it])) ∨
     (item_buf_size < ITEM_ntotal (blk_item b) ∧
      pool s' = pool s ∧ heap s' = delete it (heap s) ∧
      freeitem s' = freeitem s ∧ freeitemtotal s' = freeitemtotal s ∧
      freeitemcurr s' = freeitemcurr s ∧ mem_script s' = mem_script s ∧
      evs = [EFree it])).
Proof.
  intros Hwf Hheld. pose proof Hwf as (Hok & Hbrk & Hnd & Hlive & Hheap).
  pose proof Hheld as [[b Hb] Hout].
  assert ((it =? NULL) = false) as Hnn.
  { apply Z.eqb_neq. apply Hheap in Hb. unfold NULL. lia. }
  unfold item_free. rewrite Hnn. rewrite (bind_Ok _ _ _ _ _ (load_Ok _ _ _ Hb)).
  cbv zeta.
  destruct (item_buf_size <? ITEM_ntotal (blk_item b)) eqn:Hbig;
    [apply Z.ltb_lt in Hbig | apply Z.ltb_ge in Hbig].
  - rewrite (bind_Ok _ _ _ _ _ (free_Ok _ _ _ Hb)).
    eexists _, [EFree it], b. split; [done|]. split; [reflexivity|].
    simpl. split; [done|]. split; [done|]. split; [done|]. split; [done|].
    split; [|right; right; done].
    apply (wf_free s _ it); done.
  - unfold item_add_to_freelist.
    destruct (add_to_freelist_cases it s Hok)
      as (r & s1 & evs & Hrun & Htr & Hh & Hb1 & Hdb & Hok1 & Hc).
    rewrite (bind_Ok _ _ _ _ _ Hrun). rewrite Hrun. simpl.
    destruct Hc as [(-> & Hpool & Hev)|(-> & Hpool & Htot & Hev)]; simpl.
    + exists s1, evs, b. split; [done|]. split; [reflexivity|].
      split; [done|]. split; [done|]. split; [done|]. split.
      { intros Hms. destruct Hev as [(_ & _ & ->)|(_ & _ & ->)]; by rewrite ?Hms. }
      split; [by apply (wf_push s s1 it)|].
      left. split; [done|]. split; [done|]. split; [done|]. split; [done|].
      destruct Hev as [(-> & _)|(-> & _)]; auto.
    + assert (heap s1 !! it = Some b) as Hb' by (by rewrite Hh).
      rewrite (bind_Ok _ _ _ _ _ (free_Ok _ _ _ Hb')).
      eexists _, (evs ++ [EFree it]), b. split; [done|]. split; [reflexivity|].
      simpl. rewrite Htr, <- app_assoc.
      split; [done|]. split; [done|]. split; [done|]. split.
      { intros Hms. destruct Hev as [(_ & ->)|(_ & ->)]; by rewrite ?Hms. }
      split.
      { apply (wf_free s _ it); try done; simpl; by rewrite ?Hh. }
      right. left. split; [done|]. split; [done|]. split; [done|].
      split; [by rewrite Hh|].
      destruct Hev as [(-> & _)|(-> & _)]; auto.
Qed.

(** C7.  [item_free] on NULL does nothing and returns 0.  On a record held
    by the caller it takes the total size from the record's own header
    ([ITEM_ntotal]); when that is at most [item_buf_size] it offers the
    buffer to the freelist and calls [free] only if the freelist refuses;
    when it is larger it calls [free] and leaves the freelist alone.  It
    always returns 0 and never faults, the buffer is given back exactly
    once, and afterwards it is either in the freelist and live, or out of
    the freelist and freed. *)
Theorem item_free_releases (it : Z) (s : state) :
  wf s → it = NULL ∨ held s it →
  ∃ s',
    item_free it s = Ok 0 s' ∧
    (it = NULL → s' = s) ∧
    (∀ b, it ≠ NULL → heap s !! it = Some b →
       ∃ evs,
         trace s' = trace s ++ evs ∧
         released evs = [it] ∧
         (item_buf_size < ITEM_ntotal (blk_item b) →
            evs = [EFree it] ∧ heap s' = delete it (heap s) ∧
            freeitem s' = freeitem s ∧ freeitemtotal s' = freeitemtotal s ∧
            freeitemcurr s' = freeitemcurr s) ∧
         (ITEM_ntotal (blk_item b) ≤ item_buf_size →
            (value (item_add_to_freelist it s) = Some 0 ∧
             pool s' = pool s ++ [it] ∧ heap s' = heap s) ∨
            (value (item_add_to_freelist it s) = Some 1 ∧
             pool s' = pool s ∧ heap s' = delete it (heap s))) ∧
         ((it ∈ pool s' ∧ heap s' !! it = Some b) ∨
          ((it ∉ pool s') ∧ heap s' !! it = None))).
Proof.
  intros Hwf [->|Hheld].
  - exists s. split; [done|]. split; [done|]. intros b Hnn. done.
  - destruct (item_free_cases it s Hwf Hheld)
      as (s' & evs & b & Hb & Hrun & Htr & _ & _ & _ & _ & Hc).
    exists s'. split; [done|]. split.
    { intros ->. destruct Hwf as (_ & _ & _ & _ & Hheap).
      apply Hheap in Hb. unfold NULL in Hb. lia. }
    intros b' _ Hb'. rewrite Hb in Hb'. injection Hb' as <-.
    destruct Hheld as [_ Hout].
    exists evs. split; [done|].
    destruct Hc as [(Hsz & Hv & Hp & Hh & Hev)|[(Hsz & Hv & Hp & Hh & Hev)|
      (Hsz & Hp & Hh & Ha & Ht & Hcur & _ & ->)]].
    + split; [by destruct Hev as [->| ->]|].
      split; [lia|]. split; [by left|].
      left. split; [|by rewrite Hh]. rewrite Hp. apply elem_of_app. right.
      by apply list_elem_of_singleton.
    + split; [by destruct Hev as [->| ->]|].
      split; [lia|]. split; [by right|].
      right. split; [by rewrite Hp|]. rewrite Hh. apply lookup_delete_eq.
    + split; [done|]. split; [done|]. split; [lia|].
      right. split; [by rewrite Hp|]. rewrite Hh. apply lookup_delete_eq.
Qed.

(** ** [item_alloc2] *)

(** [item_alloc2] never faults.  It returns NULL when malloc fails, and
    otherwise a buffer held by the caller: a fresh zeroed block of [ntotal]
    bytes when [ntotal] is above [item_buf_size], else the last buffer of
    the freelist or, the list being empty, a fresh zeroed block of
    [item_buf_size] bytes. *)
Lemma item_alloc2_cases (ntotal : Z) (s : state) :
  wf s →
  ∃ it s' evs,
    item_alloc2 ntotal s = Ok it s' ∧
    trace s' = trace s ++ evs ∧
    db_script s' = db_script s ∧
    wf s' ∧
    (mem_script s = [] → mem_script s' = [] ∧ it ≠ NULL) ∧
    ((it = NULL ∧ next_mem_fails s = true ∧ (∃ m, evs = [EMalloc m NULL]) ∧
      heap s' = heap s ∧ pool s' = pool s) ∨
     (it ≠ NULL ∧ held s' it ∧
      ((item_buf_size < ntotal ∧ evs = [EMalloc ntotal it] ∧
        heap s !! it = None ∧ pool s' = pool s ∧
        heap s' = <[it := Block ntotal zero_item]> (heap s)) ∨
       (ntotal ≤ item_buf_size ∧ evs = [EMalloc item_buf_size it] ∧
        heap s !! it = None ∧ pool s' = pool s ∧
        heap s' = <[it := Block item_buf_size zero_item]> (heap s)) ∨
       (ntotal ≤ item_buf_size ∧ evs = [EPop it] ∧
        pool s = pool s' ++ [it] ∧ heap s' = heap s)))).
Proof.
  intros Hwf. pose proof Hwf as (Hok & Hbrk & Hnd & Hlive & Hheap).
  unfold item_alloc2.
  destruct (item_buf_size <? ntotal) eqn:Hbig;
    [apply Z.ltb_lt in Hbig | apply Z.ltb_ge in Hbig].
  - destruct (next_mem_fails s) eqn:Hmem.
    + rewrite (bind_Ok _ _ _ _ _ (malloc_failed ntotal s Hmem)). simpl.
      eexists NULL, _, _. split; [reflexivity|]. simpl.
      split; [done|]. split; [done|]. split; [by apply (wf_frame s)|].
      split. { intros Hms. unfold next_mem_fails in Hmem. by rewrite Hms in Hmem. }
      left. split; [done|]. split; [done|]. split; [by eexists|]. done.
    + rewrite (bind_Ok _ _ _ _ _ (malloc_Ok ntotal s Hmem)).
      assert ((brk s =? NULL) = false) as ->
        by (apply Z.eqb_neq; unfold NULL; lia).
      erewrite bind_Ok; [|apply (memset0_Ok _ _ (Block ntotal junk));
                           simpl; apply lookup_insert_eq].
      simpl. rewrite insert_insert_eq.
      match goal with |- ∃ _ _ _, pure _ ?st = _ ∧ _ => set (s1 := st) end.
      destruct (wf_malloc s s1 ntotal zero_item Hwf)
        as (Hwf' & Hheld' & Hnn & Hfresh);
        [exact Hok | reflexivity | reflexivity | reflexivity | lia |].
      exists (brk s), s1, [EMalloc ntotal (brk s)]. split; [done|].
      split; [done|]. split; [done|]. split; [done|]. split.
      { intros Hms. subst s1. simpl. by rewrite Hms. }
      right. split; [done|]. split; [done|]. left. done.
  - unfold item_from_freelist.
    destruct (from_freelist_cases s Hok Hbrk)
      as (p & s1 & evs & Hrun & Htr & Hdb & Ha & Ht & Hok1 & Hbrk1 & Hc).
    rewrite (bind_Ok _ _ _ _ _ Hrun).
    destruct Hc as [(Hpos & -> & Hpool & Hcur & Hh & Hb1 & Hms)|
      [(Hz & Hmem & -> & -> & Hh & Hb1 & Hcur & Hms)|
       (Hz & Hmem & -> & -> & Hh & Hb1 & Hcur & Hms)]].
    + destruct (wf_pop s s1 p Hwf Hok1 Hpool Hh Hb1) as (Hwf1 & Hheld1 & Hnn).
      rewrite (proj2 (Z.eqb_neq p NULL) Hnn).
      exists p, s1, [EPop p]. split; [done|].
      split; [done|]. split; [done|]. split; [done|]. split.
      { intros Hms'. by rewrite Hms. }
      right. split; [done|]. split; [done|]. right. right. done.
    + assert (pool s1 = pool s) as Hpool.
      { unfold pool. by rewrite Ha, Hcur, Hz. }
      destruct (wf_malloc s s1 item_buf_size zero_item Hwf Hok1 Hpool Hh Hb1)
        as (Hwf1 & Hheld1 & Hnn & Hfresh); [lia|].
      rewrite (proj2 (Z.eqb_neq (brk s) NULL) Hnn).
      exists (brk s), s1, [EMalloc item_buf_size (brk s)]. split; [done|].
      split; [done|]. split; [done|]. split; [done|]. split.
      { intros Hms'. rewrite Hms, Hms'. done. }
      right. split; [done|]. split; [done|]. right. left. done.
    + assert (pool s1 = pool s) as Hpool.
      { unfold pool. by rewrite Ha, Hcur, Hz. }
      simpl. exists NULL, s1, [EMalloc item_buf_size NULL]. split; [done|].
      split; [done|]. split; [done|]. split; [by apply (wf_frame s)|]. split.
      { intros Hms'. unfold next_mem_fails in Hmem. by rewrite Hms' in Hmem. }
      left. split; [done|]. split; [done|]. split; [by eexists|]. done.
Qed.

(** ** Events of release and allocation *)

Lemma audit_app (h : option Z) (evs1 evs2 : list event) :
  audit h (evs1 ++ evs2) =
    match audit h evs1 with
    | Some h' => audit h' evs2
    | None => None
    end.
Proof.
  revert h. induction evs1 as [|e evs1 IH]; intros h; simpl; [done|].
  destruct e; try apply IH.
  - destruct (p =? NULL); [apply IH|]. destruct h; [done | apply IH].
  - destruct h as [q|]; [|done]. destruct (p =? q); [apply IH | done].
  - destruct h as [q|]; [|done]. destruct (p =? q); [apply IH | done].
  - destruct h; [done | apply IH].
  - destruct h as [q|]; [|done]. destruct (buf =? q); [apply IH | done].
Qed.

Lemma audit_app_Some (h h' : option Z) (evs1 evs2 : list event) :
  audit h evs1 = Some h' → audit h (evs1 ++ evs2) = audit h' evs2.
Proof. intros H. by rewrite audit_app, H. Qed.

Lemma free_shape_facts (it : Z) (evs : list event) :
  free_shape it evs →
  audit (Some it) evs = Some None ∧ released evs = [it] ∧
  acquired evs = [] ∧ mallocs evs = [] ∧ db_gets evs = [].
Proof.
  intros [->|[[m ->]|[->|[m ->]]]]; simpl; rewrite Z.eqb_refl; done.
Qed.

Lemma alloc_shape_facts (it : Z) (evs : list event) :
  alloc_shape it evs →
  audit None evs = Some (if it =? NULL then None else Some it) ∧
  released evs = [] ∧
  acquired evs = (if it =? NULL then [] else [it]) ∧ db_gets evs = [].
Proof.
  intros [[-> [m ->]]|[Hnn [->|[n ->]]]]; simpl; try done;
    apply Z.eqb_neq in Hnn; rewrite Hnn; done.
Qed.

Lemma item_free_held (it : Z) (s : state) :
  wf s → held s it →
  ∃ s' evs,
    item_free it s = Ok 0 s' ∧
    trace s' = trace s ++ evs ∧
    db_script s' = db_script s ∧
    (mem_script s = [] → mem_script s' = []) ∧
    wf s' ∧ free_shape it evs.
Proof.
  intros Hwf Hheld.
  destruct (item_free_cases it s Hwf Hheld)
    as (s' & evs & b & _ & Hrun & Htr & Hdb & _ & Hms & Hwf' & Hc).
  exists s', evs. repeat (split; [done|]). unfold free_shape.
  destruct Hc as [(_ & _ & _ & _ & [->| ->])|[(_ & _ & _ & _ & [->| ->])|
    (_ & _ & _ & _ & _ & _ & _ & ->)]]; eauto 6.
Qed.

Lemma item_alloc2_held (ntotal : Z) (s : state) :
  wf s →
  ∃ it s' evs,
    item_alloc2 ntotal s = Ok it s' ∧
    trace s' = trace s ++ evs ∧
    db_script s' = db_script s ∧
    (mem_script s = [] → mem_script s' = [] ∧ it ≠ NULL) ∧
    wf s' ∧ alloc_shape it evs ∧
    (it ≠ NULL →
       held s' it ∧
       (item_buf_size < ntotal →
          evs = [EMalloc ntotal it] ∧
          heap s' !! it = Some (Block ntotal zero_item))).
Proof.
  intros Hwf.
  destruct (item_alloc2_cases ntotal s Hwf)
    as (it & s' & evs & Hrun & Htr & Hdb & Hwf' & Hms & Hc).
  exists it, s', evs. repeat (split; [done|]). unfold alloc_shape.
  destruct Hc as [(-> & _ & Hev & _)|(Hnn & Hheld & Hc)].
  - split; [by left|]. done.
  - destruct Hc as [(Hsz & -> & _ & _ & Hh)|[(Hsz & -> & _)|(Hsz & -> & _)]].
    + split; [right; eauto|]. intros _. split; [done|]. intros _.
      split; [done|]. rewrite Hh. apply lookup_insert_eq.
    + split; [right; eauto|]. intros _. split; [done|]. lia.
    + split; [right; eauto|]. intros _. split; [done|]. lia.
Qed.

(** ** One store read *)

Lemma dbp_get_held (key : string) (nkey : Z) (it ulen : Z) (s : state) (r : db_reply)
    (rest : list db_reply) :
  wf s → held s it → db_script s = r :: rest →
  ∃ s' b,
    dbp_get key nkey it ulen s = Ok (rep_ret r, rep_size r) s' ∧
    trace s' = trace s ++ [EDbGet key nkey it ulen (rep_ret r)] ∧
    db_script s' = rest ∧ mem_script s' = mem_script s ∧
    wf s' ∧ held s' it ∧
    heap s !! it = Some b ∧
    heap s' !! it = Some (Block (blk_cap b)
                                (default (blk_item b) (rep_data r))).
Proof.
  intros Hwf Hheld Hs. pose proof Hheld as [[b Hb] Hout].
  destruct s as [h b' a t c ms ds tr]; simpl in *. subst ds.
  unfold dbp_get. mrun. destruct (rep_data r) as [i|] eqn:Hd.
  - rewrite (store_Ok it _ _ b) by done. mrun.
    eexists _, b. split; [reflexivity|]. simpl.
    split; [done|]. split; [done|]. split; [done|].
    match goal with |- wf ?st ∧ _ => set (s1 := st) end.
    destruct (wf_store _ s1 it b i Hwf Hb) as [Hwf1 Hheld1];
      [apply Hwf | reflexivity | reflexivity | reflexivity |].
    split; [done|]. split; [by apply Hheld1|]. split; [done|].
    subst s1. simpl. apply lookup_insert_eq.
  - mrun. eexists _, b. split; [reflexivity|]. simpl.
    split; [done|]. split; [done|]. split; [done|].
    split; [by apply (wf_frame _ _ Hwf); try done; apply Hwf|].
    split; [done|]. split; [done|]. by destruct b.
Qed.

(** ** The loop of [item_get] *)

Lemma held_not_null (s : state) (it : Z) : wf s → held s it → (it =? NULL) = false.
Proof.
  intros (_ & _ & _ & _ & Hheap) [[b Hb] _]. apply Z.eqb_neq.
  apply Hheap in Hb. unfold NULL. lia.
Qed.

Lemma audit_get (key : string) (nkey : Z) (it ulen r : Z) :
  audit (Some it) [EDbGet key nkey it ulen r] = Some (Some it).
Proof. simpl. by rewrite Z.eqb_refl. Qed.

(** From any turn of the loop on, holding [it]: the loop ends, the
    ownership check passes on what it does, and what it returns is NULL or
    a buffer still held. *)
Lemma item_get_loop_owned (key : string) (nkey : Z) (fuel : nat) :
  ∀ (s : state) (it ulen : Z),
    wf s → held s it →
    (length (db_script s) ≤ fuel)%nat →
    settles DB_BUFFER_SMALL (db_script s) →
    ∃ r s' evs,
      item_get_loop fuel key nkey it ulen s = Ok r s' ∧
      trace s' = trace s ++ evs ∧
      wf s' ∧
      audit (Some it) evs = Some (if r =? NULL then None else Some r) ∧
      (r ≠ NULL → held s' r ∧ released evs ++ [r] = it :: acquired evs) ∧
      (r = NULL → released evs = it :: acquired evs).
Proof.
  induction fuel as [|fuel IH]; intros s it ulen Hwf Hheld Hlen Hset.
  { destruct (db_script s); [by apply Exists_nil in Hset | simpl in Hlen; lia]. }
  destruct (db_script s) as [|r rest] eqn:Hs; [by apply Exists_nil in Hset|].
  destruct (dbp_get_held key nkey it ulen s r rest Hwf Hheld Hs)
    as (s1 & b & Hget & Htr1 & Hdb1 & _ & Hwf1 & Hheld1 & _).
  pose proof (held_not_null s it Hwf Hheld) as Hnn.
  simpl item_get_loop. rewrite (bind_Ok _ _ _ _ _ Hget). cbv zeta. cbn [fst snd].
  destruct (item_free_held it s1 Hwf1 Hheld1)
    as (s2 & evs2 & Hfree & Htr2 & Hdb2 & _ & Hwf2 & Hsh2).
  destruct (free_shape_facts it evs2 Hsh2) as (Hau2 & Hrel2 & Hacq2 & _).
  assert (Hnull : ∃ r' s' evs,
    (item_free it;; pure NULL) s1 = Ok r' s' ∧
    trace s' = trace s ++ evs ∧ wf s' ∧
    audit (Some it) evs = Some (if r' =? NULL then None else Some r') ∧
    (r' ≠ NULL → held s' r' ∧ released evs ++ [r'] = it :: acquired evs) ∧
    (r' = NULL → released evs = it :: acquired evs)).
  { exists NULL, s2, ([EDbGet key nkey it ulen (rep_ret r)] ++ evs2).
    rewrite (bind_Ok _ _ _ _ _ Hfree). split; [done|].
    split; [by rewrite Htr2, Htr1, <- app_assoc|]. split; [done|].
    split; [by rewrite (audit_app_Some _ _ _ _ (audit_get _ _ _ _ _))|].
    split; [done|]. intros _. simpl. by rewrite Hrel2, Hacq2. }
  destruct (rep_ret r =? DB_BUFFER_SMALL) eqn:Hsmall.
  - apply Z.eqb_eq in Hsmall.
    assert (settles DB_BUFFER_SMALL rest) as Hset'.
    { apply Exists_cons in Hset as [Hne|Hrest]; [done | done]. }
    rewrite (bind_Ok _ _ _ _ _ Hfree).
    destruct (item_alloc2_held (rep_size r) s2 Hwf2)
      as (it' & s3 & evs3 & Halloc & Htr3 & Hdb3 & _ & Hwf3 & Hsh3 & Hheld3).
    destruct (alloc_shape_facts it' evs3 Hsh3) as (Hau3 & Hrel3 & Hacq3 & _).
    rewrite (bind_Ok _ _ _ _ _ Halloc).
    destruct (it' =? NULL) eqn:Hnn'.
    + exists NULL, s3, ([EDbGet key nkey it ulen (rep_ret r)] ++ evs2 ++ evs3).
      split; [done|].
      split; [by rewrite Htr3, Htr2, Htr1, <- !app_assoc|]. split; [done|].
      split.
      { rewrite (audit_app_Some _ _ _ _ (audit_get _ _ _ _ _)).
        by rewrite (audit_app_Some _ _ _ _ Hau2), Hau3. }
      split; [done|].
      intros _. unfold released, acquired in *. simpl.
      rewrite !flat_map_app. by rewrite Hrel2, Hrel3, Hacq2, Hacq3.
    + apply Z.eqb_neq in Hnn'. destruct (Hheld3 Hnn') as [Hheld3' _].
      destruct (IH s3 it' (rep_size r) Hwf3 Hheld3')
        as (r' & s' & evs4 & Hloop & Htr4 & Hwf4 & Hau4 & Hret4 & Hnul4).
      { rewrite Hdb3, Hdb2, Hdb1. simpl in Hlen. lia. }
      { by rewrite Hdb3, Hdb2, Hdb1. }
      exists r', s', ([EDbGet key nkey it ulen (rep_ret r)] ++ evs2 ++ evs3 ++ evs4).
      split; [done|].
      split; [by rewrite Htr4, Htr3, Htr2, Htr1, <- !app_assoc|]. split; [done|].
      split.
      { rewrite (audit_app_Some _ _ _ _ (audit_get _ _ _ _ _)).
        rewrite (audit_app_Some _ _ _ _ Hau2).
        by rewrite (audit_app_Some _ _ _ _ Hau3). }
      unfold released, acquired in *. simpl. rewrite !flat_map_app.
      rewrite Hrel2, Hrel3, Hacq2, Hacq3. simpl. split.
      * intros Hr. destruct (Hret4 Hr) as [Hh Heq]. split; [done|].
        by rewrite Heq.
      * intros Hr. by rewrite (Hnul4 Hr).
  - destruct (rep_ret r =? 0).
    + exists it, s1, [EDbGet key nkey it ulen (rep_ret r)]. split; [done|].
      split; [done|]. split; [done|]. rewrite Hnn, audit_get.
      split; [done|]. split; [done|].
      intros ->. done.
    + destruct (rep_ret r =? DB_NOTFOUND); exact Hnull.
Qed.

(** ** [item_get] *)

(** ** The phases of [item_get] *)

Lemma get_phases_app (ph ph' : phase) (evs1 evs2 : list event) :
  get_phases ph evs1 = Some ph' →
  get_phases ph (evs1 ++ evs2) = get_phases ph' evs2.
Proof.
  revert ph. induction evs1 as [|e evs1 IH]; intros ph H; simpl in *.
  - by injection H as ->.
  - destruct (get_step ph e) as [ph1|]; [by apply IH | done].
Qed.

Lemma free_shape_phases (it : Z) (again : bool) (evs : list event) :
  free_shape it evs →
  get_phases (Releasing it again None) evs =
    Some (if again then Taking else Returned NULL).
Proof.
  intros [->|[[m ->]|[->|[m ->]]]]; simpl; by rewrite Z.eqb_refl.
Qed.

Lemma alloc_shape_phases (it : Z) (evs : list event) :
  alloc_shape it evs →
  get_phases Taking evs =
    Some (if it =? NULL then Returned NULL else Reading it).
Proof.
  intros [[-> [m ->]]|[Hnn [->|[n ->]]]]; simpl; try done;
    apply Z.eqb_neq in Hnn; by rewrite Hnn.
Qed.

Lemma read_phase (key : string) (nkey it ulen c : Z) (evs : list event) :
  get_phases (Reading it) (EDbGet key nkey it ulen c :: evs) =
    get_phases (if c =? DB_BUFFER_SMALL then Releasing it true None
                else if c =? 0 then Returned it
                else Releasing it false None) evs.
Proof. simpl. by rewrite Z.eqb_refl. Qed.

Lemma db_gets_app (evs1 evs2 : list event) :
  db_gets (evs1 ++ evs2) = db_gets evs1 ++ db_gets evs2.
Proof. unfold db_gets. by rewrite flat_map_app. Qed.

(** From any turn of the loop on, holding [it]: the loop uses up the
    answers of the store one per read, and what it does after each read is
    what the answer calls for. *)
Lemma item_get_loop_phases (key : string) (nkey : Z) (fuel : nat) :
  ∀ (s : state) (it ulen : Z),
    wf s → held s it →
    (length (db_script s) ≤ fuel)%nat →
    settles DB_BUFFER_SMALL (db_script s) →
    ∃ r s' evs used,
      item_get_loop fuel key nkey it ulen s = Ok r s' ∧
      trace s' = trace s ++ evs ∧
      db_script s = used ++ db_script s' ∧
      (db_gets evs).*2 = rep_ret <$> used ∧
      get_phases (Reading it) evs = Some (Returned r).
Proof.
  induction fuel as [|fuel IH]; intros s it ulen Hwf Hheld Hlen Hset.
  { destruct (db_script s); [by apply Exists_nil in Hset | simpl in Hlen; lia]. }
  destruct (db_script s) as [|r rest] eqn:Hs; [by apply Exists_nil in Hset|].
  destruct (dbp_get_held key nkey it ulen s r rest Hwf Hheld Hs)
    as (s1 & b & Hget & Htr1 & Hdb1 & _ & Hwf1 & Hheld1 & _).
  simpl item_get_loop. rewrite (bind_Ok _ _ _ _ _ Hget). cbv zeta. cbn [fst snd].
  destruct (item_free_held it s1 Hwf1 Hheld1)
    as (s2 & evs2 & Hfree & Htr2 & Hdb2 & _ & Hwf2 & Hsh2).
  destruct (free_shape_facts it evs2 Hsh2) as (_ & _ & _ & _ & Hg2).
  destruct (rep_ret r =? DB_BUFFER_SMALL) eqn:Hsmall.
  - assert (settles DB_BUFFER_SMALL rest) as Hset'.
    { apply Z.eqb_eq in Hsmall.
      apply Exists_cons in Hset as [Hne|Hrest]; [done | done]. }
    rewrite (bind_Ok _ _ _ _ _ Hfree).
    destruct (item_alloc2_held (rep_size r) s2 Hwf2)
      as (it' & s3 & evs3 & Halloc & Htr3 & Hdb3 & _ & Hwf3 & Hsh3 & Hheld3).
    destruct (alloc_shape_facts it' evs3 Hsh3) as (_ & _ & _ & Hg3).
    rewrite (bind_Ok _ _ _ _ _ Halloc).
    assert (get_phases (Reading it)
              ([EDbGet key nkey it ulen (rep_ret r)] ++ evs2 ++ evs3) =
            Some (if it' =? NULL then Returned NULL else Reading it')) as Hph.
    { cbn [app]. rewrite read_phase, Hsmall.
      rewrite (get_phases_app _ _ _ _ (free_shape_phases it true evs2 Hsh2)).
      by apply alloc_shape_phases. }
    destruct (it' =? NULL) eqn:Hnn'.
    + exists NULL, s3, ([EDbGet key nkey it ulen (rep_ret r)] ++ evs2 ++ evs3), [r].
      split; [done|].
      split; [by rewrite Htr3, Htr2, Htr1, <- !app_assoc|].
      split; [by rewrite Hdb3, Hdb2, Hdb1|].
      split; [by rewrite !db_gets_app, Hg2, Hg3|]. done.
    + apply Z.eqb_neq in Hnn'. destruct (Hheld3 Hnn') as [Hheld3' _].
      destruct (IH s3 it' (rep_size r) Hwf3 Hheld3')
        as (r' & s' & evs4 & used & Hloop & Htr4 & Hdb4 & Hg4 & Hph4).
      { rewrite Hdb3, Hdb2, Hdb1. simpl in Hlen. lia. }
      { by rewrite Hdb3, Hdb2, Hdb1. }
      exists r', s',
        (([EDbGet key nkey it ulen (rep_ret r)] ++ evs2 ++ evs3) ++ evs4),
        (r :: used).
      split; [done|].
      split; [by rewrite Htr4, Htr3, Htr2, Htr1, <- !app_assoc|].
      split. { rewrite Hdb3, Hdb2, Hdb1 in Hdb4. by rewrite Hdb4. }
      split.
      { rewrite !db_gets_app, Hg2, Hg3, !fmap_app, Hg4. reflexivity. }
      by rewrite (get_phases_app _ _ _ _ Hph).
  - destruct (rep_ret r =? 0) eqn:H0.
    + exists it, s1, [EDbGet key nkey it ulen (rep_ret r)], [r].
      split; [done|]. split; [done|]. split; [by rewrite Hdb1|].
      split; [done|]. by rewrite read_phase, Hsmall, H0.
    + exists NULL, s2, ([EDbGet key nkey it ulen (rep_ret r)] ++ evs2), [r].
      split. { destruct (rep_ret r =? DB_NOTFOUND);
                 by rewrite (bind_Ok _ _ _ _ _ Hfree). }
      split; [by rewrite Htr2, Htr1, <- app_assoc|].
      split; [by rewrite Hdb2, Hdb1|].
      split; [by rewrite db_gets_app, Hg2|].
      cbn [app]. rewrite read_phase, Hsmall, H0.
      by apply free_shape_phases.
Qed.

(** C2, as amended.  In every run of [item_get] whose store eventually
    answers something else than DB_BUFFER_SMALL, the operation holds at
    most one buffer at any time, every store read goes into the one buffer
    then held, and every release gives back exactly the buffer held (the
    check [audit] passes on the run).  Every read uses up one answer of the
    store, in order, and what
    follows a read is what that answer calls for ([get_phases]): after
    DB_BUFFER_SMALL the held buffer is released, once, and another one is
    taken (or [malloc] fails and NULL is returned); after 0 the held buffer
    is returned to the caller without any release, still live and outside
    the freelist; after DB_NOTFOUND or any other code the held buffer is
    released, once, and NULL is returned.  Each buffer taken is given back
    once, except the one returned. *)
Theorem item_get_ownership (key : string) (nkey : Z) (s : state) :
  wf s → settles DB_BUFFER_SMALL (db_script s) →
  ∃ r s' evs used,
    item_get key nkey s = Ok r s' ∧
    trace s' = trace s ++ evs ∧
    wf s' ∧
    db_script s = used ++ db_script s' ∧
    (db_gets evs).*2 = rep_ret <$> used ∧
    get_phases Taking evs = Some (Returned r) ∧
    audit None evs = Some (if r =? NULL then None else Some r) ∧
    (r ≠ NULL → held s' r ∧ released evs ++ [r] = acquired evs) ∧
    (r = NULL → released evs = acquired evs).
Proof.
  intros Hwf Hset. unfold item_get.
  destruct (item_alloc2_held item_buf_size s Hwf)
    as (it & s1 & evs1 & Halloc & Htr1 & Hdb1 & _ & Hwf1 & Hsh1 & Hheld1).
  destruct (alloc_shape_facts it evs1 Hsh1) as (Hau1 & Hrel1 & Hacq1 & Hg1).
  pose proof (alloc_shape_phases it evs1 Hsh1) as Hph1.
  rewrite (bind_Ok _ _ _ _ _ Halloc). change (it =? 0) with (it =? NULL).
  destruct (it =? NULL) eqn:Hnn.
  - exists NULL, s1, evs1, []. split; [done|]. split; [done|]. split; [done|].
    split; [by rewrite Hdb1|]. split; [by rewrite Hg1|].
    split; [done|]. split; [done|]. split; [done|].
    intros _. by rewrite Hrel1, Hacq1.
  - apply Z.eqb_neq in Hnn. destruct (Hheld1 Hnn) as [Hheld _].
    unfold bind at 1. unfold gets at 1.
    destruct (item_get_loop_owned key nkey (length (db_script s1)) s1 it
                (uint32_t item_buf_size) Hwf1 Hheld)
      as (r & s' & evs & Hloop & Htr & Hwf' & Hau & Hret & Hnul);
      [lia | by rewrite Hdb1 |].
    destruct (item_get_loop_phases key nkey (length (db_script s1)) s1 it
                (uint32_t item_buf_size) Hwf1 Hheld)
      as (r2 & s2 & evs2 & used & Hloop2 & Htr2 & Hdb2 & Hg2 & Hph2);
      [lia | by rewrite Hdb1 |].
    rewrite Hloop in Hloop2. injection Hloop2 as <- <-.
    rewrite Htr in Htr2. apply app_inv_head in Htr2 as <-.
    exists r, s', (evs1 ++ evs), used. split; [done|].
    split; [by rewrite Htr, Htr1, <- app_assoc|]. split; [done|].
    split; [by rewrite <- Hdb1|].
    split; [by rewrite db_gets_app, Hg1|].
    split; [by rewrite (get_phases_app _ _ _ _ Hph1)|].
    split; [by rewrite (audit_app_Some _ _ _ _ Hau1)|].
    unfold released, acquired in *. rewrite !flat_map_app, Hrel1, Hacq1.
    simpl. split.
    + intros Hr. by destruct (Hret Hr).
    + intros Hr. by apply Hnul.
Qed.

Lemma read_log_app (evs1 evs2 : list event) :
  read_log (evs1 ++ evs2) = read_log evs1 ++ read_log evs2.
Proof. unfold read_log, db_gets. by rewrite flat_map_app, map_app. Qed.

(** From any turn of the loop on, holding [it], against a store that
    answers DB_BUFFER_SMALL some times and then fails. *)
Lemma item_get_loop_fails (key : string) (nkey : Z) (smalls : list db_reply) :
  ∀ (fuel : nat) (s : state) (it ulen : Z) (r : db_reply) (rest : list db_reply),
    wf s → held s it →
    Forall (λ x, rep_ret x = DB_BUFFER_SMALL) smalls →
    db_script s = smalls ++ r :: rest →
    rep_ret r ≠ 0 → rep_ret r ≠ DB_BUFFER_SMALL →
    (length smalls < fuel)%nat →
    ∃ s' evs,
      item_get_loop fuel key nkey it ulen s = Ok NULL s' ∧
      trace s' = trace s ++ evs ∧
      released evs = it :: acquired evs ∧
      audit (Some it) evs = Some None ∧
      ((db_script s' = rest ∧
        read_log evs = zip (ulen :: map rep_size smalls)
                           (map rep_ret (smalls ++ [r])) ∧
        ∃ it' u evs0 evsf,
          evs = evs0 ++ [EDbGet key nkey it' u (rep_ret r)] ++ evsf ∧
          free_shape it' evsf) ∨
       (mem_script s ≠ [] ∧ ∃ m, last evs = Some (EMalloc m NULL))).
Proof.
  induction smalls as [|x smalls IH];
    intros fuel s it ulen r rest Hwf Hheld Hall Hs Hr0 Hrs Hfuel;
    (destruct fuel as [|fuel]; [simpl in Hfuel; lia|]).
  - simpl in Hs.
    destruct (dbp_get_held key nkey it ulen s r rest Hwf Hheld Hs)
      as (s1 & b & Hget & Htr1 & Hdb1 & _ & Hwf1 & Hheld1 & _).
    simpl item_get_loop. rewrite (bind_Ok _ _ _ _ _ Hget). cbv zeta. cbn [fst snd].
    rewrite (proj2 (Z.eqb_neq _ _) Hrs), (proj2 (Z.eqb_neq _ _) Hr0).
    destruct (item_free_held it s1 Hwf1 Hheld1)
      as (s2 & evs2 & Hfree & Htr2 & Hdb2 & _ & Hwf2 & Hsh2).
    destruct (free_shape_facts it evs2 Hsh2) as (Hau2 & Hrel2 & Hacq2 & _ & Hg2).
    exists s2, ([EDbGet key nkey it ulen (rep_ret r)] ++ evs2).
    split. { destruct (rep_ret r =? DB_NOTFOUND);
               by rewrite (bind_Ok _ _ _ _ _ Hfree). }
    split; [by rewrite Htr2, Htr1, <- app_assoc|].
    split; [simpl; by rewrite Hrel2, Hacq2|].
    split; [by rewrite (audit_app_Some _ _ _ _ (audit_get _ _ _ _ _))|].
    left. split; [by rewrite Hdb2, Hdb1|]. split.
    { rewrite read_log_app. unfold read_log at 2. by rewrite Hg2. }
    by exists it, ulen, [], evs2.
  - simpl in Hs. apply Forall_cons in Hall as [Hx Hall].
    destruct (dbp_get_held key nkey it ulen s x _ Hwf Hheld Hs)
      as (s1 & b & Hget & Htr1 & Hdb1 & Hm1 & Hwf1 & Hheld1 & _).
    simpl item_get_loop. rewrite (bind_Ok _ _ _ _ _ Hget). cbv zeta. cbn [fst snd].
    rewrite Hx, Z.eqb_refl.
    destruct (item_free_held it s1 Hwf1 Hheld1)
      as (s2 & evs2 & Hfree & Htr2 & Hdb2 & Hm2 & Hwf2 & Hsh2).
    destruct (free_shape_facts it evs2 Hsh2) as (Hau2 & Hrel2 & Hacq2 & _ & Hg2).
    rewrite (bind_Ok _ _ _ _ _ Hfree).
    destruct (item_alloc2_held (rep_size x) s2 Hwf2)
      as (it' & s3 & evs3 & Halloc & Htr3 & Hdb3 & Hm3 & Hwf3 & Hsh3 & Hheld3).
    destruct (alloc_shape_facts it' evs3 Hsh3) as (Hau3 & Hrel3 & Hacq3 & Hg3).
    rewrite (bind_Ok _ _ _ _ _ Halloc).
    assert (audit (Some it)
              ([EDbGet key nkey it ulen DB_BUFFER_SMALL] ++ evs2 ++ evs3)
            = Some (if it' =? NULL then None else Some it')) as Hau.
    { rewrite (audit_app_Some _ _ _ _ (audit_get _ _ _ _ _)).
      by rewrite (audit_app_Some _ _ _ _ Hau2). }
    destruct (it' =? NULL) eqn:Hnn';
      [apply Z.eqb_eq in Hnn' | apply Z.eqb_neq in Hnn'].
    + exists s3, ([EDbGet key nkey it ulen DB_BUFFER_SMALL] ++ evs2 ++ evs3).
      split; [done|].
      split; [by rewrite Htr3, Htr2, Htr1, Hx, <- !app_assoc|].
      split.
      { unfold released, acquired in *. simpl. rewrite !flat_map_app.
        by rewrite Hrel2, Hrel3, Hacq2, Hacq3. }
      split; [done|]. right. split.
      { intros Hms. destruct Hm3 as [_ ?]; [|done]. apply Hm2. congruence. }
      destruct Hsh3 as [[_ [m ->]]|[? _]]; [|done].
      exists m. by rewrite app_assoc, last_snoc.
    + destruct (Hheld3 Hnn') as [Hheld3' _].
      destruct (IH fuel s3 it' (rep_size x) r rest Hwf3 Hheld3' Hall)
        as (s' & evs4 & Hloop & Htr4 & Hrel4 & Hau4 & Hc);
        [congruence | done | done | simpl in Hfuel; lia |].
      exists s',
        (([EDbGet key nkey it ulen DB_BUFFER_SMALL] ++ evs2 ++ evs3) ++ evs4).
      split; [done|].
      split; [by rewrite Htr4, Htr3, Htr2, Htr1, Hx, <- !app_assoc|].
      split.
      { unfold released, acquired in *. simpl. rewrite !flat_map_app.
        by rewrite Hrel2, Hrel3, Hacq2, Hacq3, Hrel4. }
      split; [by rewrite (audit_app_Some _ _ _ _ Hau)|].
      destruct Hc as [(Hdb & Hlog & it0 & u & evs0 & evsf & Hev & Hshf)|
                      (Hms & m & Hlast)].
      * left. split; [done|]. split.
        { rewrite !read_log_app, Hlog. unfold read_log at 2 3.
          rewrite Hg2, Hg3. simpl. by rewrite Hx. }
        exists it0, u,
          (([EDbGet key nkey it ulen DB_BUFFER_SMALL] ++ evs2 ++ evs3) ++ evs0),
          evsf.
        split; [by rewrite Hev, <- !app_assoc | done].
      * right. split.
        { intros Hm. apply Hms. destruct Hm3 as [? _]; [|done].
          apply Hm2. congruence. }
        exists m. by rewrite last_app, Hlast.
Qed.

(** C9, as amended.  Whatever the memory does and however many times the
    store answers DB_BUFFER_SMALL first: when the store then answers a read
    of [item_get] with DB_NOTFOUND or with any other error, [item_get]
    returns NULL, the same result in both cases, so the caller does not
    learn from it whether the key was absent or the store failed.  Every
    buffer taken on the way has been given back.  Unless a [malloc] failed
    before that answer was reached (which also gives NULL), the failing
    read is the last one, and what follows it is the release of the buffer
    it read into. *)
Theorem item_get_failure_is_null (key : string) (nkey : Z) (s : state)
    (smalls : list db_reply) (r : db_reply) (rest : list db_reply) :
  wf s →
  Forall (λ x, rep_ret x = DB_BUFFER_SMALL) smalls →
  db_script s = smalls ++ r :: rest →
  rep_ret r ≠ 0 → rep_ret r ≠ DB_BUFFER_SMALL →
  ∃ s' evs,
    item_get key nkey s = Ok NULL s' ∧
    trace s' = trace s ++ evs ∧
    released evs = acquired evs ∧
    audit None evs = Some None ∧
    ((db_script s' = rest ∧
      read_log evs = zip (uint32_t item_buf_size :: map rep_size smalls)
                         (map rep_ret (smalls ++ [r])) ∧
      ∃ it u evs0 evsf,
        evs = evs0 ++ [EDbGet key nkey it u (rep_ret r)] ++ evsf ∧
        free_shape it evsf) ∨
     (mem_script s ≠ [] ∧ ∃ m, last evs = Some (EMalloc m NULL))).
Proof.
  intros Hwf Hall Hs Hr0 Hrs. unfold item_get.
  destruct (item_alloc2_held item_buf_size s Hwf)
    as (it & s1 & evs1 & Halloc & Htr1 & Hdb1 & Hm1 & Hwf1 & Hsh1 & Hheld1).
  destruct (alloc_shape_facts it evs1 Hsh1) as (Hau1 & Hrel1 & Hacq1 & Hg1).
  rewrite (bind_Ok _ _ _ _ _ Halloc). change (it =? 0) with (it =? NULL).
  destruct (it =? NULL) eqn:Hnn;
    [apply Z.eqb_eq in Hnn | apply Z.eqb_neq in Hnn].
  - exists s1, evs1. split; [done|]. split; [done|].
    split; [by rewrite Hrel1, Hacq1|]. split; [done|]. right. split.
    { intros Hms. by destruct (Hm1 Hms). }
    destruct Hsh1 as [[_ [m ->]]|[? _]]; [by exists m | done].
  - destruct (Hheld1 Hnn) as [Hheld _].
    unfold bind at 1. unfold gets at 1.
    destruct (item_get_loop_fails key nkey smalls (length (db_script s1)) s1 it
                (uint32_t item_buf_size) r rest Hwf1 Hheld Hall)
      as (s' & evs & Hloop & Htr & Hrel & Hau & Hc);
      [congruence | done | done
      | rewrite Hdb1, Hs, length_app; simpl; lia |].
    exists s', (evs1 ++ evs). split; [done|].
    split; [by rewrite Htr, Htr1, <- app_assoc|].
    split.
    { unfold released, acquired in *. rewrite !flat_map_app.
      by rewrite Hrel1, Hacq1, Hrel. }
    split; [by rewrite (audit_app_Some _ _ _ _ Hau1)|].
    destruct Hc as [(Hdb & Hlog & it0 & u & evs0 & evsf & Hev & Hshf)|
                    (Hms & m & Hlast)].
    + left. split; [done|]. split.
      { rewrite read_log_app. unfold read_log at 1. by rewrite Hg1. }
      exists it0, u, (evs1 ++ evs0), evsf.
      split; [by rewrite Hev, <- !app_assoc | done].
    + right. split.
      { intros Hm. apply Hms. by destruct (Hm1 Hm). }
      exists m. by rewrite last_app, Hlast.
Qed.

(** C1.  Against a store that answers the first read with
    [DB_BUFFER_SMALL] and a size [n] above the size of the buffer it was
    given, and the second read with success, and with every memory request
    granted: [item_get] reads the store twice and no more, so it resizes
    once; between the two reads it gives the first buffer back exactly once
    and makes exactly one allocation, a [malloc] of exactly [n] bytes; it
    returns that block, whose capacity is [n], filled by the store. *)
Theorem item_get_resize (key : string) (nkey : Z) (s : state) (n : Z)
    (d1 : option item) (r2 : db_reply) (rest : list db_reply) :
  wf s → mem_script s = [] →
  DB_BUFFER_SMALL ≠ 0 →
  item_buf_size < n →
  db_script s = DbReply DB_BUFFER_SMALL n d1 :: r2 :: rest →
  rep_ret r2 = 0 →
  ∃ b1 b2 s' evs1 evs2,
    item_get key nkey s = Ok b2 s' ∧ b2 ≠ NULL ∧
    trace s' = trace s ++ evs1 ++ [EDbGet key nkey b1 (uint32_t item_buf_size) DB_BUFFER_SMALL]
                 ++ evs2 ++ [EMalloc n b2; EDbGet key nkey b2 n 0] ∧
    acquired evs1 = [b1] ∧ released evs1 = [] ∧ db_gets evs1 = [] ∧
    released evs2 = [b1] ∧ acquired evs2 = [] ∧ mallocs evs2 = [] ∧
    db_gets evs2 = [] ∧
    db_script s' = rest ∧
    held s' b2 ∧
    heap s' !! b2 = Some (Block n (default zero_item (rep_data r2))).
Proof.
  intros Hwf Hms Hsmall Hn Hs Hr2. unfold item_get.
  destruct (item_alloc2_held item_buf_size s Hwf)
    as (b1 & s1 & evs1 & Halloc & Htr1 & Hdb1 & Hms1 & Hwf1 & Hsh1 & Hheld1).
  destruct (Hms1 Hms) as [Hms1' Hnn1].
  destruct (alloc_shape_facts b1 evs1 Hsh1) as (_ & Hrel1 & Hacq1 & Hget1).
  rewrite (proj2 (Z.eqb_neq _ _) Hnn1) in Hacq1.
  rewrite (bind_Ok _ _ _ _ _ Halloc). change (b1 =? 0) with (b1 =? NULL).
  rewrite (proj2 (Z.eqb_neq _ _) Hnn1).
  destruct (Hheld1 Hnn1) as [Hheld _].
  unfold bind at 1. unfold gets at 1. rewrite Hdb1, Hs. rewrite <- Hdb1 in Hs.
  destruct (dbp_get_held key nkey b1 (uint32_t item_buf_size) s1 _ _ Hwf1 Hheld Hs)
    as (s2 & blk1 & Hget & Htr2 & Hdb2 & Hms2 & Hwf2 & Hheld2 & _).
  simpl length. simpl item_get_loop.
  rewrite (bind_Ok _ _ _ _ _ Hget). cbv zeta. cbn [fst snd rep_ret rep_size].
  rewrite Z.eqb_refl.
  destruct (item_free_held b1 s2 Hwf2 Hheld2)
    as (s3 & evs3 & Hfree & Htr3 & Hdb3 & Hms3 & Hwf3 & Hsh3).
  destruct (free_shape_facts b1 evs3 Hsh3)
    as (_ & Hrel3 & Hacq3 & Hmal3 & Hget3).
  rewrite (bind_Ok _ _ _ _ _ Hfree).
  destruct (item_alloc2_held n s3 Hwf3)
    as (b2 & s4 & evs4 & Halloc2 & Htr4 & Hdb4 & Hms4 & Hwf4 & _ & Hheld4).
  destruct Hms4 as [_ Hnn2]; [apply Hms3; by rewrite Hms2|].
  destruct (Hheld4 Hnn2) as [Hheld4' Hbig]. destruct (Hbig Hn) as [-> Hblk].
  rewrite (bind_Ok _ _ _ _ _ Halloc2). rewrite (proj2 (Z.eqb_neq _ _) Hnn2).
  assert (db_script s4 = r2 :: rest) as Hs4 by (by rewrite Hdb4, Hdb3, Hdb2).
  destruct (dbp_get_held key nkey b2 n s4 _ _ Hwf4 Hheld4' Hs4)
    as (s5 & blk2 & Hget2 & Htr5 & Hdb5 & _ & Hwf5 & Hheld5 & Hblk2 & Hblk5).
  rewrite (bind_Ok _ _ _ _ _ Hget2). cbv zeta. cbn [fst snd]. rewrite Hr2.
  rewrite (proj2 (Z.eqb_neq 0 DB_BUFFER_SMALL)) by done. simpl (0 =? 0).
  cbv iota.
  exists b1, b2, s5, evs1, evs3. split; [done|]. split; [done|]. split.
  { rewrite Htr5, Htr4, Htr3, Htr2, Htr1, Hr2. by rewrite <- !app_assoc. }
  repeat (split; [done|]).
  rewrite Hblk in Hblk2. injection Hblk2 as <-. done.
Qed.

(** ** [item_alloc1] and [item_put] *)

Lemma item_make_header_eq (nkey flags nbytes : Z) :
  INT_MIN ≤ flags ≤ INT_MAX →
  let text := fmt_suffix flags (int (nbytes - 2)) in
  let n := Z.of_nat (String.length text) in
  0 ≤ n ≤ 26 ∧
  item_make_header nkey flags nbytes =
    (text, n, size_t (sizeof_item + nkey + n + nbytes)).
Proof.
  intros Hf. cbv zeta. unfold item_make_header, snprintf.
  pose proof (fmt_suffix_length flags (int (nbytes - 2)) Hf (int_range _)) as Hlen.
  change (Z.to_nat (40 - 1)) with 39%nat.
  rewrite (substring_whole 39) by lia.
  split; [lia|]. unfold uint8_t. rewrite Z.mod_small; [done|].
  change (2 ^ 8) with 256. lia.
Qed.

(** [item_alloc1] is [item_alloc2] on the size from [item_make_header],
    followed by the writes into the buffer. *)
Lemma item_alloc1_alloc2 (key : string) (nkey flags nbytes : Z) (s : state) :
  item_alloc1 key nkey flags nbytes s =
    (let '(suffix, nsuffix, ntotal) :=
       item_make_header (uint8_t (nkey + 1)) flags nbytes in
     let* it := item_alloc2 ntotal in
     if it =? NULL then pure NULL
     else item_fill it key nkey nbytes suffix nsuffix) s.
Proof.
  unfold item_alloc1, item_alloc2.
  destruct (item_make_header _ _ _) as [[suffix nsuffix] ntotal].
  destruct (item_buf_size <? ntotal); unfold bind.
  - destruct (malloc ntotal s) as [it s1|e]; [|done].
    destruct (it =? NULL) eqn:Hnn; [done|].
    destruct (memset0 it s1) as [[] s2|e]; [|done]. simpl. by rewrite Hnn.
  - destruct (item_from_freelist s) as [it s1|e]; [|done].
    destruct (it =? NULL) eqn:Hnn; [done|].
    simpl. by rewrite Hnn.
Qed.

Lemma write_end_Ok (p o n : Z) (w : string) (s : state) (b : block) :
  heap s !! p = Some b → 0 ≤ o → sizeof_item + o + n ≤ blk_cap b →
  write_end p o n w s =
    Ok tt (State (<[p := Block (blk_cap b)
                            (set_end (mem_write (Z.to_nat o) w
                                                (it_end (blk_item b)))
                                     (blk_item b))]> (heap s))
                 (brk s) (freeitem s) (freeitemtotal s) (freeitemcurr s)
                 (mem_script s) (db_script s) (trace s)).
Proof.
  intros H Ho Hn. destruct s as [h b' a t c ms ds tr]; simpl in *.
  unfold write_end. mrun. rewrite H.
  rewrite (proj2 (Z.leb_le _ _) Ho), (proj2 (Z.leb_le _ _) Hn). by mrun.
Qed.

Lemma write_end_fault (p o n : Z) (w : string) (s : state) (b : block) :
  heap s !! p = Some b → blk_cap b < sizeof_item + o + n →
  write_end p o n w s = Err MemFault.
Proof.
  intros H Hn. destruct s as [h b' a t c ms ds tr]; simpl in *.
  unfold write_end. mrun. rewrite H.
  rewrite (proj2 (Z.leb_gt _ _) Hn), andb_false_r. done.
Qed.

Lemma uint8_t_range (z : Z) : 0 ≤ uint8_t z < 2 ^ 8.
Proof. unfold uint8_t. apply Z.mod_pos_bound. lia. Qed.

Lemma strlen_nonneg (key : string) : 0 ≤ strlen key.
Proof. unfold strlen. lia. Qed.

Lemma item_fill_Ok (it : Z) (key : string) (nkey nbytes : Z) (suffix : string)
    (nsuffix : Z) (s : state) (b : block) :
  heap s !! it = Some b →
  item_fits (blk_cap b) key nkey nsuffix →
  item_fill it key nkey nbytes suffix nsuffix s =
    Ok it (State (<[it := Block (blk_cap b)
                            (filled key nkey nbytes suffix nsuffix (blk_item b))]>
                    (heap s))
                 (brk s) (freeitem s) (freeitemtotal s) (freeitemcurr s)
                 (mem_script s) (db_script s) (trace s)).
Proof.
  intros Hb [Hkey Hsuf]. unfold item_fill, strcpy, memcpy, ITEM_key in *.
  pose proof (uint8_t_range nkey) as Hu.
  rewrite (bind_Ok _ _ _ _ _ (store_Ok _ _ _ _ Hb)).
  erewrite bind_Ok; [|apply store_Ok; simpl; apply lookup_insert_eq].
  erewrite bind_Ok;
    [|eapply write_end_Ok; [simpl; apply lookup_insert_eq | lia | simpl; lia]].
  erewrite bind_Ok; [|apply load_Ok; simpl; apply lookup_insert_eq].
  erewrite bind_Ok;
    [|eapply write_end_Ok;
       [simpl; apply lookup_insert_eq | simpl; unfold ITEM_suffix; simpl; lia
       | simpl; unfold ITEM_suffix; simpl; lia]].
  erewrite bind_Ok; [|apply store_Ok; simpl; apply lookup_insert_eq].
  simpl. rewrite !insert_insert_eq. done.
Qed.

Lemma item_fill_fault (it : Z) (key : string) (nkey nbytes : Z) (suffix : string)
    (nsuffix : Z) (s : state) (b : block) :
  heap s !! it = Some b →
  ¬ item_fits (blk_cap b) key nkey nsuffix →
  item_fill it key nkey nbytes suffix nsuffix s = Err MemFault.
Proof.
  intros Hb Hno. unfold item_fill, strcpy, memcpy.
  pose proof (uint8_t_range nkey) as Hu.
  rewrite (bind_Ok _ _ _ _ _ (store_Ok _ _ _ _ Hb)).
  erewrite bind_Ok; [|apply store_Ok; simpl; apply lookup_insert_eq].
  destruct (decide (sizeof_item + ITEM_key + (strlen key + 1) ≤ blk_cap b))
    as [Hkey|Hkey].
  - erewrite bind_Ok;
      [|eapply write_end_Ok;
         [simpl; apply lookup_insert_eq | unfold ITEM_key; lia | simpl; lia]].
    erewrite bind_Ok; [|apply load_Ok; simpl; apply lookup_insert_eq].
    unfold bind at 1. erewrite write_end_fault; [done | simpl; apply lookup_insert_eq |].
    simpl. unfold ITEM_suffix. simpl. unfold item_fits in Hno. lia.
  - unfold bind at 1. erewrite write_end_fault; [done | simpl; apply lookup_insert_eq |].
    simpl. lia.
Qed.

Lemma item_put_Ok (key : string) (nkey : Z) (it : Z) (s : state) (b : block)
    (r : db_reply) (rest : list db_reply) :
  heap s !! it = Some b → db_script s = r :: rest →
  ∃ s',
    item_put key nkey it s = Ok (if rep_ret r =? 0 then 0 else -1) s' ∧
    trace s' = trace s ++
      [EDbPut key nkey it (uint32_t (ITEM_ntotal (blk_item b))) (rep_ret r)].
Proof.
  intros Hb Hs. unfold item_put. rewrite (bind_Ok _ _ _ _ _ (load_Ok _ _ _ Hb)).
  destruct s as [h b' a t c ms ds tr]; simpl in *. subst ds.
  unfold dbp_put. mrun. destruct (rep_ret r =? 0); eexists; done.
Qed.

Lemma item_alloc2_small (ntotal : Z) (s : state) :
  ntotal ≤ item_buf_size → item_alloc2 ntotal s = do_item_from_freelist s.
Proof.
  intros Hn. unfold item_alloc2, item_from_freelist.
  rewrite (proj2 (Z.ltb_ge _ _) Hn). unfold bind.
  destruct (do_item_from_freelist s) as [it s1|e]; [|done].
  destruct (it =? NULL) eqn:Hnn; [|done].
  apply Z.eqb_eq in Hnn. by subst.
Qed.

Lemma append_snoc (a : string) (c : Ascii.ascii) (x : string) :
  (a +:+ String c EmptyString) +:+ x = a +:+ String c x.
Proof.
  induction a as [|c' a IH]; [done|].
  unfold String.append in *; fold String.append in *. by f_equal.
Qed.

Lemma mem_write_after (a w rest : string) :
  mem_write (String.length a) w (a +:+ rest) =
    a +:+ w +:+ string_drop (String.length w) rest.
Proof.
  induction a as [|c a IH]; [done|].
  unfold String.append in *; fold String.append in *.
  cbn [String.length mem_write]. by f_equal.
Qed.

(** A key of [nkey] bytes and the whole suffix, written into a buffer: the
    bytes behind the header are the key, its terminator and the suffix,
    followed by what the buffer held there before. *)
Lemma filled_end (key : string) (nkey nbytes : Z) (suffix : string) (i0 : item) :
  strlen key = uint8_t nkey →
  it_end (filled key nkey nbytes suffix (Z.of_nat (String.length suffix)) i0) =
    cstr key +:+ String NUL
      (suffix +:+ string_drop (String.length suffix)
                    (string_drop (String.length (cstr key) + 1) (it_end i0))).
Proof.
  intros Hk. unfold filled, ITEM_key. cbn [it_end]. rewrite <- Hk.
  change (Z.to_nat 0) with 0%nat. cbn [mem_write].
  rewrite Nat2Z.id, substring_whole by lia.
  replace (Z.to_nat (strlen key + 1))
    with (String.length (cstr key +:+ String NUL EmptyString))
    by (rewrite length_append; unfold strlen; simpl; lia).
  rewrite mem_write_after, append_snoc, length_append. simpl.
  by rewrite Nat.add_comm.
Qed.

(** C3, as amended.  For a key of [nkey] bytes, at most 254, any [int] flags
    and a non-negative [int] data length, the total computed by
    [item_make_header] is the header size plus the key length passed to it
    (the key and its terminator), the suffix length and the data length.
    [item_alloc1] returns; the record it builds carries the three header
    fields and, behind the header, the key, its terminator and the suffix;
    from those fields [ITEM_ntotal] computes that same total, and [item_put]
    writes exactly that many bytes to the store.  When the total is above
    [item_buf_size] the buffer is a block that [item_alloc1] takes from
    [malloc] with exactly the total; otherwise it is a freelist buffer, of
    at least [item_buf_size] bytes: one popped from the freelist, or the
    block of [item_buf_size] bytes that [do_item_from_freelist] takes from
    [malloc] when the freelist is empty. *)
Theorem item_alloc1_sizes (key : string) (nkey flags nbytes : Z) (s : state)
    (r : db_reply) (rest : list db_reply) :
  wf s →
  0 ≤ sizeof_item < 2 ^ 16 →
  0 ≤ nkey ≤ 254 →
  strlen key = nkey →
  INT_MIN ≤ flags ≤ INT_MAX →
  0 ≤ nbytes ≤ INT_MAX →
  db_script s = r :: rest →
  ∃ suffix nsuffix ntotal it s1 evs,
    item_make_header (uint8_t (nkey + 1)) flags nbytes
      = (suffix, nsuffix, ntotal) ∧
    ntotal = sizeof_item + (nkey + 1) + nsuffix + nbytes ∧
    item_alloc1 key nkey flags nbytes s = Ok it s1 ∧
    trace s1 = trace s ++ evs ∧
    (it = NULL →
       (∃ m, evs = [EMalloc m NULL]) ∧ heap s1 = heap s ∧ pool s1 = pool s) ∧
    (it ≠ NULL →
       ∃ b s2 behind,
         heap s1 !! it = Some b ∧
         blk_item b =
           Item nbytes nsuffix nkey
                (cstr key +:+ String NUL (suffix +:+ behind)) ∧
         ITEM_ntotal (blk_item b) = ntotal ∧
         item_put key nkey it s1 = Ok (if rep_ret r =? 0 then 0 else -1) s2 ∧
         trace s2 = trace s1 ++ [EDbPut key nkey it ntotal (rep_ret r)] ∧
         (item_buf_size < ntotal →
            evs = [EMalloc ntotal it] ∧ blk_cap b = ntotal ∧
            pool s1 = pool s) ∧
         (ntotal ≤ item_buf_size →
            item_buf_size ≤ blk_cap b ∧
            ((evs = [EPop it] ∧ pool s = pool s1 ++ [it]) ∨
             (evs = [EMalloc item_buf_size it] ∧ blk_cap b = item_buf_size ∧
              pool s = [] ∧ pool s1 = [])))).
Proof.
  intros Hwf Hsz Hk Hlen Hf Hn Hs. unfold INT_MAX in Hn.
  destruct (item_make_header_eq (uint8_t (nkey + 1)) flags nbytes Hf)
    as [Hlen' Heq].
  set (text := fmt_suffix flags (int (nbytes - 2))) in *.
  set (n := Z.of_nat (String.length text)) in *.
  assert (uint8_t (nkey + 1) = nkey + 1) as Hk1.
  { unfold uint8_t. change (2 ^ 8) with 256. apply Z.mod_small. lia. }
  assert (uint8_t nkey = nkey) as Hk0.
  { unfold uint8_t. change (2 ^ 8) with 256. apply Z.mod_small. lia. }
  set (ntotal := sizeof_item + (nkey + 1) + n + nbytes).
  assert (0 ≤ ntotal < 2 ^ 32) as Hnt by (subst ntotal; lia).
  assert (size_t ntotal = ntotal) as Hst.
  { unfold size_t. apply Z.mod_small. lia. }
  rewrite Hk1 in Heq. fold ntotal in Heq. rewrite Hst in Heq.
  exists text, n, ntotal.
  rewrite item_alloc1_alloc2, Hk1, Heq.
  destruct (item_alloc2_cases ntotal s Hwf)
    as (it & s1 & evs & Hrun & Htr & Hdb & Hwf1 & _ & Hc).
  rewrite (bind_Ok _ _ _ _ _ Hrun).
  destruct Hc as [(-> & _ & Hev & Hh & Hp)|(Hnn & Hheld & Hc)].
  { exists NULL, s1, evs. repeat (split; [done|]). done. }
  rewrite (proj2 (Z.eqb_neq _ _) Hnn).
  pose proof Hheld as [[b0 Hb0] Hout].
  assert (ntotal ≤ blk_cap b0) as Hcap0.
  { destruct Hc as [(_ & _ & _ & _ & Hh)|[(? & _ & _ & _ & Hh)|(? & _)]].
    - rewrite Hh, lookup_insert_eq in Hb0. injection Hb0 as <-. simpl. lia.
    - rewrite Hh, lookup_insert_eq in Hb0. injection Hb0 as <-. simpl. lia.
    - destruct Hwf1 as (_ & _ & _ & _ & Hheap).
      apply Hheap in Hb0 as [_ Hcap]. lia. }
  assert (item_fits (blk_cap b0) key nkey n) as Hfits.
  { unfold item_fits, ITEM_key. rewrite Hk0, Hlen. subst ntotal. lia. }
  rewrite (item_fill_Ok _ _ _ _ _ _ _ _ Hb0 Hfits).
  eexists it, _, evs. split; [done|]. split; [done|]. split; [reflexivity|].
  split; [done|]. split; [done|]. intros _.
  set (i1 := filled key nkey nbytes text n (blk_item b0)).
  set (b := Block (blk_cap b0) i1).
  match goal with |- context [heap ?st !! it = _] => set (s2 := st) end.
  assert (heap s2 !! it = Some b) as Hb by (subst s2; simpl; apply lookup_insert_eq).
  assert (ITEM_ntotal (blk_item b) = ntotal) as Hit.
  { unfold ITEM_ntotal. simpl. rewrite Hk0, <- Hst. f_equal. subst ntotal. lia. }
  destruct (item_put_Ok key nkey it s2 b r rest Hb) as (s3 & Hput & Htr3).
  { subst s2. simpl. by rewrite Hdb. }
  exists b, s3. eexists. split; [done|]. split.
  { subst b i1. cbn [blk_item].
    pose proof (filled_end key nkey nbytes text (blk_item b0)) as He.
    fold n in He. rewrite Hk0 in He. specialize (He Hlen).
    unfold filled in *. cbn [it_end] in He. rewrite He, Hk0. reflexivity. }
  split; [done|]. split; [done|]. split.
  { rewrite Htr3, Hit. unfold uint32_t. by rewrite Z.mod_small. }
  assert (pool s2 = pool s1) as Hp2 by done.
  split.
  - intros Hbig.
    destruct Hc as [(_ & Hev & _ & Hp & Hh)|[(? & _)|(? & _)]]; [|lia|lia].
    split; [done|]. split; [|by rewrite Hp2].
    rewrite Hh, lookup_insert_eq in Hb0. by injection Hb0 as <-.
  - intros Hsmall. split.
    { destruct Hwf1 as (_ & _ & _ & _ & Hheap).
      apply Hheap in Hb0 as [_ Hcap]. exact Hcap. }
    destruct Hc as [(? & _)|[(_ & Hev & _ & Hp & Hh)|(_ & Hev & Hp & _)]]; [lia| |].
    + right. split; [done|].
      rewrite Hh, lookup_insert_eq in Hb0. injection Hb0 as <-.
      split; [done|]. rewrite Hp2, Hp.
      pose proof Hwf as (Hok & Hbrk & _).
      rewrite (item_alloc2_small _ _ Hsmall) in Hrun.
      destruct (from_freelist_cases s Hok Hbrk)
        as (p & s' & evs' & Hrun' & Htr' & _ & _ & _ & _ & _ & Hcase).
      rewrite Hrun in Hrun'. injection Hrun' as <- <-.
      rewrite Htr in Htr'. apply app_inv_head in Htr'. subst evs'.
      destruct Hcase as [(_ & Hev' & _)|[(Hc0 & _)|(_ & _ & ? & _)]];
        [by rewrite Hev in Hev' | | done].
      unfold pool. rewrite Hc0. done.
    + left. split; [done|]. by rewrite Hp2.
Qed.

(** * Further properties *)

(** ** Runs on the freelist *)

Lemma release_all_room (ps : list Z) : ∀ s,
  pool_ok s →
  freeitemcurr s + Z.of_nat (length ps) ≤ freeitemtotal s →
  ∃ s',
    release_all ps s = Ok (replicate (length ps) 0) s' ∧
    pool_ok s' ∧
    pool s' = pool s ++ ps ∧
    freeitemtotal s' = freeitemtotal s ∧
    freeitemcurr s' = freeitemcurr s + Z.of_nat (length ps) ∧
    heap s' = heap s ∧ brk s' = brk s ∧
    mem_script s' = mem_script s ∧ db_script s' = db_script s ∧
    trace s' = trace s ++ map EPush ps.
Proof.
  induction ps as [|p ps IH]; intros s Hok Hroom.
  - exists s. simpl. rewrite !app_nil_r.
    repeat (split; [done || lia|]). done.
  - simpl length in Hroom.
    destruct (add_to_freelist_cases p s Hok)
      as (r & s1 & evs & Hrun & Htr & Hh & Hb & Hdb & Hok1 & _).
    rewrite add_room in Hrun by (done || lia). injection Hrun as <- <-.
    destruct (IH _ Hok1) as (s' & Hrel & Hok' & Hp & Ht & Hc & Hh' & Hb' & Hm & Hd & Htr').
    { simpl. lia. }
    exists s'. simpl release_all.
    rewrite (bind_Ok _ _ _ _ _ (add_room p s Hok ltac:(lia))).
    rewrite (bind_Ok _ _ _ _ _ Hrel).
    split; [done|]. split; [done|].
    unfold pool at 2 in Hp. simpl in Hp, Ht, Hc, Hh', Hb', Hm, Hd, Htr'.
    destruct Hok as (Hlen & Htot & Hcur).
    replace (Z.to_nat (freeitemcurr s + 1)) with (S (Z.to_nat (freeitemcurr s)))
      in Hp by lia.
    rewrite pool_snoc in Hp by lia.
    split; [by rewrite Hp, <- app_assoc|].
    split; [done|]. split; [simpl length; lia|].
    repeat (split; [done|]). by rewrite Htr', <- app_assoc.
Qed.

Lemma acquire_n_pool (n : nat) : ∀ s (base ps : list Z),
  pool_ok s → length ps = n → pool s = base ++ ps →
  ∃ s',
    acquire_n n s = Ok (reverse ps) s' ∧
    pool_ok s' ∧
    pool s' = base ∧
    freeitem s' = freeitem s ∧
    freeitemtotal s' = freeitemtotal s ∧
    freeitemcurr s' = freeitemcurr s - Z.of_nat n ∧
    heap s' = heap s ∧ brk s' = brk s ∧
    mem_script s' = mem_script s ∧ db_script s' = db_script s ∧
    trace s' = trace s ++ map EPop (reverse ps).
Proof.
  induction n as [|n IH]; intros s base ps Hok Hlen Hpool.
  - destruct ps; [|done]. exists s. simpl. rewrite !app_nil_r in *.
    repeat (split; [done || lia|]). done.
  - destruct ps as [|p ps' _] using rev_ind; [done|].
    rewrite length_app in Hlen. simpl in Hlen.
    assert (0 < freeitemcurr s) as Hpos.
    { destruct (Z.lt_ge_cases 0 (freeitemcurr s)) as [|Hle]; [done|].
      exfalso. unfold pool in Hpool.
      replace (Z.to_nat (freeitemcurr s)) with 0%nat in Hpool by lia.
      simpl in Hpool. destruct base, ps'; done. }
    destruct (from_pool s Hok Hpos) as (q & _ & Hq & Hrun).
    rewrite Hpool, app_assoc in Hq. apply app_inj_tail in Hq as [Hbase <-].
    match type of Hrun with _ = Ok _ ?st => set (s1 := st) in * end.
    assert (pool_ok s1) as Hok1.
    { destruct Hok as (? & ? & ?). subst s1. unfold pool_ok. simpl.
      repeat split; try done; lia. }
    destruct (IH s1 base ps' Hok1) as (s' & Hacq & Hok' & Hp & Ha & Ht & Hc & Hh & Hb & Hm & Hd & Htr).
    { lia. }
    { subst s1. unfold pool. simpl. done. }
    exists s'. simpl acquire_n.
    rewrite (bind_Ok _ _ _ _ _ Hrun), (bind_Ok _ _ _ _ _ Hacq).
    rewrite reverse_snoc. split; [done|].
    repeat (split; [done|]). split; [subst s1; simpl in *; lia|].
    repeat (split; [done|]). subst s1. simpl in *.
    by rewrite Htr, <- app_assoc.
Qed.

(** X1.  After [item_init], as many as 500 releases in a row are all
    accepted without any [realloc]: each returns 0, the array keeps its 500
    slots, no memory request is made, and the freelist holds the buffers in
    the order of their release. *)
Theorem item_init_takes_500 (s0 : state) (ps : list Z) :
  next_mem_fails s0 = false → 0 < brk s0 →
  (length ps ≤ 500)%nat →
  ∃ s,
    (item_init ;; release_all ps) s0 = Ok (replicate (length ps) 0) s ∧
    pool s = ps ∧
    freeitemtotal s = INIT_ITEM_FREELIST_LENGTH ∧
    released (drop (length (trace s0)) (trace s)) = ps ∧
    drop (length (trace s0)) (trace s) = map EPush ps ∧
    mem_script s = tail (mem_script s0) ∧
    heap s = heap s0.
Proof.
  intros Hmem Hbrk Hlen.
  destruct (item_init_inv s0 Hmem Hbrk) as (s1 & Hinit & (Hok & _) & Htot & Hcur).
  assert (pool s1 = [] ∧ trace s1 = trace s0 ∧ heap s1 = heap s0 ∧
          mem_script s1 = tail (mem_script s0)) as (Hp1 & Htr1 & Hh1 & Hm1).
  { unfold pool. rewrite Hcur. split; [done|].
    destruct s0 as [h b a t c ms ds tr]. unfold next_mem_fails in Hmem.
    simpl in Hmem. unfold item_init in Hinit.
    cbv beta iota zeta delta [bind set_freeitemtotal set_freeitemcurr mem_fails
      set_freeitem heap brk freeitem freeitemtotal freeitemcurr mem_script
      db_script trace] in Hinit.
    destruct ms as [|[] ms]; try done; injection Hinit as <-; done. }
  destruct (release_all_room ps s1 Hok)
    as (s & Hrel & _ & Hp & Ht & _ & Hh & _ & Hm & _ & Htr).
  { rewrite Hcur, Htot. unfold INIT_ITEM_FREELIST_LENGTH. lia. }
  exists s. unfold bind at 1. rewrite Hinit. split; [done|].
  rewrite Hp, Hp1, Ht, Htr, Htr1, drop_app_length, Hm, Hh.
  repeat (split; [done|]). split; [|done].
  unfold released. clear. induction ps as [|p ps IH]; simpl; [done | by rewrite IH].
Qed.

(** X2.  Releases followed by as many acquisitions, on a freelist with room
    for them: every release returns 0, the acquisitions return the buffers
    in the reverse order of their release, no [malloc] or [realloc] is
    made, and freelist and heap end as they began. *)
Theorem release_acquire_lifo (s : state) (ps : list Z) :
  pool_ok s →
  freeitemcurr s + Z.of_nat (length ps) ≤ freeitemtotal s →
  ∃ s1 s2,
    release_all ps s = Ok (replicate (length ps) 0) s1 ∧
    acquire_n (length ps) s1 = Ok (reverse ps) s2 ∧
    pool s2 = pool s ∧
    freeitemcurr s2 = freeitemcurr s ∧
    freeitemtotal s2 = freeitemtotal s ∧
    heap s2 = heap s ∧
    mem_script s2 = mem_script s ∧
    trace s2 = trace s ++ map EPush ps ++ map EPop (reverse ps).
Proof.
  intros Hok Hroom.
  destruct (release_all_room ps s Hok Hroom)
    as (s1 & Hrel & Hok1 & Hp1 & Ht1 & Hc1 & Hh1 & _ & Hm1 & _ & Htr1).
  destruct (acquire_n_pool (length ps) s1 (pool s) ps Hok1 eq_refl Hp1)
    as (s2 & Hacq & _ & Hp2 & _ & Ht2 & Hc2 & Hh2 & _ & Hm2 & _ & Htr2).
  exists s1, s2. repeat (split; [done|]).
  split; [lia|]. split; [congruence|]. split; [congruence|].
  split; [congruence|]. by rewrite Htr2, Htr1, <- app_assoc.
Qed.

(** X3.  [item_init] does not report a failed [malloc] to its caller: it
    returns as usual with [freeitemtotal] at 500 and no array, and the
    first release after it writes through the null array. *)
Theorem item_init_failure_unreported (s0 : state) (it : Z) :
  next_mem_fails s0 = true →
  ∃ s,
    item_init s0 = Ok tt s ∧
    freeitemtotal s = INIT_ITEM_FREELIST_LENGTH ∧
    freeitemcurr s = 0 ∧
    freeitem s = [] ∧
    do_item_add_to_freelist it s = Err MemFault.
Proof.
  intros Hmem. destruct s0 as [h b a t c ms ds tr].
  unfold next_mem_fails in Hmem. simpl in Hmem.
  destruct ms as [|[] ms]; try done.
  eexists. split; [reflexivity|]. simpl.
  repeat (split; [done|]). reflexivity.
Qed.

Lemma pool_length (s : state) :
  pool_ok s → Z.of_nat (length (pool s)) = freeitemcurr s.
Proof.
  intros (Hlen & Htot & Hc). unfold pool. rewrite length_take. lia.
Qed.

Lemma pool_run_accounting_from (cs : list pool_call) : ∀ s,
  pool_inv s →
  ∃ s' evs,
    pool_run cs s = Ok tt s' ∧ pool_inv s' ∧
    trace s' = trace s ++ evs ∧
    freeitemcurr s' =
      freeitemcurr s + Z.of_nat (length (pushed evs))
                     - Z.of_nat (length (popped evs)).
Proof.
  induction cs as [|c cs IH]; intros s Hinv.
  - exists s, []. simpl. rewrite app_nil_r. repeat (split; [done|]). lia.
  - pose proof Hinv as (Hok & Hbrk & Htot).
    destruct (pool_step_inv c s Hinv) as (r & s1 & Hstep & Hinv1).
    destruct (IH s1 Hinv1) as (s' & evs' & Hrun & Hinv' & Htr' & Hc').
    assert (∃ evs, trace s1 = trace s ++ evs ∧
              freeitemcurr s1 =
                freeitemcurr s + Z.of_nat (length (pushed evs))
                               - Z.of_nat (length (popped evs)))
      as (evs & Htr & Hc).
    { destruct Hinv1 as (Hok1 & _).
      pose proof (pool_length s Hok) as Hl. pose proof (pool_length s1 Hok1) as Hl1.
      destruct c as [it|]; simpl in Hstep.
      - destruct (add_to_freelist_cases it s Hok)
          as (r' & s1' & evs & Hrun' & Htr & _ & _ & _ & _ & Hcase).
        rewrite Hstep in Hrun'. injection Hrun' as <- <-.
        exists evs. split; [done|].
        destruct Hcase as [(_ & Hp & [(-> & _)|(-> & _)])|(_ & Hp & _ & [(-> & _)|(-> & _)])];
          rewrite Hp in Hl1; rewrite ?length_app in Hl1; simpl in *; lia.
      - destruct (from_freelist_cases s Hok Hbrk)
          as (p & s1' & evs & Hrun' & Htr & _ & _ & _ & _ & _ & Hcase).
        rewrite Hstep in Hrun'. injection Hrun' as <- <-.
        exists evs. split; [done|].
        destruct Hcase as [(_ & -> & _ & Hcur & _)|[(Hz & _ & _ & -> & _ & _ & Hcur & _)|
          (Hz & _ & _ & -> & _ & _ & Hcur & _)]]; simpl; lia. }
    exists s', (evs ++ evs'). simpl. unfold bind. rewrite Hstep.
    split; [done|]. split; [done|].
    split; [by rewrite Htr', Htr, <- app_assoc|].
    unfold pushed, popped in *. rewrite !flat_map_app, !length_app. lia.
Qed.

(** X4.  After [item_init] and any run of releases and acquisitions, under
    any outcomes of the memory requests: the freelist holds as many buffers
    as were put in (accepted releases) minus those taken out, that number is
    [freeitemcurr], and it never exceeds the size of the array, which never
    exceeds 4000. *)
Theorem pool_run_accounting (s0 : state) (cs : list pool_call) :
  next_mem_fails s0 = false → 0 < brk s0 →
  ∃ s evs,
    (item_init ;; pool_run cs) s0 = Ok tt s ∧
    trace s = trace s0 ++ evs ∧
    Z.of_nat (length (pool s)) = freeitemcurr s ∧
    freeitemcurr s =
      Z.of_nat (length (pushed evs)) - Z.of_nat (length (popped evs)) ∧
    0 ≤ freeitemcurr s ≤ freeitemtotal s ∧
    freeitemtotal s ≤ MAX_ITEM_FREELIST_LENGTH.
Proof.
  intros Hmem Hbrk.
  destruct (item_init_inv s0 Hmem Hbrk) as (s1 & Hinit & Hinv1 & _ & Hcur).
  destruct (pool_run_accounting_from cs s1 Hinv1)
    as (s & evs & Hrun & (Hok & _ & Htot) & Htr & Hc).
  assert (trace s1 = trace s0) as Htr1.
  { destruct s0 as [h b a t c ms ds tr]. unfold next_mem_fails in Hmem.
    simpl in Hmem. unfold item_init in Hinit.
    cbv beta iota zeta delta [bind set_freeitemtotal set_freeitemcurr mem_fails
      set_freeitem heap brk freeitem freeitemtotal freeitemcurr mem_script
      db_script trace] in Hinit.
    destruct ms as [|[] ms]; try done; injection Hinit as <-; done. }
  exists s, evs. unfold bind at 1. rewrite Hinit.
  split; [done|]. split; [by rewrite Htr, Htr1|].
  split; [by apply pool_length|]. split; [lia|].
  destruct Hok as (_ & _ & ?). split; [done|].
  unfold MAX_ITEM_FREELIST_LENGTH. lia.
Qed.

(** ** Buffers in other hands *)

Lemma item_alloc2_frame (ntotal : Z) (s s' : state) (it : Z) :
  wf s → item_alloc2 ntotal s = Ok it s' →
  (it ≠ NULL → ¬ held s it) ∧ all_kept s s'.
Proof.
  intros Hwf Hrun.
  destruct (item_alloc2_cases ntotal s Hwf)
    as (it' & s1 & evs & Hrun' & _ & _ & _ & _ & Hc).
  rewrite Hrun in Hrun'. injection Hrun' as <- <-.
  destruct Hc as [(-> & _ & _ & Hh & Hp)|(Hnn & _ & Hc)].
  { split; [done|]. intros q [Hq Hout]. unfold held. by rewrite Hh, Hp. }
  assert (∀ n, heap s !! it = None → pool s' = pool s →
               heap s' = <[it := Block n zero_item]> (heap s) →
               (it ≠ NULL → ¬ held s it) ∧ all_kept s s') as Hfresh.
  { intros n Hnone Hp Hh. split.
    - intros _ [[b Hb] _]. congruence.
    - intros q [[b Hb] Hout]. assert (it ≠ q) by congruence.
      unfold held. rewrite Hh, Hp, lookup_insert_ne by done. eauto. }
  destruct Hc as [(_ & _ & Hnone & Hp & Hh)|[(_ & _ & Hnone & Hp & Hh)|
    (_ & _ & Hp & Hh)]]; [by eapply Hfresh | by eapply Hfresh |].
  split.
  - intros _ [_ Hout]. apply Hout. rewrite Hp. apply elem_of_app. right.
    by apply list_elem_of_singleton.
  - intros q [Hq Hout]. unfold held. rewrite Hh. split; [|done].
    split; [done|]. intros Hin. apply Hout. rewrite Hp.
    apply elem_of_app. by left.
Qed.

Lemma item_free_frame (it : Z) (s s' : state) (r : Z) :
  wf s → held s it → item_free it s = Ok r s' → others_kept s s' it.
Proof.
  intros Hwf Hheld Hrun.
  destruct (item_free_cases it s Hwf Hheld)
    as (s1 & evs & b & _ & Hrun' & _ & _ & _ & _ & _ & Hc).
  rewrite Hrun in Hrun'. injection Hrun' as -> <-.
  intros q Hne [Hq Hout]. unfold held.
  destruct Hc as [(_ & _ & Hp & Hh & _)|[(_ & _ & Hp & Hh & _)|
    (_ & Hp & Hh & _)]]; rewrite Hp, Hh.
  - split; [|done]. split; [done|]. intros Hin.
    apply elem_of_app in Hin as [Hin|Hin]; [done|].
    by apply list_elem_of_singleton in Hin.
  - rewrite lookup_delete_ne by done. done.
  - rewrite lookup_delete_ne by done. done.
Qed.

(** X5.  [item_alloc2] routes by size and never faults.  For a size of at
    most [item_buf_size] it is [do_item_from_freelist]: a buffer from the
    freelist comes back with the contents it had, not zeroed.  For a larger
    size it returns a fresh zeroed block of exactly that size and leaves the
    freelist alone, or NULL with heap and freelist unchanged when [malloc]
    fails.  What it returns was in no caller's hands, and the buffers in
    callers' hands stay as they are. *)
Theorem item_alloc2_routes (ntotal : Z) (s : state) :
  wf s →
  ∃ it s',
    item_alloc2 ntotal s = Ok it s' ∧
    wf s' ∧
    (ntotal ≤ item_buf_size →
       item_alloc2 ntotal s = do_item_from_freelist s ∧
       (0 < freeitemcurr s →
          it ≠ NULL ∧ pool s = pool s' ++ [it] ∧ heap s' = heap s)) ∧
    (item_buf_size < ntotal →
       pool s' = pool s ∧ freeitem s' = freeitem s ∧
       freeitemcurr s' = freeitemcurr s ∧
       (next_mem_fails s = false →
          it ≠ NULL ∧ heap s !! it = None ∧
          heap s' = <[it := Block ntotal zero_item]> (heap s)) ∧
       (next_mem_fails s = true → it = NULL ∧ heap s' = heap s)) ∧
    (it ≠ NULL → held s' it ∧ ¬ held s it) ∧
    all_kept s s'.
Proof.
  intros Hwf. pose proof Hwf as (Hok & Hbrk & _ & _ & Hheap).
  destruct (item_alloc2_cases ntotal s Hwf)
    as (it & s' & evs & Hrun & _ & _ & Hwf' & _ & Hc).
  destruct (item_alloc2_frame ntotal s s' it Hwf Hrun) as [Hnew Hkept].
  exists it, s'. split; [done|]. split; [done|].
  split; [|split; [|split]].
  - intros Hn. split; [by apply item_alloc2_small|]. intros Hpos.
    rewrite (item_alloc2_small _ _ Hn) in Hrun.
    destruct (from_freelist_cases s Hok Hbrk)
      as (p & s1 & evs1 & Hrun1 & _ & _ & _ & _ & Hok1 & _ & Hc1).
    rewrite Hrun in Hrun1. injection Hrun1 as <- <-.
    destruct Hc1 as [(_ & _ & Hp & _ & Hh & Hb & _)|[(? & _)|(? & _)]]; try lia.
    destruct (wf_pop s s' it Hwf Hok1 Hp Hh Hb) as (_ & _ & Hnn). done.
  - intros Hn. unfold item_alloc2 in Hrun.
    rewrite (proj2 (Z.ltb_lt _ _) Hn) in Hrun.
    destruct (next_mem_fails s) eqn:Hmem.
    + rewrite (bind_Ok _ _ _ _ _ (malloc_failed ntotal s Hmem)) in Hrun.
      simpl in Hrun. injection Hrun as <- <-. simpl.
      repeat (split; [done|]). done.
    + rewrite (bind_Ok _ _ _ _ _ (malloc_Ok ntotal s Hmem)) in Hrun.
      assert ((brk s =? NULL) = false) as Hnn
        by (apply Z.eqb_neq; unfold NULL; lia).
      rewrite Hnn in Hrun.
      erewrite bind_Ok in Hrun; [|apply (memset0_Ok _ _ (Block ntotal junk));
                                   simpl; apply lookup_insert_eq].
      simpl in Hrun. rewrite insert_insert_eq in Hrun.
      injection Hrun as <- <-. simpl.
      repeat (split; [done|]). split; [|done]. intros _.
      split; [by apply Z.eqb_neq|]. split; [|done].
      destruct (heap s !! brk s) as [b|] eqn:Hl; [|done].
      apply Hheap in Hl. lia.
  - intros Hnn. split; [|by apply Hnew].
    destruct Hc as [(? & _)|(_ & Hheld & _)]; done.
  - done.
Qed.

Lemma free_alloc2_recycle (it ntotal : Z) (s : state) (b : block) :
  wf s → held s it → heap s !! it = Some b →
  ITEM_ntotal (blk_item b) ≤ item_buf_size →
  freeitemcurr s < freeitemtotal s →
  ntotal ≤ item_buf_size →
  ∃ s1 s2,
    item_free it s = Ok 0 s1 ∧
    item_alloc2 ntotal s1 = Ok it s2 ∧
    trace s1 = trace s ++ [EPush it] ∧
    trace s2 = trace s ++ [EPush it; EPop it] ∧
    heap s1 = heap s ∧ pool s1 = pool s ++ [it] ∧
    heap s2 = heap s ∧ pool s2 = pool s ∧
    freeitemtotal s2 = freeitemtotal s ∧
    mem_script s2 = mem_script s ∧
    held s2 it ∧ wf s2.
Proof.
  intros Hwf Hheld Hb Hsz Hroom Hn.
  pose proof Hwf as (Hok & Hbrk & _).
  assert ((it =? NULL) = false) as Hnn by (by eapply held_not_null).
  assert (item_free it s = do_item_add_to_freelist it s) as Hfree.
  { unfold item_free. rewrite Hnn, (bind_Ok _ _ _ _ _ (load_Ok _ _ _ Hb)).
    cbv zeta. rewrite (proj2 (Z.ltb_ge _ _) Hsz).
    unfold item_add_to_freelist. rewrite (add_room it s Hok Hroom).
    unfold bind. rewrite (add_room it s Hok Hroom). done. }
  rewrite Hfree, (add_room it s Hok Hroom).
  match goal with |- ∃ _ _, Ok 0 ?st = _ ∧ _ => set (s1 := st) end.
  assert (pool s1 = pool s ++ [it]) as Hp1.
  { subst s1. unfold pool. simpl. destruct Hok as (? & ? & ?).
    replace (Z.to_nat (freeitemcurr s + 1)) with (S (Z.to_nat (freeitemcurr s))) by lia.
    apply pool_snoc. lia. }
  assert (pool_ok s1) as Hok1.
  { subst s1. destruct Hok as (? & ? & ?). unfold pool_ok. simpl.
    rewrite length_insert. repeat (split; [done || lia|]). lia. }
  assert (wf s1) as Hwf1 by (by apply (wf_push s s1 it)).
  destruct (from_pool s1 Hok1) as (p & _ & Hp & Hrun); [simpl; destruct Hok as (? & ? & ?); lia|].
  rewrite Hp1 in Hp. apply app_inj_tail in Hp as [Hbase <-].
  match type of Hrun with _ = Ok _ ?st => set (s2 := st) in * end.
  exists s1, s2. split; [done|].
  split; [by rewrite item_alloc2_small|]. split; [done|].
  assert (pool s2 = pool s) as Hp2.
  { subst s2. unfold pool at 1. simpl. replace (freeitemcurr s + 1 - 1) with (freeitemcurr s) by lia.
    unfold pool. simpl in Hbase.
    replace (freeitemcurr s + 1 - 1) with (freeitemcurr s) in Hbase by lia. done. }
  assert (pool_ok s2) as Hok2.
  { subst s2 s1. destruct Hok as (? & ? & ?). unfold pool_ok. simpl.
    rewrite length_insert. repeat (split; [done || lia|]). lia. }
  split; [subst s2 s1; simpl; by rewrite <- app_assoc|].
  split; [done|]. split; [done|].
  split; [done|]. split; [done|]. split; [done|]. split; [done|].
  split; [unfold held; by rewrite Hp2|].
  by apply (wf_frame s).
Qed.


(** X6.  A buffer released with a record of at most [item_buf_size] bytes
    into a freelist with room is the next one [item_alloc2] hands out for
    any such size: no [malloc], no [free], and the buffer comes back with
    the record it held. *)
Theorem item_free_then_alloc2_recycles (it ntotal : Z) (s : state) (b : block) :
  wf s → held s it → heap s !! it = Some b →
  ITEM_ntotal (blk_item b) ≤ item_buf_size →
  freeitemcurr s < freeitemtotal s →
  ntotal ≤ item_buf_size →
  ∃ s1 s2,
    item_free it s = Ok 0 s1 ∧
    item_alloc2 ntotal s1 = Ok it s2 ∧
    trace s2 = trace s ++ [EPush it; EPop it] ∧
    heap s2 = heap s ∧ pool s2 = pool s ∧
    freeitemtotal s2 = freeitemtotal s ∧
    mem_script s2 = mem_script s ∧
    held s2 it ∧ wf s2.
Proof.
  intros Hwf Hheld Hb Hsz Hroom Hn.
  destruct (free_alloc2_recycle it ntotal s b Hwf Hheld Hb Hsz Hroom Hn)
    as (s1 & s2 & Hfree & Halloc & _ & Htr & _ & _ & Hh & Hp & Ht & Hm & Hheld2 & Hwf2).
  by exists s1, s2.
Qed.

(** X7.  What the comment above [item_free] warns of ("it must be a full
    item"): a raw block of more than [item_buf_size] bytes from
    [item_alloc2], released before anything is written into it, has the
    header of an empty record; [item_free] puts it into the freelist instead
    of freeing it, and [item_alloc2] then hands it out for standard-size
    requests. *)
Theorem item_alloc2_raw_block_joins_freelist (ntotal m : Z) (s : state) :
  wf s →
  item_buf_size < ntotal →
  next_mem_fails s = false →
  ITEM_ntotal zero_item ≤ item_buf_size →
  freeitemcurr s < freeitemtotal s →
  m ≤ item_buf_size →
  ∃ it s1 s2 s3,
    item_alloc2 ntotal s = Ok it s1 ∧
    item_free it s1 = Ok 0 s2 ∧
    released (drop (length (trace s1)) (trace s2)) = [it] ∧
    pool s2 = pool s ++ [it] ∧
    heap s2 !! it = Some (Block ntotal zero_item) ∧
    item_alloc2 m s2 = Ok it s3 ∧
    heap s3 !! it = Some (Block ntotal zero_item).
Proof.
  intros Hwf Hbig Hmem Hzero Hroom Hm.
  destruct (item_alloc2_cases ntotal s Hwf)
    as (it & s1 & evs & Hrun & _ & _ & Hwf1 & _ & Hc).
  destruct Hc as [(_ & Hf & _)|(Hnn & Hheld & Hc)]; [congruence|].
  destruct Hc as [(_ & _ & _ & Hp1 & Hh1)|[(? & _)|(? & _)]]; [|lia|lia].
  assert (heap s1 !! it = Some (Block ntotal zero_item)) as Hb
    by (rewrite Hh1; apply lookup_insert_eq).
  assert (freeitemcurr s1 = freeitemcurr s ∧ freeitemtotal s1 = freeitemtotal s)
    as [Hc1 Ht1].
  { unfold item_alloc2 in Hrun. rewrite (proj2 (Z.ltb_lt _ _) Hbig) in Hrun.
    rewrite (bind_Ok _ _ _ _ _ (malloc_Ok ntotal s Hmem)) in Hrun.
    destruct (brk s =? NULL); [by injection Hrun as <- <-|].
    erewrite bind_Ok in Hrun; [|apply (memset0_Ok _ _ (Block ntotal junk));
                                 simpl; apply lookup_insert_eq].
    by injection Hrun as <- <-. }
  destruct (free_alloc2_recycle it m s1 _ Hwf1 Hheld Hb)
    as (s2 & s3 & Hfree & Halloc & Htr & _ & Hh2 & Hp2 & Hh3 & _);
    [done | lia | done |].
  exists it, s1, s2, s3. split; [done|]. split; [done|].
  split; [by rewrite Htr, drop_app_length|].
  split; [by rewrite Hp2, Hp1|]. split; [by rewrite Hh2|].
  split; [done|]. by rewrite Hh3.
Qed.

(** ** [item_alloc1], in full *)

(** [item_alloc1] is [item_alloc2] on the total of [item_make_header]
    followed by the writes into the buffer, which fault when a copy does
    not stay inside the block: nothing else changes. *)
Lemma item_alloc1_cases (key : string) (nkey flags nbytes : Z) (s : state) :
  wf s →
  ∃ suffix nsuffix ntotal it s0,
    item_make_header (uint8_t (nkey + 1)) flags nbytes
      = (suffix, nsuffix, ntotal) ∧
    item_alloc2 ntotal s = Ok it s0 ∧
    wf s0 ∧
    (it = NULL → item_alloc1 key nkey flags nbytes s = Ok NULL s0) ∧
    (it ≠ NULL →
       ∃ b0,
         heap s0 !! it = Some b0 ∧ held s0 it ∧ ntotal ≤ blk_cap b0 ∧
         (¬ item_fits (blk_cap b0) key nkey nsuffix →
            item_alloc1 key nkey flags nbytes s = Err MemFault) ∧
         (item_fits (blk_cap b0) key nkey nsuffix →
            ∃ s1,
              item_alloc1 key nkey flags nbytes s = Ok it s1 ∧
              wf s1 ∧
              heap s1 = <[it := Block (blk_cap b0)
                                  (filled key nkey nbytes suffix nsuffix
                                          (blk_item b0))]>
                          (heap s0) ∧
              pool s1 = pool s0 ∧ brk s1 = brk s0 ∧ trace s1 = trace s0 ∧
              mem_script s1 = mem_script s0 ∧ db_script s1 = db_script s0 ∧
              freeitemcurr s1 = freeitemcurr s0 ∧
              freeitemtotal s1 = freeitemtotal s0 ∧
              held s1 it)).
Proof.
  intros Hwf. rewrite item_alloc1_alloc2.
  destruct (item_make_header (uint8_t (nkey + 1)) flags nbytes)
    as [[suffix nsuffix] ntotal].
  destruct (item_alloc2_cases ntotal s Hwf)
    as (it & s0 & evs & Hrun & _ & _ & Hwf0 & _ & Hc).
  exists suffix, nsuffix, ntotal, it, s0.
  rewrite (bind_Ok _ _ _ _ _ Hrun).
  split; [done|]. split; [done|]. split; [done|]. split.
  { intros ->. done. }
  intros Hnn. rewrite (proj2 (Z.eqb_neq _ _) Hnn).
  destruct Hc as [(? & _)|(_ & Hheld & Hc)]; [done|].
  pose proof Hheld as [[b0 Hb0] Hout].
  exists b0. split; [done|]. split; [done|]. split.
  { destruct Hc as [(_ & _ & _ & _ & Hh)|[(? & _ & _ & _ & Hh)|(? & _)]].
    - rewrite Hh, lookup_insert_eq in Hb0. injection Hb0 as <-. simpl. lia.
    - rewrite Hh, lookup_insert_eq in Hb0. injection Hb0 as <-. simpl. lia.
    - destruct Hwf0 as (_ & _ & _ & _ & Hheap).
      apply Hheap in Hb0 as [_ Hcap]. lia. }
  split.
  { intros Hno. by apply (item_fill_fault _ _ _ _ _ _ _ b0). }
  intros Hfits. rewrite (item_fill_Ok _ _ _ _ _ _ _ _ Hb0 Hfits).
  eexists. split; [reflexivity|].
  match goal with |- wf ?st ∧ _ => set (s1 := st) end.
  destruct (wf_store s0 s1 it b0
              (filled key nkey nbytes suffix nsuffix (blk_item b0)) Hwf0 Hb0)
    as [Hwf1 Hheld1]; [apply Hwf0 | reflexivity | reflexivity | reflexivity |].
  split; [done|]. repeat (split; [done|]). by apply Hheld1.
Qed.

(** The same when the record fits whatever block holds its total: a run
    that returns. *)
Lemma item_alloc1_fit_cases (key : string) (nkey flags nbytes : Z) (s : state) :
  wf s →
  (∀ cap,
     (item_make_header (uint8_t (nkey + 1)) flags nbytes).2 ≤ cap →
     item_fits cap key nkey
       (item_make_header (uint8_t (nkey + 1)) flags nbytes).1.2) →
  ∃ suffix nsuffix ntotal it s0 s1,
    item_make_header (uint8_t (nkey + 1)) flags nbytes
      = (suffix, nsuffix, ntotal) ∧
    item_alloc2 ntotal s = Ok it s0 ∧
    item_alloc1 key nkey flags nbytes s = Ok it s1 ∧
    wf s1 ∧
    (it = NULL → s1 = s0) ∧
    (it ≠ NULL →
       ∃ b0,
         heap s0 !! it = Some b0 ∧
         heap s1 = <[it := Block (blk_cap b0)
                             (filled key nkey nbytes suffix nsuffix
                                     (blk_item b0))]>
                     (heap s0) ∧
         pool s1 = pool s0 ∧ brk s1 = brk s0 ∧ trace s1 = trace s0 ∧
         mem_script s1 = mem_script s0 ∧ db_script s1 = db_script s0 ∧
         freeitemcurr s1 = freeitemcurr s0 ∧
         freeitemtotal s1 = freeitemtotal s0 ∧
         held s0 it ∧ held s1 it).
Proof.
  intros Hwf Hfits.
  destruct (item_alloc1_cases key nkey flags nbytes s Hwf)
    as (suffix & nsuffix & ntotal & it & s0 & Hhdr & Halloc & Hwf0 & Hnull
        & Hfill).
  rewrite Hhdr in Hfits. cbn [fst snd] in Hfits.
  exists suffix, nsuffix, ntotal, it, s0.
  destruct (decide (it = NULL)) as [Hn|Hnn].
  - exists s0. rewrite (Hnull Hn). subst it. repeat (split; [done|]). done.
  - destruct (Hfill Hnn) as (b0 & Hb0 & Hheld0 & Hcap & _ & Hok).
    destruct (Hok (Hfits _ Hcap)) as (s1 & Hrun & Hwf1 & Hh & Hrest).
    exists s1. repeat (split; [done|]). intros _. exists b0.
    split; [done|]. split; [done|].
    destruct Hrest as (? & ? & ? & ? & ? & ? & ? & ?). done.
Qed.

(** X8.  A record built by [item_alloc1] and released by [item_free] leaves
    by the way it came.  Above [item_buf_size] the block comes from
    [malloc] and goes to [free], heap and freelist ending as they began.  At
    or below it the buffer comes from the freelist side and, the freelist
    having room, goes back into it without any [free]; when it was taken
    out of the freelist, the freelist ends as it began. *)
Theorem item_alloc1_free_round_trip (key : string) (nkey flags nbytes : Z)
    (s : state) :
  wf s →
  0 ≤ sizeof_item < 2 ^ 16 →
  0 ≤ nkey ≤ 254 →
  strlen key = nkey →
  INT_MIN ≤ flags ≤ INT_MAX →
  0 ≤ nbytes ≤ INT_MAX →
  ∃ suffix nsuffix ntotal it s1,
    item_make_header (uint8_t (nkey + 1)) flags nbytes
      = (suffix, nsuffix, ntotal) ∧
    item_alloc1 key nkey flags nbytes s = Ok it s1 ∧
    (it ≠ NULL →
       ∃ s2 evs,
         item_free it s1 = Ok 0 s2 ∧
         trace s2 = trace s1 ++ evs ∧
         (item_buf_size < ntotal →
            evs = [EFree it] ∧ heap s2 = heap s ∧ pool s2 = pool s ∧
            trace s2 = trace s ++ [EMalloc ntotal it; EFree it]) ∧
         (ntotal ≤ item_buf_size → freeitemcurr s1 < freeitemtotal s1 →
            evs = [EPush it] ∧ heap s2 = heap s1 ∧
            pool s2 = pool s1 ++ [it] ∧
            (0 < freeitemcurr s → pool s2 = pool s))).
Proof.
  intros Hwf Hsz Hk Hstr Hf Hn. unfold INT_MAX in Hn.
  destruct (item_make_header_eq (uint8_t (nkey + 1)) flags nbytes Hf)
    as [Hlen Heq].
  set (text := fmt_suffix flags (int (nbytes - 2))) in *.
  set (n := Z.of_nat (String.length text)) in *.
  assert (uint8_t (nkey + 1) = nkey + 1) as Hk1.
  { unfold uint8_t. change (2 ^ 8) with 256. apply Z.mod_small. lia. }
  assert (uint8_t nkey = nkey) as Hk0.
  { unfold uint8_t. change (2 ^ 8) with 256. apply Z.mod_small. lia. }
  set (total := sizeof_item + (nkey + 1) + n + nbytes).
  assert (size_t total = total) as Hst.
  { unfold size_t. apply Z.mod_small. subst total. lia. }
  rewrite Hk1 in Heq. fold total in Heq. rewrite Hst in Heq.
  destruct (item_alloc1_fit_cases key nkey flags nbytes s Hwf)
    as (suffix & nsuffix & ntotal & it & s0 & s1 & Hhdr & Halloc & Hrun
        & Hwf1 & _ & Hfill).
  { intros cap. rewrite Hk1, Heq. cbn [fst snd]. intros Hcap.
    unfold item_fits, ITEM_key. rewrite Hk0, Hstr. subst total. lia. }
  rewrite Hk1, Heq in Hhdr. injection Hhdr as <- <- <-.
  exists text, n, total, it, s1. rewrite Hk1.
  split; [done|]. split; [done|]. intros Hnn.
  destruct (Hfill Hnn) as (b0 & Hb0 & Hh1 & Hp1 & _ & Htr1 & _ & _ & Hc1 & Ht1
                           & Hheld0 & Hheld1).
  destruct (item_free_cases it s1 Hwf1 Hheld1)
    as (s2 & evs & b & Hb & Hfree & Htr2 & _ & _ & _ & _ & Hc).
  rewrite Hh1, lookup_insert_eq in Hb. injection Hb as <-.
  assert (ITEM_ntotal (filled key nkey nbytes text n (blk_item b0)) = total)
    as Hit.
  { unfold ITEM_ntotal, filled. simpl.
    rewrite Hk0, <- Hst. f_equal. subst total. lia. }
  cbn [blk_item] in Hc. rewrite Hit in Hc.
  destruct (item_alloc2_cases total s Hwf)
    as (it' & s0' & evs0 & Halloc' & Htr0 & _ & _ & _ & Hc0).
  rewrite Halloc in Halloc'. injection Halloc' as <- <-.
  destruct Hc0 as [(? & _)|(_ & _ & Hc0)]; [done|].
  exists s2, evs. split; [done|]. split; [done|]. split.
  - intros Hbig.
    destruct Hc as [(? & _)|[(? & _)|(_ & Hp2 & Hh2 & _ & _ & _ & _ & ->)]];
      [lia | lia |].
    destruct Hc0 as [(_ & -> & Hnone & Hp0 & Hh0)|[(? & _)|(? & _)]]; [|lia|lia].
    split; [done|]. split.
    { rewrite Hh2, Hh1, Hh0, insert_insert_eq, delete_insert_id; done. }
    split; [by rewrite Hp2, Hp1, Hp0|].
    by rewrite Htr2, Htr1, Htr0, <- app_assoc.
  - intros Hsmall Hroom.
    destruct Hwf1 as (Hok1 & _).
    assert (item_free it s1 = do_item_add_to_freelist it s1) as Hfree'.
    { unfold item_free.
      rewrite (proj2 (Z.eqb_neq _ _) Hnn).
      erewrite bind_Ok; [|apply load_Ok; rewrite Hh1; apply lookup_insert_eq].
      cbv zeta. cbn [blk_item]. rewrite Hit.
      rewrite (proj2 (Z.ltb_ge _ _) Hsmall).
      unfold item_add_to_freelist, bind. by rewrite (add_room it s1 Hok1 Hroom). }
    rewrite Hfree', (add_room it s1 Hok1 Hroom) in Hfree.
    injection Hfree as <-. simpl in Htr2. apply app_inv_head in Htr2 as <-.
    simpl. split; [done|]. split; [done|].
    assert (take (Z.to_nat (freeitemcurr s1 + 1))
              (<[Z.to_nat (freeitemcurr s1) := it]> (freeitem s1))
            = pool s1 ++ [it]) as Hp2.
    { destruct Hok1 as (? & ? & ?).
      replace (Z.to_nat (freeitemcurr s1 + 1))
        with (S (Z.to_nat (freeitemcurr s1))) by lia.
      apply pool_snoc. lia. }
    unfold pool at 1. simpl. split; [exact Hp2|].
    intros Hpos. unfold pool at 1. simpl. rewrite Hp2, Hp1.
    destruct Hc0 as [(? & _)|[(_ & _ & Hnone & Hp0 & _)|(_ & _ & Hp0 & _)]];
      [lia | | by rewrite Hp0].
    exfalso. pose proof Hwf as (Hok & Hbrk & _).
    rewrite (item_alloc2_small _ _ Hsmall) in Halloc.
    destruct (from_freelist_cases s Hok Hbrk)
      as (p & s' & evs' & Hrun' & _ & _ & _ & _ & _ & _ & Hcase).
    rewrite Halloc in Hrun'. injection Hrun' as <- <-.
    destruct Hcase as [(_ & _ & Hpp & _)|[(? & _)|(? & _)]]; try lia.
    destruct Hheld0 as [_ Hout]. rewrite Hp0 in Hout. apply Hout.
    rewrite Hpp, Hp0. apply elem_of_app. right. by apply list_elem_of_singleton.
Qed.

(** ** One turn of the loop of [item_get] *)

Lemma dbp_get_runs (key : string) (nkey it ulen : Z) (s s1 : state)
    (x : Z * Z) :
  wf s → held s it → dbp_get key nkey it ulen s = Ok x s1 →
  ∃ r rest b,
    db_script s = r :: rest ∧ x = (rep_ret r, rep_size r) ∧
    db_script s1 = rest ∧ mem_script s1 = mem_script s ∧
    trace s1 = trace s ++ [EDbGet key nkey it ulen (rep_ret r)] ∧
    wf s1 ∧ held s1 it ∧ pool s1 = pool s ∧
    heap s !! it = Some b ∧
    heap s1 = <[it := Block (blk_cap b) (default (blk_item b) (rep_data r))]>
                (heap s).
Proof.
  intros Hwf Hheld Hrun. pose proof Hheld as [[b Hb] Hout].
  destruct (db_script s) as [|r rest] eqn:Hs.
  { unfold dbp_get, bind, db_next in Hrun. by rewrite Hs in Hrun. }
  destruct (dbp_get_held key nkey it ulen s r rest Hwf Hheld Hs)
    as (s1' & b' & Hrun' & Htr & Hdb & Hms & Hwf1 & Hheld1 & Hb' & _).
  rewrite Hrun in Hrun'. injection Hrun' as -> <-.
  rewrite Hb in Hb'. injection Hb' as <-.
  exists r, rest, b. repeat (split; [done|]).
  clear Hwf1 Hheld1 Htr Hdb Hms.
  destruct s as [h b' a t c ms ds tr]; simpl in *. subst ds.
  unfold dbp_get in Hrun. revert Hrun. mrun. destruct (rep_data r) as [i|].
  - rewrite (store_Ok it _ _ b) by done. mrun. intros Hrun.
    injection Hrun as <-. done.
  - mrun. intros Hrun. injection Hrun as <-. simpl.
    split; [done|]. split; [done|]. rewrite insert_id; [done|].
    by destruct b.
Qed.

Lemma item_get_loop_step (key : string) (nkey : Z) (fuel : nat)
    (s s' : state) (it ulen r : Z) :
  wf s → held s it →
  item_get_loop (S fuel) key nkey it ulen s = Ok r s' →
  ∃ rep s1,
    dbp_get key nkey it ulen s = Ok (rep_ret rep, rep_size rep) s1 ∧
    ((rep_ret rep = DB_BUFFER_SMALL ∧
      ∃ s2 it' s3,
        item_free it s1 = Ok 0 s2 ∧
        item_alloc2 (rep_size rep) s2 = Ok it' s3 ∧
        ((it' = NULL ∧ r = NULL ∧ s' = s3) ∨
         (it' ≠ NULL ∧
          item_get_loop fuel key nkey it' (rep_size rep) s3 = Ok r s'))) ∨
     (rep_ret rep ≠ DB_BUFFER_SMALL ∧ rep_ret rep = 0 ∧ r = it ∧ s' = s1) ∨
     (rep_ret rep ≠ DB_BUFFER_SMALL ∧ rep_ret rep ≠ 0 ∧ r = NULL ∧
      item_free it s1 = Ok 0 s')).
Proof.
  intros Hwf Hheld Hrun. simpl in Hrun. unfold bind at 1 in Hrun.
  destruct (dbp_get key nkey it ulen s) as [x s1|e] eqn:Hget; [|done].
  destruct (dbp_get_runs _ _ _ _ _ _ _ Hwf Hheld Hget)
    as (rep & rest & b & _ & -> & _ & _ & _ & Hwf1 & Hheld1 & _).
  exists rep, s1. split; [done|]. cbv zeta in Hrun. cbn [fst snd] in Hrun.
  destruct (item_free_held it s1 Hwf1 Hheld1)
    as (s2 & evs2 & Hfree & _ & _ & _ & Hwf2 & _).
  destruct (rep_ret rep =? DB_BUFFER_SMALL) eqn:Hsmall;
    [apply Z.eqb_eq in Hsmall | apply Z.eqb_neq in Hsmall].
  - left. split; [done|].
    rewrite (bind_Ok _ _ _ _ _ Hfree) in Hrun.
    destruct (item_alloc2_held (rep_size rep) s2 Hwf2)
      as (it' & s3 & evs3 & Halloc & _).
    rewrite (bind_Ok _ _ _ _ _ Halloc) in Hrun.
    exists s2, it', s3. split; [done|]. split; [done|].
    destruct (it' =? NULL) eqn:Hnn;
      [apply Z.eqb_eq in Hnn | apply Z.eqb_neq in Hnn].
    + left. by injection Hrun as <- <-.
    + by right.
  - right. destruct (rep_ret rep =? 0) eqn:H0;
      [apply Z.eqb_eq in H0 | apply Z.eqb_neq in H0].
    + left. by injection Hrun as <- <-.
    + right. split; [done|]. split; [done|].
      assert ((item_free it;; pure NULL) s1 = Ok r s') as Hrun'
        by (by destruct (rep_ret rep =? DB_NOTFOUND)).
      rewrite (bind_Ok _ _ _ _ _ Hfree) in Hrun'. by injection Hrun' as <- <-.
Qed.

(** ** Buffers in other hands, through [item_get] *)

Lemma dbp_get_frame (key : string) (nkey it ulen : Z) (s s1 : state)
    (x : Z * Z) :
  wf s → held s it → dbp_get key nkey it ulen s = Ok x s1 →
  others_kept s s1 it.
Proof.
  intros Hwf Hheld Hrun.
  destruct (dbp_get_runs _ _ _ _ _ _ _ Hwf Hheld Hrun)
    as (r & rest & b & _ & _ & _ & _ & _ & _ & _ & Hp & _ & Hh).
  intros q Hne [Hq Hout]. unfold held.
  rewrite Hp, Hh, lookup_insert_ne by done. done.
Qed.

Lemma others_kept_trans (s s1 s2 : state) (it : Z) :
  others_kept s s1 it → others_kept s1 s2 it → others_kept s s2 it.
Proof.
  intros H1 H2 q Hne Hq. destruct (H1 q Hne Hq) as [Hq1 He1].
  destruct (H2 q Hne Hq1) as [Hq2 He2]. split; [done | congruence].
Qed.

Lemma item_get_loop_frame (key : string) (nkey : Z) (fuel : nat) :
  ∀ (s s' : state) (it ulen r : Z),
    wf s → held s it →
    item_get_loop fuel key nkey it ulen s = Ok r s' →
    wf s' ∧ (r ≠ NULL → held s' r) ∧
    others_kept s s' it ∧
    (∀ q, q ≠ it → held s q → q ≠ r).
Proof.
  induction fuel as [|fuel IH]; intros s s' it ulen r Hwf Hheld Hrun; [done|].
  destruct (item_get_loop_step _ _ _ _ _ _ _ _ Hwf Hheld Hrun)
    as (rep & s1 & Hget & Hc).
  pose proof (dbp_get_frame _ _ _ _ _ _ _ Hwf Hheld Hget) as Hk1.
  destruct (dbp_get_runs _ _ _ _ _ _ _ Hwf Hheld Hget)
    as (_ & _ & _ & _ & _ & _ & _ & _ & Hwf1 & Hheld1 & _).
  assert (∀ q, q ≠ it → held s q → q ≠ NULL) as Hnull.
  { intros q _ Hq. apply Z.eqb_neq. exact (held_not_null s q Hwf Hq). }
  assert (∀ s2, item_free it s1 = Ok 0 s2 →
            wf s2 ∧ others_kept s s2 it) as Hfree.
  { intros s2 Hf. split.
    - destruct (item_free_held it s1 Hwf1 Hheld1) as (s2' & ? & Hf' & _ & _ & _ & ? & _).
      rewrite Hf in Hf'. by injection Hf' as <-.
    - eapply others_kept_trans; [done|]. by eapply item_free_frame. }
  destruct Hc as [(_ & s2 & it' & s3 & Hf & Halloc & Hc)|
    [(_ & _ & -> & ->)|(_ & _ & -> & Hf)]].
  - destruct (Hfree s2 Hf) as [Hwf2 Hk2].
    destruct (item_alloc2_frame _ _ _ _ Hwf2 Halloc) as [Hnew Hk3].
    assert (wf s3) as Hwf3.
    { destruct (item_alloc2_held (rep_size rep) s2 Hwf2)
        as (? & ? & ? & Ha & _ & _ & _ & ? & _).
      rewrite Halloc in Ha. by injection Ha as <- <-. }
    assert (others_kept s s3 it) as Hk.
    { intros q Hne Hq. destruct (Hk2 q Hne Hq) as [Hq2 He2].
      destruct (Hk3 q Hq2) as [Hq3 He3]. split; [done | congruence]. }
    destruct Hc as [(-> & -> & ->)|(Hnn & Hloop)].
    + split; [done|]. split; [done|]. split; [done|]. done.
    + assert (held s3 it') as Hheld3.
      { destruct (item_alloc2_held (rep_size rep) s2 Hwf2)
          as (? & ? & ? & Ha & _ & _ & _ & _ & _ & Hh).
        rewrite Halloc in Ha. injection Ha as <- <-. by apply Hh. }
      destruct (IH _ _ _ _ _ Hwf3 Hheld3 Hloop) as (Hwf' & Hret & Hk' & Hne').
      split; [done|]. split; [done|].
      assert (∀ q, q ≠ it → held s q → q ≠ it' ∧ held s3 q) as Hq3.
      { intros q Hne Hq. destruct (Hk q Hne Hq) as [Hq3 _]. split; [|done].
        intros ->. destruct (Hk2 it' Hne Hq) as [Hq2 _]. by apply Hnew. }
      split.
      * intros q Hne Hq. destruct (Hq3 q Hne Hq) as [Hne3 Hheld3'].
        destruct (Hk q Hne Hq) as [_ He]. destruct (Hk' q Hne3 Hheld3') as [? He'].
        split; [done | congruence].
      * intros q Hne Hq. destruct (Hq3 q Hne Hq) as [Hne3 Hheld3'].
        by apply Hne'.
  - split; [done|]. split; [done|]. split; [done|]. done.
  - destruct (Hfree s' Hf) as [Hwf2 Hk2].
    split; [done|]. split; [done|]. split; [done|]. done.
Qed.

Lemma item_get_frame (key : string) (nkey : Z) (s s' : state) (r : Z) :
  wf s → item_get key nkey s = Ok r s' →
  wf s' ∧ all_kept s s' ∧ (r ≠ NULL → held s' r ∧ ¬ held s r).
Proof.
  intros Hwf Hrun. unfold item_get in Hrun. unfold bind at 1 in Hrun.
  destruct (item_alloc2 item_buf_size s) as [it s1|e] eqn:Halloc; [|done].
  destruct (item_alloc2_frame _ _ _ _ Hwf Halloc) as [Hnew Hk1].
  destruct (item_alloc2_held item_buf_size s Hwf)
    as (? & ? & ? & Ha & _ & _ & _ & Hwf1 & _ & Hheld1).
  rewrite Halloc in Ha. injection Ha as <- <-.
  change (it =? 0) with (it =? NULL) in Hrun.
  destruct (it =? NULL) eqn:Hnn;
    [apply Z.eqb_eq in Hnn | apply Z.eqb_neq in Hnn].
  - injection Hrun as <- <-. done.
  - destruct (Hheld1 Hnn) as [Hheld _].
    unfold bind at 1, gets at 1 in Hrun.
    destruct (item_get_loop_frame _ _ _ _ _ _ _ _ Hwf1 Hheld Hrun)
      as (Hwf' & Hret & Hk & Hne).
    assert (∀ q, held s q → q ≠ it ∧ held s1 q) as Hq1.
    { intros q Hq. destruct (Hk1 q Hq) as [? _]. split; [|done].
      intros ->. by apply Hnew. }
    split; [done|]. split.
    + intros q Hq. destruct (Hq1 q Hq) as [Hne1 Hh1].
      destruct (Hk1 q Hq) as [_ He1]. destruct (Hk q Hne1 Hh1) as [? He].
      split; [done | congruence].
    + intros Hr. split; [by apply Hret|]. intros Hq.
      destruct (Hq1 r Hq) as [Hne1 Hh1]. by apply (Hne r Hne1 Hh1).
Qed.

Lemma item_alloc1_frame (key : string) (nkey flags nbytes : Z)
    (s s' : state) (r : Z) :
  wf s → item_alloc1 key nkey flags nbytes s = Ok r s' →
  wf s' ∧ all_kept s s' ∧ (r ≠ NULL → held s' r ∧ ¬ held s r).
Proof.
  intros Hwf Hrun.
  destruct (item_alloc1_cases key nkey flags nbytes s Hwf)
    as (suffix & nsuffix & ntotal & it & s0 & _ & Halloc & Hwf0 & Hnull
        & Hfill).
  destruct (item_alloc2_frame _ _ _ _ Hwf Halloc) as [Hnew Hk0].
  destruct (decide (it = NULL)) as [Hn|Hnn].
  - rewrite (Hnull Hn) in Hrun. injection Hrun as <- <-. done.
  - destruct (Hfill Hnn) as (b0 & Hb0 & Hheld0 & _ & Hbad & Hok).
    assert (item_fits (blk_cap b0) key nkey nsuffix ∨
            ¬ item_fits (blk_cap b0) key nkey nsuffix) as [Hf|Hf]
      by (unfold item_fits; lia).
    + destruct (Hok Hf) as (s1 & Hrun1 & Hwf1 & Hh & Hp & _ & _ & _ & _ & _
                            & _ & Hheld1).
      rewrite Hrun in Hrun1. injection Hrun1 as -> ->.
      split; [done|]. split.
      * intros q Hq. destruct (Hk0 q Hq) as [[Hlive Hout] He].
        assert (it ≠ q) by (intros ->; by apply Hnew).
        unfold held. rewrite Hp, Hh, lookup_insert_ne by done. done.
      * intros _. split; [done | by apply Hnew].
    + by rewrite (Hbad Hf) in Hrun.
Qed.

Lemma item_put_frame (key : string) (nkey it : Z) (s s' : state) (r : Z) :
  item_put key nkey it s = Ok r s' →
  heap s' = heap s ∧ brk s' = brk s ∧ freeitem s' = freeitem s ∧
  freeitemtotal s' = freeitemtotal s ∧ freeitemcurr s' = freeitemcurr s ∧
  mem_script s' = mem_script s ∧ is_Some (heap s !! it).
Proof.
  unfold item_put, load, dbp_put. destruct s as [h b a t c ms ds tr]. mrun.
  destruct (h !! it) as [blk|]; [|done]. mrun.
  destruct ds as [|d ds]; [done|]. mrun.
  destruct (rep_ret d =? 0); intros Hrun; injection Hrun as <- <-; simpl; eauto 10.
Qed.

Lemma item_delete_frame (key : string) (nkey : Z) (s s' : state) (r : Z) :
  item_delete key nkey s = Ok r s' →
  heap s' = heap s ∧ brk s' = brk s ∧ freeitem s' = freeitem s ∧
  freeitemtotal s' = freeitemtotal s ∧ freeitemcurr s' = freeitemcurr s ∧
  mem_script s' = mem_script s.
Proof.
  unfold item_delete, dbp_del. destruct s as [h b a t c ms ds tr]. mrun.
  destruct ds as [|d ds]; [done|]. mrun.
  destruct (rep_ret d =? 0); [|destruct (rep_ret d =? DB_NOTFOUND)];
    intros Hrun; injection Hrun as <- <-; done.
Qed.

Lemma item_exists_frame (key : string) (nkey : Z) (s s' : state) (r : Z) :
  item_exists key nkey s = Ok r s' →
  heap s' = heap s ∧ brk s' = brk s ∧ freeitem s' = freeitem s ∧
  freeitemtotal s' = freeitemtotal s ∧ freeitemcurr s' = freeitemcurr s ∧
  mem_script s' = mem_script s.
Proof.
  unfold item_exists, dbp_exists. destruct s as [h b a t c ms ds tr]. mrun.
  destruct ds as [|d ds]; [done|]. mrun.
  destruct (rep_ret d =? 0); intros Hrun; injection Hrun as <- <-; done.
Qed.

Lemma untouched_kept (s s' : state) :
  wf s → heap s' = heap s → brk s' = brk s → freeitem s' = freeitem s →
  freeitemtotal s' = freeitemtotal s → freeitemcurr s' = freeitemcurr s →
  wf s' ∧ all_kept s s' ∧ pool s' = pool s.
Proof.
  intros Hwf Hh Hb Ha Ht Hc.
  assert (pool s' = pool s) as Hp by (unfold pool; by rewrite Ha, Hc).
  split; [|split; [|done]].
  - apply (wf_frame s); try done. destruct Hwf as ((? & ? & ?) & _).
    unfold pool_ok. by rewrite Ha, Ht, Hc.
  - intros q Hq. unfold held. by rewrite Hp, Hh.
Qed.

(** X9.  Whatever call of item.c returns, the state stays well-formed (the
    freelist holds live, pairwise different buffers) and the buffers in
    callers' hands stay there with their contents: [item_alloc1],
    [item_alloc2] and [item_get] return NULL or a buffer that was in no
    caller's hands and now is; [item_free] of a buffer a caller holds takes
    that one buffer out of the caller's hands and no other; [item_put],
    [item_delete] and [item_exists] change neither heap nor freelist.  A
    call of [item_alloc1] that copies key or suffix past the end of its
    block does not return: it is a fault, and no run of it is among those
    the statement is about. *)
Theorem api_call_keeps_ownership (c : api_call) (s s' : state) (r : Z) :
  wf s →
  match c with
  | CallFree it => it = NULL ∨ held s it
  | _ => True
  end →
  api_run c s = Ok r s' →
  wf s' ∧
  match c with
  | CallFree it => others_kept s s' it ∧ (it ≠ NULL → ¬ held s' it)
  | CallAlloc1 _ _ _ _ | CallAlloc2 _ | CallGet _ _ =>
      all_kept s s' ∧ (r ≠ NULL → held s' r ∧ ¬ held s r)
  | CallPut _ _ _ | CallDelete _ _ | CallExists _ _ =>
      all_kept s s' ∧ heap s' = heap s ∧ pool s' = pool s
  end.
Proof.
  intros Hwf Hpre Hrun. destruct c; simpl in Hrun.
  - by eapply item_alloc1_frame.
  - destruct (item_alloc2_frame _ _ _ _ Hwf Hrun) as [Hnew Hk].
    destruct (item_alloc2_held ntotal s Hwf)
      as (? & ? & ? & Ha & _ & _ & _ & Hwf1 & _ & Hheld1).
    rewrite Hrun in Ha. injection Ha as <- <-.
    split; [done|]. split; [done|]. intros Hr.
    split; [by apply Hheld1 | by apply Hnew].
  - destruct Hpre as [->|Hheld].
    + injection Hrun as <- <-. split; [done|]. split; [|done].
      by intros q _ Hq.
    + destruct (item_free_cases it s Hwf Hheld)
        as (s1 & evs & b & _ & Hrun' & _ & _ & _ & _ & Hwf' & Hc).
      rewrite Hrun in Hrun'. injection Hrun' as -> <-.
      split; [done|]. split; [by eapply item_free_frame|].
      intros _ [[b' Hb'] Hout].
      destruct Hc as [(_ & _ & Hp & _)|[(_ & _ & _ & Hh & _)|(_ & _ & Hh & _)]].
      * apply Hout. rewrite Hp. apply elem_of_app. right.
        by apply list_elem_of_singleton.
      * by rewrite Hh, lookup_delete_eq in Hb'.
      * by rewrite Hh, lookup_delete_eq in Hb'.
  - by eapply item_get_frame.
  - destruct (item_put_frame _ _ _ _ _ _ Hrun) as (Hh & Hb & Ha & Ht & Hc & _).
    destruct (untouched_kept s s' Hwf Hh Hb Ha Ht Hc) as (? & ? & ?). done.
  - destruct (item_delete_frame _ _ _ _ _ Hrun) as (Hh & Hb & Ha & Ht & Hc & _).
    destruct (untouched_kept s s' Hwf Hh Hb Ha Ht Hc) as (? & ? & ?). done.
  - destruct (item_exists_frame _ _ _ _ _ Hrun) as (Hh & Hb & Ha & Ht & Hc & _).
    destruct (untouched_kept s s' Hwf Hh Hb Ha Ht Hc) as (? & ? & ?). done.
Qed.

(** ** Store reads stay inside their buffers *)







(** ** [item_get] through any number of resizes *)

Lemma item_get_loop_settles (key : string) (nkey : Z) (smalls : list db_reply) :
  ∀ (fuel : nat) (s : state) (it ulen : Z) (r : db_reply) (rest : list db_reply),
    wf s → held s it → mem_script s = [] →
    Forall (λ x, rep_ret x = DB_BUFFER_SMALL) smalls →
    rep_ret r ≠ DB_BUFFER_SMALL →
    db_script s = smalls ++ r :: rest →
    (length smalls < fuel)%nat →
    ∃ v s' evs,
      item_get_loop fuel key nkey it ulen s = Ok v s' ∧
      trace s' = trace s ++ evs ∧
      db_script s' = rest ∧
      read_log evs = zip (ulen :: map rep_size smalls)
                         (map rep_ret (smalls ++ [r])) ∧
      (rep_ret r = 0 →
         v ≠ NULL ∧ held s' v ∧
         ∃ b, heap s' !! v = Some b ∧
              ∀ i, rep_data r = Some i → blk_item b = i) ∧
      (rep_ret r ≠ 0 → v = NULL).
Proof.
  induction smalls as [|x smalls IH];
    intros fuel s it ulen r rest Hwf Hheld Hms Hall Hr Hs Hfuel;
    (destruct fuel as [|fuel]; [simpl in Hfuel; lia|]).
  - simpl in Hs.
    destruct (dbp_get_held key nkey it ulen s r rest Hwf Hheld Hs)
      as (s1 & b & Hget & Htr1 & Hdb1 & Hms1 & Hwf1 & Hheld1 & Hb & Hb1).
    simpl item_get_loop. rewrite (bind_Ok _ _ _ _ _ Hget). cbv zeta. cbn [fst snd].
    apply Z.eqb_neq in Hr. rewrite Hr.
    destruct (rep_ret r =? 0) eqn:H0;
      [apply Z.eqb_eq in H0 | apply Z.eqb_neq in H0].
    + exists it, s1, [EDbGet key nkey it ulen (rep_ret r)].
      split; [done|]. split; [done|]. split; [done|]. split; [done|].
      split; [|done]. intros _.
      split; [apply Z.eqb_neq; exact (held_not_null s it Hwf Hheld)|].
      split; [done|]. eexists. split; [exact Hb1|].
      intros i Hi. by rewrite Hi.
    + destruct (item_free_held it s1 Hwf1 Hheld1)
        as (s2 & evs2 & Hfree & Htr2 & Hdb2 & _ & Hwf2 & Hsh2).
      destruct (free_shape_facts it evs2 Hsh2) as (_ & _ & _ & _ & Hg2).
      exists NULL, s2, ([EDbGet key nkey it ulen (rep_ret r)] ++ evs2).
      split. { destruct (rep_ret r =? DB_NOTFOUND);
                 by rewrite (bind_Ok _ _ _ _ _ Hfree). }
      split; [by rewrite Htr2, Htr1, <- app_assoc|].
      split; [by rewrite Hdb2|].
      split. { rewrite read_log_app. unfold read_log at 2. by rewrite Hg2. }
      done.
  - simpl in Hs. apply Forall_cons in Hall as [Hx Hall].
    destruct (dbp_get_held key nkey it ulen s x _ Hwf Hheld Hs)
      as (s1 & b & Hget & Htr1 & Hdb1 & Hms1 & Hwf1 & Hheld1 & _).
    simpl item_get_loop. rewrite (bind_Ok _ _ _ _ _ Hget). cbv zeta. cbn [fst snd].
    rewrite Hx, Z.eqb_refl.
    destruct (item_free_held it s1 Hwf1 Hheld1)
      as (s2 & evs2 & Hfree & Htr2 & Hdb2 & Hms2 & Hwf2 & Hsh2).
    destruct (free_shape_facts it evs2 Hsh2) as (_ & _ & _ & _ & Hg2).
    rewrite (bind_Ok _ _ _ _ _ Hfree).
    destruct (item_alloc2_held (rep_size x) s2 Hwf2)
      as (it' & s3 & evs3 & Halloc & Htr3 & Hdb3 & Hms3 & Hwf3 & Hsh3 & Hheld3).
    destruct (alloc_shape_facts it' evs3 Hsh3) as (_ & _ & _ & Hg3).
    rewrite (bind_Ok _ _ _ _ _ Halloc).
    assert (mem_script s2 = []) as Hm2 by (apply Hms2; congruence).
    destruct (Hms3 Hm2) as [Hm3 Hnn]. destruct (Hheld3 Hnn) as [Hh3 _].
    apply Z.eqb_neq in Hnn. rewrite Hnn.
    destruct (IH fuel s3 it' (rep_size x) r rest Hwf3 Hh3 Hm3 Hall Hr)
      as (v & s' & evs & Hloop & Htr & Hdb & Hlog & Hres);
      [congruence | simpl in Hfuel; lia |].
    exists v, s', ([EDbGet key nkey it ulen DB_BUFFER_SMALL] ++ evs2 ++ evs3 ++ evs).
    split; [done|].
    split; [by rewrite Htr, Htr3, Htr2, Htr1, Hx, <- !app_assoc|].
    split; [done|]. split; [|done].
    rewrite !read_log_app, Hlog. unfold read_log at 2 3. rewrite Hg2, Hg3.
    simpl. by rewrite Hx.
Qed.

(** X11.  With memory available, [item_get] reads until the store gives an
    answer other than DB_BUFFER_SMALL, however many resizes that takes, and
    uses up exactly the answers up to that one.  The first read is told of
    [item_buf_size] bytes, as the [u_int32_t] that [dbdata.ulen] is, and
    each later read of the size the answer before it declared.  The call returns a buffer exactly when the last answer
    is 0, and that buffer holds the record the store wrote on that read. *)
Theorem item_get_reads_until_settled (key : string) (nkey : Z) (s : state)
    (smalls : list db_reply) (r : db_reply) (rest : list db_reply) :
  wf s → mem_script s = [] →
  Forall (λ x, rep_ret x = DB_BUFFER_SMALL) smalls →
  rep_ret r ≠ DB_BUFFER_SMALL →
  db_script s = smalls ++ r :: rest →
  ∃ v s' evs,
    item_get key nkey s = Ok v s' ∧
    trace s' = trace s ++ evs ∧
    db_script s' = rest ∧
    read_log evs = zip (uint32_t item_buf_size :: map rep_size smalls)
                       (map rep_ret (smalls ++ [r])) ∧
    (rep_ret r = 0 →
       v ≠ NULL ∧ held s' v ∧
       ∃ b, heap s' !! v = Some b ∧
            ∀ i, rep_data r = Some i → blk_item b = i) ∧
    (rep_ret r ≠ 0 → v = NULL).
Proof.
  intros Hwf Hms Hall Hr Hs. unfold item_get.
  destruct (item_alloc2_held item_buf_size s Hwf)
    as (it & s1 & evs1 & Halloc & Htr1 & Hdb1 & Hms1 & Hwf1 & Hsh1 & Hheld1).
  destruct (alloc_shape_facts it evs1 Hsh1) as (_ & _ & _ & Hg1).
  rewrite (bind_Ok _ _ _ _ _ Halloc).
  destruct (Hms1 Hms) as [Hm1 Hnn]. destruct (Hheld1 Hnn) as [Hh1 _].
  apply Z.eqb_neq in Hnn. change (it =? 0) with (it =? NULL). rewrite Hnn.
  unfold bind at 1, gets at 1.
  destruct (item_get_loop_settles key nkey smalls (length (db_script s1)) s1 it
              (uint32_t item_buf_size) r rest Hwf1 Hh1 Hm1 Hall Hr)
    as (v & s' & evs & Hloop & Htr & Hdb & Hlog & Hres);
    [congruence | rewrite Hdb1, Hs, length_app; simpl; lia |].
  exists v, s', (evs1 ++ evs). split; [done|].
  split; [by rewrite Htr, Htr1, <- app_assoc|]. split; [done|].
  split; [|done]. rewrite read_log_app. unfold read_log at 1. by rewrite Hg1.
Qed.

(** ** What the result of [item_get] tells *)

Lemma item_free_runs (it : Z) (s s' : state) :
  wf s → held s it → item_free it s = Ok 0 s' →
  ∃ evs, trace s' = trace s ++ evs ∧ wf s' ∧ free_shape it evs.
Proof.
  intros Hwf Hheld Hrun.
  destruct (item_free_held it s Hwf Hheld)
    as (s1 & evs & Hrun' & Htr & _ & _ & Hwf' & Hsh).
  rewrite Hrun in Hrun'. injection Hrun' as <-. by exists evs.
Qed.

Lemma item_alloc2_runs (ntotal : Z) (s s' : state) (it : Z) :
  wf s → item_alloc2 ntotal s = Ok it s' →
  ∃ evs, trace s' = trace s ++ evs ∧ wf s' ∧ alloc_shape it evs ∧
         (it ≠ NULL → held s' it).
Proof.
  intros Hwf Hrun.
  destruct (item_alloc2_held ntotal s Hwf)
    as (it' & s1 & evs & Hrun' & Htr & _ & _ & Hwf' & Hsh & Hheld).
  rewrite Hrun in Hrun'. injection Hrun' as <- <-. exists evs.
  repeat (split; [done|]). intros Hnn. by apply Hheld.
Qed.

Lemma free_shape_last (it : Z) (evs : list event) :
  free_shape it evs → db_gets evs = [] ∧ ∀ m, last evs ≠ Some (EMalloc m NULL).
Proof. intros [->|[[m ->]|[->|[m ->]]]]; done. Qed.

Lemma get_outcome_app (key : string) (nkey r : Z) (evs1 evs2 : list event) :
  get_outcome key nkey r evs2 → get_outcome key nkey r (evs1 ++ evs2).
Proof.
  unfold get_outcome. destruct (r =? NULL).
  - intros [[m Hm]|(it & u & c & Hl & Hc)].
    + left. exists m. by rewrite last_app, Hm.
    + right. exists it, u, c. split; [|done].
      unfold db_gets in *. by rewrite flat_map_app, last_app, Hl.
  - intros (u & Hl & H0). exists u. by rewrite last_app, Hl.
Qed.

Lemma item_get_loop_outcome (key : string) (nkey : Z) (fuel : nat) :
  ∀ (s s' : state) (it ulen r : Z),
    wf s → held s it →
    item_get_loop fuel key nkey it ulen s = Ok r s' →
    ∃ evs, trace s' = trace s ++ evs ∧ get_outcome key nkey r evs.
Proof.
  induction fuel as [|fuel IH]; intros s s' it ulen r Hwf Hheld Hrun; [done|].
  destruct (item_get_loop_step _ _ _ _ _ _ _ _ Hwf Hheld Hrun)
    as (rep & s1 & Hget & Hc).
  destruct (dbp_get_runs _ _ _ _ _ _ _ Hwf Hheld Hget)
    as (rep' & rest & b & _ & Hx & _ & _ & Htr1 & Hwf1 & Hheld1 & _).
  assert (rep_ret rep' = rep_ret rep) as Hrep by congruence.
  rewrite Hrep in Htr1. clear Hx Hrep rep'.
  destruct Hc as [(_ & s2 & it' & s3 & Hf & Halloc & Hc)|
    [(Hs & H0 & -> & ->)|(Hs & H0 & -> & Hf)]].
  - destruct (item_free_runs _ _ _ Hwf1 Hheld1 Hf) as (evs2 & Htr2 & Hwf2 & Hsh2).
    destruct (item_alloc2_runs _ _ _ _ Hwf2 Halloc)
      as (evs3 & Htr3 & Hwf3 & Hsh3 & Hheld3).
    destruct Hc as [(-> & -> & ->)|(Hnn & Hloop)].
    + exists ([EDbGet key nkey it ulen (rep_ret rep)] ++ evs2 ++ evs3).
      split; [by rewrite Htr3, Htr2, Htr1, <- !app_assoc|].
      destruct Hsh3 as [[_ [m ->]]|[? _]]; [|done].
      unfold get_outcome. simpl. left. exists m.
      by rewrite app_comm_cons, last_snoc.
    + destruct (IH _ _ _ _ _ Hwf3 (Hheld3 Hnn) Hloop)
        as (evs4 & Htr4 & Hout).
      exists (([EDbGet key nkey it ulen (rep_ret rep)] ++ evs2 ++ evs3) ++ evs4).
      split; [by rewrite Htr4, Htr3, Htr2, Htr1, <- !app_assoc|].
      by apply get_outcome_app.
  - exists [EDbGet key nkey it ulen (rep_ret rep)]. split; [done|].
    unfold get_outcome.
    rewrite (held_not_null s it Hwf Hheld). exists ulen. rewrite H0.
    split; [done | congruence].
  - destruct (item_free_runs _ _ _ Hwf1 Hheld1 Hf) as (evs2 & Htr2 & Hwf2 & Hsh2).
    destruct (free_shape_last it evs2 Hsh2) as [Hg2 _].
    exists ([EDbGet key nkey it ulen (rep_ret rep)] ++ evs2).
    split; [by rewrite Htr2, Htr1, <- !app_assoc|].
    unfold get_outcome. simpl. right.
    exists it, ulen, (rep_ret rep). by rewrite Hg2.
Qed.

(** X12.  What the result of [item_get] tells its caller.  A buffer is
    returned only when the last thing the call did was a store read into
    that very buffer that returned 0.  NULL is returned only when the last
    thing the call did was a [malloc] that failed, or when its last store
    read returned a code other than 0 and DB_BUFFER_SMALL: out of memory,
    key absent and store failure all come back as the same NULL. *)
Theorem item_get_result_meaning (key : string) (nkey : Z) (s s' : state) (r : Z) :
  wf s → item_get key nkey s = Ok r s' →
  ∃ evs, trace s' = trace s ++ evs ∧ get_outcome key nkey r evs.
Proof.
  intros Hwf Hrun. unfold item_get in Hrun. unfold bind at 1 in Hrun.
  destruct (item_alloc2 item_buf_size s) as [it s1|e] eqn:Halloc; [|done].
  destruct (item_alloc2_runs _ _ _ _ Hwf Halloc)
    as (evs1 & Htr1 & Hwf1 & Hsh1 & Hheld1).
  change (it =? 0) with (it =? NULL) in Hrun.
  destruct (it =? NULL) eqn:Hnn;
    [apply Z.eqb_eq in Hnn | apply Z.eqb_neq in Hnn].
  - injection Hrun as <- <-. exists evs1. split; [done|].
    destruct Hsh1 as [[_ [m ->]]|[? _]]; [|done].
    unfold get_outcome. simpl. left. by exists m.
  - unfold bind at 1, gets at 1 in Hrun.
    destruct (item_get_loop_outcome _ _ _ _ _ _ _ _ Hwf1 (Hheld1 Hnn) Hrun)
      as (evs2 & Htr2 & Hout).
    exists (evs1 ++ evs2). split; [by rewrite Htr2, Htr1, <- app_assoc|].
    by apply get_outcome_app.
Qed.

(** ** No call leaves a buffer behind *)

Lemma item_alloc2_grows (ntotal : Z) (s s' : state) (it : Z) :
  wf s → item_alloc2 ntotal s = Ok it s' →
  ∀ q, held s' q → q = it ∨ held s q.
Proof.
  intros Hwf Hrun q [Hq Hout].
  destruct (item_alloc2_cases ntotal s Hwf)
    as (it' & s1 & evs & Hrun' & _ & _ & _ & _ & Hc).
  rewrite Hrun in Hrun'. injection Hrun' as <- <-.
  destruct (decide (q = it)) as [?|Hne]; [by left | right].
  unfold held.
  destruct Hc as [(_ & _ & _ & Hh & Hp)|(_ & _ & [(_ & _ & _ & Hp & Hh)|
    [(_ & _ & _ & Hp & Hh)|(_ & _ & Hp & Hh)]])]; rewrite Hh in Hq.
  - by rewrite <- Hp.
  - rewrite lookup_insert_ne in Hq by done. by rewrite <- Hp.
  - rewrite lookup_insert_ne in Hq by done. by rewrite <- Hp.
  - split; [done|]. rewrite Hp. intros Hin.
    apply elem_of_app in Hin as [Hin|Hin]; [done|].
    by apply list_elem_of_singleton in Hin.
Qed.

Lemma item_free_shrinks (it : Z) (s s' : state) (r : Z) :
  wf s → held s it → item_free it s = Ok r s' →
  ∀ q, held s' q → held s q.
Proof.
  intros Hwf Hheld Hrun q [Hq Hout].
  destruct (item_free_cases it s Hwf Hheld)
    as (s1 & evs & b & _ & Hrun' & _ & _ & _ & _ & _ & Hc).
  rewrite Hrun in Hrun'. injection Hrun' as -> <-. unfold held.
  destruct Hc as [(_ & _ & Hp & Hh & _)|[(_ & _ & Hp & Hh & _)|
    (_ & Hp & Hh & _)]]; rewrite Hp in Hout; rewrite Hh in Hq.
  - split; [done|]. intros Hin. apply Hout, elem_of_app. by left.
  - split; [|done]. destruct (decide (q = it)) as [->|Hne].
    + by rewrite lookup_delete_eq in Hq; destruct Hq.
    + by rewrite lookup_delete_ne in Hq.
  - split; [|done]. destruct (decide (q = it)) as [->|Hne].
    + by rewrite lookup_delete_eq in Hq; destruct Hq.
    + by rewrite lookup_delete_ne in Hq.
Qed.

Lemma dbp_get_same (key : string) (nkey it ulen : Z) (s s1 : state)
    (x : Z * Z) :
  wf s → held s it → dbp_get key nkey it ulen s = Ok x s1 →
  ∀ q, held s1 q → held s q.
Proof.
  intros Hwf Hheld Hrun q [Hq Hout].
  destruct (dbp_get_runs _ _ _ _ _ _ _ Hwf Hheld Hrun)
    as (r & rest & b & _ & _ & _ & _ & _ & _ & _ & Hp & _ & Hh).
  destruct (decide (q = it)) as [->|Hne]; [done|].
  unfold held. rewrite Hh, lookup_insert_ne in Hq by done. by rewrite <- Hp.
Qed.

Lemma item_get_loop_grows (key : string) (nkey : Z) (fuel : nat) :
  ∀ (s s' : state) (it ulen r : Z),
    wf s → held s it →
    item_get_loop fuel key nkey it ulen s = Ok r s' →
    ∀ q, held s' q → q = r ∨ (q ≠ it ∧ held s q).
Proof.
  induction fuel as [|fuel IH]; intros s s' it ulen r Hwf Hheld Hrun; [done|].
  destruct (item_get_loop_step _ _ _ _ _ _ _ _ Hwf Hheld Hrun)
    as (rep & s1 & Hget & Hc).
  pose proof (dbp_get_same _ _ _ _ _ _ _ Hwf Hheld Hget) as H1.
  destruct (dbp_get_runs _ _ _ _ _ _ _ Hwf Hheld Hget)
    as (_ & _ & _ & _ & _ & _ & _ & _ & Hwf1 & Hheld1 & _).
  assert (∀ s2, item_free it s1 = Ok 0 s2 →
            ∀ q, held s2 q → q ≠ it ∧ held s q) as Hfree.
  { intros s2 Hf q Hq. split.
    - intros ->. revert Hq.
      change (¬ held s2 it).
      destruct (item_free_cases it s1 Hwf1 Hheld1)
        as (s2' & evs & b & _ & Hf' & _ & _ & _ & _ & _ & Hc').
      rewrite Hf in Hf'. injection Hf' as <-. intros [[b' Hb'] Hout].
      destruct Hc' as [(_ & _ & Hp & _)|[(_ & _ & _ & Hh & _)|(_ & _ & Hh & _)]].
      + apply Hout. rewrite Hp. apply elem_of_app. right.
        by apply list_elem_of_singleton.
      + by rewrite Hh, lookup_delete_eq in Hb'.
      + by rewrite Hh, lookup_delete_eq in Hb'.
    - apply H1. by eapply item_free_shrinks. }
  destruct Hc as [(_ & s2 & it' & s3 & Hf & Halloc & Hc)|
    [(_ & _ & -> & ->)|(_ & _ & -> & Hf)]].
  - destruct (item_free_runs _ _ _ Hwf1 Hheld1 Hf) as (_ & _ & Hwf2 & _).
    pose proof (item_alloc2_grows _ _ _ _ Hwf2 Halloc) as H3.
    destruct (item_alloc2_runs _ _ _ _ Hwf2 Halloc) as (_ & _ & Hwf3 & _ & Hheld3).
    destruct Hc as [(-> & -> & ->)|(Hnn & Hloop)].
    + intros q Hq. destruct (H3 q Hq) as [->|Hq2]; [by left | right].
      by apply (Hfree s2).
    + intros q Hq.
      destruct (IH _ _ _ _ _ Hwf3 (Hheld3 Hnn) Hloop q Hq) as [->|[Hne Hq3]];
        [by left | right].
      destruct (H3 q Hq3) as [->|Hq2]; [done|]. by apply (Hfree s2).
  - intros q Hq. destruct (decide (q = it)) as [->|Hne]; [by left | right].
    split; [done|]. by apply H1.
  - intros q Hq. right. by apply (Hfree s').
Qed.

(** X13.  No call of item.c leaves a buffer in callers' hands that was not
    there before, except the one it returns.  With X9 (no call takes a
    buffer out of the hands of another caller) this says that the buffers
    in callers' hands after a call are those before it, plus what
    [item_alloc1], [item_alloc2] or [item_get] returned, minus what
    [item_free] was given: whatever [item_get] took on its way, through
    any number of resizes and on every failure exit, is back in the freelist
    or freed. *)
Theorem api_call_leaks_nothing (c : api_call) (s s' : state) (r : Z) :
  wf s →
  match c with
  | CallFree it => it = NULL ∨ held s it
  | _ => True
  end →
  api_run c s = Ok r s' →
  ∀ q, held s' q →
    held s q ∨
    match c with
    | CallAlloc1 _ _ _ _ | CallAlloc2 _ | CallGet _ _ => q = r
    | _ => False
    end.
Proof.
  intros Hwf Hpre Hrun q Hq.
  destruct c as [key nk flags nb| | |key nk| | |]; simpl in Hrun.
  - destruct (item_alloc1_cases key nk flags nb s Hwf)
      as (suffix & nsuffix & ntotal & it & s0 & _ & Halloc & Hwf0 & Hnull
          & Hfill).
    pose proof (item_alloc2_grows _ _ _ _ Hwf Halloc q) as H0.
    destruct (decide (it = NULL)) as [Hn|Hnn].
    + rewrite (Hnull Hn) in Hrun. injection Hrun as <- <-.
      destruct (H0 Hq); [right; congruence | by left].
    + destruct (Hfill Hnn) as (b0 & Hb0 & Hheld0 & _ & Hbad & Hok).
      assert (item_fits (blk_cap b0) key nk nsuffix ∨
              ¬ item_fits (blk_cap b0) key nk nsuffix) as [Hf|Hf]
        by (unfold item_fits; lia); [|by rewrite (Hbad Hf) in Hrun].
      destruct (Hok Hf) as (s1 & Hrun1 & _ & Hh & Hp & _).
      rewrite Hrun in Hrun1. injection Hrun1 as -> ->.
      destruct (decide (q = it)) as [?|Hne]; [by right | left].
      destruct H0 as [?|?]; [|done|done].
      destruct Hq as [Hq Hout]. unfold held.
      rewrite Hh, lookup_insert_ne in Hq by done. by rewrite <- Hp.
  - destruct (item_alloc2_grows _ _ _ _ Hwf Hrun q Hq); [by right | by left].
  - left. destruct Hpre as [->|Hheld].
    + by injection Hrun as <- <-.
    + by eapply item_free_shrinks.
  - unfold item_get in Hrun. unfold bind at 1 in Hrun.
    destruct (item_alloc2 item_buf_size s) as [it s1|e] eqn:Halloc; [|done].
    pose proof (item_alloc2_grows _ _ _ _ Hwf Halloc) as H1.
    destruct (item_alloc2_runs _ _ _ _ Hwf Halloc) as (_ & _ & Hwf1 & _ & Hheld1).
    change (it =? 0) with (it =? NULL) in Hrun.
    destruct (it =? NULL) eqn:Hnn;
      [apply Z.eqb_eq in Hnn | apply Z.eqb_neq in Hnn].
    + injection Hrun as <- <-. destruct (H1 q Hq); [right; congruence | by left].
    + unfold bind at 1, gets at 1 in Hrun.
      destruct (item_get_loop_grows _ _ _ _ _ _ _ _ Hwf1 (Hheld1 Hnn) Hrun q Hq)
        as [?|[Hne Hq1]]; [by right | left].
      by destruct (H1 q Hq1).
  - left. destruct (item_put_frame _ _ _ _ _ _ Hrun) as (Hh & _ & Ha & _ & Hc & _).
    destruct Hq as [Hq Hout]. unfold held, pool in *.
    by rewrite <- Hh, <- Ha, <- Hc.
  - left. destruct (item_delete_frame _ _ _ _ _ Hrun) as (Hh & _ & Ha & _ & Hc & _).
    destruct Hq as [Hq Hout]. unfold held, pool in *.
    by rewrite <- Hh, <- Ha, <- Hc.
  - left. destruct (item_exists_frame _ _ _ _ _ Hrun) as (Hh & _ & Ha & _ & Hc & _).
    destruct Hq as [Hq Hout]. unfold held, pool in *.
    by rewrite <- Hh, <- Ha, <- Hc.
Qed.

(** ** [item_get] out of memory *)

Lemma dbp_get_fields (key : string) (nkey it ulen : Z) (s s1 : state)
    (x : Z * Z) :
  dbp_get key nkey it ulen s = Ok x s1 →
  brk s1 = brk s ∧ freeitem s1 = freeitem s ∧
  freeitemtotal s1 = freeitemtotal s ∧ freeitemcurr s1 = freeitemcurr s ∧
  mem_script s1 = mem_script s.
Proof.
  destruct s as [h b a t c ms ds tr]. unfold dbp_get, store. mrun.
  destruct ds as [|d ds]; [done|]. mrun.
  destruct (rep_data d) as [i|]; mrun.
  - destruct (h !! it); mrun; [|done]. intros H. by injection H as <- <-.
  - intros H. by injection H as <- <-.
Qed.

Lemma item_free_room (it : Z) (s s' : state) (r : Z) :
  wf s → held s it → freeitemcurr s < freeitemtotal s →
  item_free it s = Ok r s' → mem_script s' = mem_script s.
Proof.
  intros Hwf Hheld Hroom. pose proof Hwf as (Hok & _ & _ & _ & Hheap).
  pose proof Hheld as [[b Hb] _].
  unfold item_free. rewrite (held_not_null s it Hwf Hheld).
  rewrite (bind_Ok _ _ _ _ _ (load_Ok _ _ _ Hb)). cbv zeta.
  destruct (item_buf_size <? ITEM_ntotal (blk_item b)).
  - rewrite (bind_Ok _ _ _ _ _ (free_Ok _ _ _ Hb)).
    intros H. by injection H as <- <-.
  - unfold item_add_to_freelist.
    rewrite (bind_Ok _ _ _ _ _ (add_room it s Hok Hroom)). simpl.
    intros H. by injection H as <- <-.
Qed.

(** X14.  With the freelist empty and no memory to be had, [item_get]
    returns NULL without asking the store: no answer of the store is used
    up, and heap and freelist are as before. *)
Theorem item_get_out_of_memory (key : string) (nkey : Z) (s : state) :
  freeitemcurr s = 0 → next_mem_fails s = true →
  ∃ s',
    item_get key nkey s = Ok NULL s' ∧
    trace s' = trace s ++ [EMalloc item_buf_size NULL] ∧
    db_script s' = db_script s ∧
    heap s' = heap s ∧ pool s' = pool s.
Proof.
  intros Hc Hmem. unfold item_get.
  pose proof (from_malloc_failed s ltac:(lia) Hmem) as Hfail.
  rewrite <- (item_alloc2_small item_buf_size s) in Hfail by lia.
  rewrite (bind_Ok _ _ _ _ _ Hfail).
  simpl. eexists. split; [reflexivity|]. done.
Qed.

(** X15.  Out of memory at the resize.  The freelist has a buffer, the
    store answers the first read with DB_BUFFER_SMALL and a size above
    [item_buf_size], and the [malloc] of that size fails: [item_get] returns
    NULL after that one read, with the store's answer used up and the
    freelist buffer given back; the failed [malloc] is the last thing it
    does.  The caller is told the same as for an absent key although the
    store holds a record. *)
Theorem item_get_out_of_memory_at_resize (key : string) (nkey : Z) (s : state)
    (x : db_reply) (rest : list db_reply) :
  wf s → 0 < freeitemcurr s → next_mem_fails s = true →
  db_script s = x :: rest →
  rep_ret x = DB_BUFFER_SMALL → item_buf_size < rep_size x →
  ∃ s' it evs,
    item_get key nkey s = Ok NULL s' ∧
    db_script s' = rest ∧
    trace s' = trace s ++ [EPop it; EDbGet key nkey it (uint32_t item_buf_size)
                                      DB_BUFFER_SMALL]
                 ++ evs ++ [EMalloc (rep_size x) NULL] ∧
    free_shape it evs.
Proof.
  intros Hwf Hpos Hmem Hs Hx Hbig. pose proof Hwf as (Hok & _).
  destruct (from_pool s Hok Hpos) as (p & _ & _ & Hpop).
  assert (item_alloc2 item_buf_size s = do_item_from_freelist s) as Ha
    by (apply item_alloc2_small; lia).
  destruct (item_alloc2_cases item_buf_size s Hwf)
    as (it & s1 & evs1 & Halloc & Htr1 & Hdb1 & Hwf1 & _ & Hc).
  assert (trace s1 = trace s ++ [EPop it] ∧
          freeitemcurr s1 = freeitemcurr s - 1 ∧
          freeitemtotal s1 = freeitemtotal s ∧
          mem_script s1 = mem_script s) as (Htr1' & Hc1 & Ht1 & Hm1).
  { rewrite Ha, Hpop in Halloc. by injection Halloc as <- <-. }
  rewrite Htr1' in Htr1. apply app_inv_head in Htr1. subst evs1.
  destruct Hc as [(_ & _ & [m Hev] & _)|(Hnn & Hheld1 & _)]; [done|].
  assert (db_script s1 = x :: rest) as Hs1 by congruence.
  destruct (dbp_get_held key nkey it (uint32_t item_buf_size) s1 x rest Hwf1 Hheld1 Hs1)
    as (s2 & b & Hget & Htr2 & Hdb2 & Hm2 & Hwf2 & Hheld2 & _).
  destruct (dbp_get_fields _ _ _ _ _ _ _ Hget) as (_ & _ & Ht2 & Hc2 & _).
  destruct (item_free_held it s2 Hwf2 Hheld2)
    as (s3 & evs3 & Hfree & Htr3 & Hdb3 & _ & Hwf3 & Hsh3).
  assert (mem_script s3 = mem_script s2) as Hm3.
  { apply (item_free_room it s2 s3 0 Hwf2 Hheld2); [|done].
    destruct Hok as (_ & _ & Hcur). lia. }
  assert (next_mem_fails s3 = true) as Hmem3.
  { unfold next_mem_fails in *. by rewrite Hm3, Hm2, Hm1. }
  assert (∃ s4, item_alloc2 (rep_size x) s3 = Ok NULL s4 ∧
                trace s4 = trace s3 ++ [EMalloc (rep_size x) NULL] ∧
                db_script s4 = db_script s3) as (s4 & Halloc2 & Htr4 & Hdb4).
  { unfold item_alloc2. rewrite (proj2 (Z.ltb_lt _ _) Hbig).
    rewrite (bind_Ok _ _ _ _ _ (malloc_failed _ s3 Hmem3)). simpl.
    eexists. split; [reflexivity|]. done. }
  exists s4, it, evs3. split.
  - unfold item_get. rewrite (bind_Ok _ _ _ _ _ Halloc).
    change (it =? 0) with (it =? NULL). rewrite (proj2 (Z.eqb_neq _ _) Hnn).
    unfold bind at 1, gets at 1. rewrite Hs1. simpl length.
    simpl item_get_loop. rewrite (bind_Ok _ _ _ _ _ Hget).
    cbv zeta. cbn [fst snd]. rewrite Hx, Z.eqb_refl.
    rewrite (bind_Ok _ _ _ _ _ Hfree). by rewrite (bind_Ok _ _ _ _ _ Halloc2).
  - split; [congruence|]. split; [|done].
    rewrite Htr4, Htr3, Htr2, Htr1', Hx, <- !app_assoc. done.
Qed.

(** ** Keys too long for [item_make_header] *)

(** X16.  For a key of 255 bytes or more, [nkey + 1] does not fit the
    [uint8_t] parameter of [item_make_header], and the total comes out too
    small: less than header, key with its terminator, suffix and data take
    together.  When that total is above [item_buf_size], [item_alloc1] takes
    a block of exactly the total computed from [malloc].  If the copies of
    the key and of the suffix stay inside that block it returns it; if not,
    as for a key of [nkey] bytes when the block does not even hold header,
    key and terminator, it writes past the end of the block. *)
Theorem item_alloc1_long_key (key : string) (nkey flags nbytes : Z) (s : state) :
  wf s → mem_script s = [] →
  0 ≤ sizeof_item < 2 ^ 16 →
  255 ≤ nkey →
  INT_MIN ≤ flags ≤ INT_MAX →
  0 ≤ nbytes ≤ INT_MAX →
  item_buf_size < (item_make_header (uint8_t (nkey + 1)) flags nbytes).2 →
  let ntotal := (item_make_header (uint8_t (nkey + 1)) flags nbytes).2 in
  let nsuf := (item_make_header (uint8_t (nkey + 1)) flags nbytes).1.2 in
  ntotal < sizeof_item + (nkey + 1) + nsuf + nbytes ∧
  (item_fits ntotal key nkey nsuf →
     ∃ it s1 b,
       item_alloc1 key nkey flags nbytes s = Ok it s1 ∧ it ≠ NULL ∧
       trace s1 = trace s ++ [EMalloc (blk_cap b) it] ∧
       heap s1 !! it = Some b ∧
       blk_cap b = ntotal ∧
       blk_cap b < sizeof_item + (nkey + 1) + nsuffix (blk_item b) + nbytes) ∧
  (¬ item_fits ntotal key nkey nsuf →
     item_alloc1 key nkey flags nbytes s = Err MemFault) ∧
  (strlen key = nkey → ntotal < sizeof_item + (nkey + 1) →
     item_alloc1 key nkey flags nbytes s = Err MemFault).
Proof.
  intros Hwf Hms Hsz Hk Hf Hn Hbig. unfold INT_MAX in Hn.
  destruct (item_make_header_eq (uint8_t (nkey + 1)) flags nbytes Hf)
    as [Hlen Heq]. cbv zeta in Hlen, Heq.
  remember (Z.of_nat (String.length (fmt_suffix flags (int (nbytes - 2)))))
    as n eqn:Hdef. clear Hdef.
  destruct (item_alloc1_cases key nkey flags nbytes s Hwf)
    as (suffix & nsuf & ntotal & it & s0 & Hhdr & Halloc & _ & _ & Hfill).
  rewrite Hhdr in Hbig, Heq |- *. cbn [fst snd] in Hbig |- *. cbv zeta.
  injection Heq as Hsuf Hnsuf Htot.
  destruct (item_alloc2_held ntotal s Hwf)
    as (it' & s0' & evs & Halloc' & Htr & _ & Hmem & _ & _ & Hheld).
  rewrite Halloc in Halloc'. injection Halloc' as <- <-.
  destruct (Hmem Hms) as [_ Hnn]. destruct (Hheld Hnn) as [_ Hblk].
  destruct (Hblk Hbig) as [-> Hb0].
  destruct (Hfill Hnn) as (b0 & Hb0' & _ & _ & Hbad & Hok).
  rewrite Hb0 in Hb0'. injection Hb0' as <-. cbn [blk_cap blk_item] in *.
  assert (ntotal < sizeof_item + (nkey + 1) + nsuf + nbytes) as Hshort.
  { pose proof (uint8_t_range (nkey + 1)) as Hu.
    rewrite Htot, Hnsuf. set (u := uint8_t (nkey + 1)) in *. unfold size_t.
    rewrite Z.mod_small; lia. }
  split; [done|]. split; [|split; [done|]].
  - intros Hfits.
    destruct (Hok Hfits) as (s1 & Hrun & _ & Hh & _ & _ & Htr1 & _).
    eexists it, s1, _. split; [done|]. split; [done|].
    split; [|split; [by rewrite Hh, lookup_insert_eq|]].
    { by rewrite Htr1, Htr. }
    simpl. done.
  - intros Hstr Hkey. apply Hbad. unfold item_fits, ITEM_key. lia.
Qed.

End Program.

Example item_init_start (ds : list db_reply) :
  item_init (State ∅ 1 [] 0 0 [] ds []) = Ok tt (start [] ds).
Proof. reflexivity. Qed.

Example wf_start (ms : list bool) (ds : list db_reply) : wf BUF (start ms ds).
Proof. apply wfb_sound. vm_compute. reflexivity. Qed.

Example wf_warm (ms : list bool) (ds : list db_reply) : wf BUF (warm ms ds).
Proof. apply wfb_sound. vm_compute. reflexivity. Qed.

Example ITEM_ntotal_big_item : ITEM_ntotal SIZEOF_ITEM big_item = 97.
Proof. reflexivity. Qed.

(** * The properties at work *)

(** The header of a 5-byte value with flags 3. *)
Lemma item_make_header_suffix_witness :
  item_make_header SIZEOF_ITEM 4 3 5 = (" 3 3" +:+ CRLF, 6, 23).
Proof.
  pose proof (item_make_header_suffix SIZEOF_ITEM 4 3 5) as H.
  cbv zeta in H.
  destruct (item_make_header SIZEOF_ITEM 4 3 5) as [[suffix nsuffix] ntotal] eqn:E.
  destruct H as (_ & Hs & Hn & _); [unfold INT_MIN, INT_MAX; lia..|].
  rewrite <- E. reflexivity.
Defined.

(** Negative flags, and a data length that takes four digits. *)
Example item_make_header_digits :
  item_make_header SIZEOF_ITEM 4 (-15) 1026 = (" -15 1024" +:+ CRLF, 11, 1049) ∧
  item_make_header SIZEOF_ITEM 4 INT_MIN INT_MAX
    = (" -2147483648 2147483645" +:+ CRLF, 25, 2147483684).
Proof. split; reflexivity. Qed.

(** Deleting an absent key. *)
Lemma item_delete_result_witness :
  value (item_delete BDB_NOTFOUND "k" 1
           (start [] [DbReply BDB_NOTFOUND 0 None])) = Some 1.
Proof.
  destruct (item_delete_result BDB_NOTFOUND "k" 1
              (start [] [DbReply BDB_NOTFOUND 0 None])
              (DbReply BDB_NOTFOUND 0 None) [])
    as (v & s' & Hrun & _ & _ & _ & H1 & _); [done | reflexivity |].
  rewrite Hrun. simpl. f_equal. by apply H1.
Defined.

(** A store error on [exists] reads as "no such key". *)
Lemma item_exists_result_witness :
  value (item_exists "k" 1 (start [] [DbReply BDB_RUNRECOVERY 0 None])) = Some 0.
Proof.
  destruct (item_exists_result "k" 1
              (start [] [DbReply BDB_RUNRECOVERY 0 None])
              (DbReply BDB_RUNRECOVERY 0 None) [])
    as (v & s' & Hrun & _ & _ & _ & H0); [reflexivity|].
  rewrite Hrun. simpl. f_equal. by apply H0.
Defined.

(** Taking the one buffer of a freelist empties it. *)
Lemma do_item_from_freelist_lifo_witness :
  ∃ p s', do_item_from_freelist junk0 BUF (warm [] []) = Ok p s' ∧
          pool (warm [] []) = pool s' ++ [p].
Proof.
  destruct (do_item_from_freelist_lifo junk0 BUF (warm [] []))
    as (p & s' & Hrun & Hpop & _).
  - apply (wf_warm [] []).
  - reflexivity.
  - exists p, s'. split; [exact Hrun|]. apply Hpop. reflexivity.
Defined.

(** Two releases and an acquisition after [item_init]. *)
Lemma do_item_add_to_freelist_growth_witness :
  ∃ s, (item_init ;; pool_run junk0 BUF [Release 1; Release 2; Acquire])
         (State ∅ 1 [] 0 0 [] [] []) = Ok tt s ∧
       freeitemtotal s ≤ MAX_ITEM_FREELIST_LENGTH.
Proof.
  destruct (do_item_add_to_freelist_growth junk0 BUF
              (State ∅ 1 [] 0 0 [] [] []) [Release 1; Release 2; Acquire])
    as (s & Hrun & _ & Hmax & _); [reflexivity | reflexivity |].
  exists s. split; [exact Hrun | exact Hmax].
Defined.

(** A caller's buffer with a small record goes to the freelist. *)
Lemma item_free_releases_witness :
  ∃ s', item_free BUF SIZEOF_ITEM 1 holding = Ok 0 s' ∧ pool s' = [1].
Proof.
  destruct (item_free_releases BUF SIZEOF_ITEM 1 holding)
    as (s' & Hrun & _ & H).
  - apply wfb_sound. vm_compute. reflexivity.
  - right. split; [by eexists | vm_compute; apply not_elem_of_nil].
  - exists s'. split; [exact Hrun|].
    destruct (H (Block 64 old_item)) as (evs & _ & _ & _ & Hsmall & _);
      [discriminate | reflexivity |].
    assert (ITEM_ntotal SIZEOF_ITEM old_item ≤ BUF) as Hle by (by vm_compute).
    destruct (Hsmall Hle) as [(_ & Hp & _)|(Hv & _)]; [done|].
    vm_compute in Hv. done.
Defined.

(** A record larger than the first buffer: one more read, into a block of
    exactly the size the store asked for. *)
Lemma item_get_resize_witness :
  ∃ b2 s',
    item_get junk0 BUF SIZEOF_ITEM BDB_BUFFER_SMALL BDB_NOTFOUND "elevenchars" 11
      (warm [] resize_script) = Ok b2 s' ∧
    heap s' !! b2 = Some (Block 97 big_item).
Proof.
  destruct (item_get_resize junk0 BUF SIZEOF_ITEM BDB_BUFFER_SMALL
              BDB_NOTFOUND "elevenchars" 11 (warm [] resize_script) 97 None
              (DbReply 0 97 (Some big_item)) [])
    as (b1 & b2 & s' & evs1 & evs2 & Hrun & _ & _ & _ & _ & _ & _ & _ & _ & _
        & _ & _ & Hb).
  - apply (wf_warm [] resize_script).
  - reflexivity.
  - done.
  - by vm_compute.
  - reflexivity.
  - reflexivity.
  - exists b2, s'. split; [exact Hrun | exact Hb].
Defined.

Example item_get_resize_run :
  let r := item_get junk0 BUF SIZEOF_ITEM BDB_BUFFER_SMALL BDB_NOTFOUND
             "elevenchars" 11 (warm [] resize_script) in
  value r = Some 2 ∧
  trace <$> final r =
    Some [EPop 1; EDbGet "elevenchars" 11 1 64 BDB_BUFFER_SMALL; EPush 1;
          EMalloc 97 2; EDbGet "elevenchars" 11 2 97 0].
Proof. by vm_compute. Qed.

(** A resize followed by "not found": everything taken is given back. *)
Lemma item_get_ownership_witness :
  ∃ r s' evs,
    item_get junk0 BUF SIZEOF_ITEM BDB_BUFFER_SMALL BDB_NOTFOUND "k" 1
      (warm [] [DbReply BDB_BUFFER_SMALL 97 None; DbReply BDB_NOTFOUND 0 None])
      = Ok r s' ∧
    (db_gets evs).*2 = [BDB_BUFFER_SMALL; BDB_NOTFOUND] ∧
    get_phases BDB_BUFFER_SMALL Taking evs = Some (Returned r) ∧
    audit None evs = Some (if r =? NULL then None else Some r).
Proof.
  destruct (item_get_ownership junk0 BUF SIZEOF_ITEM BDB_BUFFER_SMALL
              BDB_NOTFOUND "k" 1
              (warm [] [DbReply BDB_BUFFER_SMALL 97 None;
                        DbReply BDB_NOTFOUND 0 None]))
    as (r & s' & evs & used & Hrun & _ & _ & Hdb & Hg & Hph & Hau & _).
  - apply wf_warm.
  - apply Exists_cons_tl, Exists_cons_hd. by vm_compute.
  - exists r, s', evs. split; [exact Hrun|]. split; [|split; [exact Hph | exact Hau]].
    assert (db_script <$> final (item_get junk0 BUF SIZEOF_ITEM BDB_BUFFER_SMALL
              BDB_NOTFOUND "k" 1
              (warm [] [DbReply BDB_BUFFER_SMALL 97 None;
                        DbReply BDB_NOTFOUND 0 None])) = Some []) as Hend
      by (vm_compute; reflexivity).
    rewrite Hrun in Hend. injection Hend as Hend.
    rewrite Hend, app_nil_r in Hdb. cbn [db_script warm] in Hdb. subst used.
    exact Hg.
Defined.

(** C2, as stated, fails on the success exit: the store answers the first
    read with success, [item_get] returns the buffer it holds, and nothing
    was released: the buffer is live and in the caller's hands. *)
Lemma item_get_success_keeps_buffer :
  let r := item_get junk0 BUF SIZEOF_ITEM BDB_BUFFER_SMALL BDB_NOTFOUND "k" 1
             (start [] [DbReply 0 22 (Some old_item)]) in
  value r = Some 1 ∧
  acquired <$> (trace <$> final r) = Some [1] ∧
  released <$> (trace <$> final r) = Some [] ∧
  (λ s, heap s !! 1) <$> final r = Some (Some (Block 64 old_item)).
Proof. by vm_compute. Qed.

(** A store failure after a resize. *)
Lemma item_get_failure_is_null_witness :
  ∃ s',
    item_get junk0 BUF SIZEOF_ITEM BDB_BUFFER_SMALL BDB_NOTFOUND "k" 1
      (warm [] [DbReply BDB_BUFFER_SMALL 97 None;
                DbReply BDB_RUNRECOVERY 0 None]) = Ok NULL s' ∧
    db_script s' = [].
Proof.
  destruct (item_get_failure_is_null junk0 BUF SIZEOF_ITEM BDB_BUFFER_SMALL
              BDB_NOTFOUND "k" 1
              (warm [] [DbReply BDB_BUFFER_SMALL 97 None;
                        DbReply BDB_RUNRECOVERY 0 None])
              [DbReply BDB_BUFFER_SMALL 97 None]
              (DbReply BDB_RUNRECOVERY 0 None) [])
    as (s' & evs & Hrun & _ & _ & _ & Hc).
  - apply wf_warm.
  - constructor; [reflexivity | constructor].
  - reflexivity.
  - by vm_compute.
  - by vm_compute.
  - exists s'. split; [exact Hrun|].
    destruct Hc as [(Hdb & _)|(Hms & _)]; [exact Hdb|].
    exfalso. apply Hms. reflexivity.
Defined.

(** C9, as stated, fails: an absent key and a store in need of recovery
    give the caller the same NULL. *)
Lemma item_get_absent_like_error :
  value (item_get junk0 BUF SIZEOF_ITEM BDB_BUFFER_SMALL BDB_NOTFOUND "k" 1
           (start [] [DbReply BDB_NOTFOUND 0 None])) = Some NULL ∧
  value (item_get junk0 BUF SIZEOF_ITEM BDB_BUFFER_SMALL BDB_NOTFOUND "k" 1
           (start [] [DbReply BDB_RUNRECOVERY 0 None])) = Some NULL.
Proof. by vm_compute. Qed.

(** A 97-byte record: the buffer comes from malloc and has 97 bytes. *)
Lemma item_alloc1_sizes_witness :
  ∃ it s1 b behind,
    item_alloc1 junk0 BUF SIZEOF_ITEM "elevenchars" 11 0 70
      (start [] [DbReply 0 0 None]) = Ok it s1 ∧
    trace s1 = [EMalloc 97 it] ∧
    heap s1 !! it = Some b ∧ blk_cap b = 97 ∧
    blk_item b =
      Item 70 7 11 ("elevenchars" +:+ String NUL (" 0 68" +:+ CRLF +:+ behind)).
Proof.
  destruct (item_alloc1_sizes junk0 BUF SIZEOF_ITEM "elevenchars" 11 0 70
              (start [] [DbReply 0 0 None]) (DbReply 0 0 None) [])
    as (suffix & nsuffix & ntotal & it & s1 & evs & Hhdr & _ & Hrun & Htr & _
        & Hfill).
  - apply wf_start.
  - by vm_compute.
  - lia.
  - reflexivity.
  - by vm_compute.
  - by vm_compute.
  - reflexivity.
  - assert (it = 1) as Hit.
    { assert (value (item_alloc1 junk0 BUF SIZEOF_ITEM "elevenchars" 11 0 70
                       (start [] [DbReply 0 0 None])) = Some 1) as Hv
        by (vm_compute; reflexivity).
      rewrite Hrun in Hv. by injection Hv. }
    vm_compute in Hhdr. injection Hhdr as <- <- <-.
    destruct Hfill as (b & s2 & behind & Hb & Hi & _ & _ & _ & Hbig & _);
      [rewrite Hit; discriminate|].
    destruct Hbig as (Hev & Hcap & _); [reflexivity|].
    exists it, s1, b, behind. split; [exact Hrun|].
    split; [rewrite Htr, Hev; reflexivity|].
    split; [exact Hb|]. split; [exact Hcap | exact Hi].
Defined.

(** C3, as stated, fails for a record that fits a freelist buffer: the
    1-byte key with a 3-byte value makes a record of 19 bytes, [item_put]
    writes 19 bytes, and the buffer allocated for it has 64. *)
Lemma item_alloc1_buffer_exceeds_record :
  match item_alloc1 junk0 BUF SIZEOF_ITEM "k" 1 0 3
          (start [] [DbReply 0 0 None]) with
  | Ok it s1 =>
      match item_put SIZEOF_ITEM "k" 1 it s1 with
      | Ok v s2 =>
          it = 1 ∧ v = 0 ∧
          mallocs (trace s2) = [(64, 1)] ∧
          db_puts (trace s2) = [19] ∧
          blk_cap <$> heap s1 !! it = Some 64 ∧
          ITEM_ntotal SIZEOF_ITEM <$> (blk_item <$> heap s1 !! it) = Some 19
      | Err _ => False
      end
  | Err _ => False
  end.
Proof. by vm_compute. Qed.

(** * Edges of the behaviour *)

(** The bound of one resize in [item_get] is the store's: when the store
    answers [DB_BUFFER_SMALL] again, the loop resizes again. *)
Example item_get_follows_the_store :
  let r := item_get junk0 BUF SIZEOF_ITEM BDB_BUFFER_SMALL BDB_NOTFOUND "k" 1
             (start [] [DbReply BDB_BUFFER_SMALL 97 None;
                        DbReply BDB_BUFFER_SMALL 200 None;
                        DbReply 0 97 (Some big_item)]) in
  value r = Some 3 ∧
  mallocs <$> (trace <$> final r) = Some [(64, 1); (97, 2); (200, 3)] ∧
  released <$> (trace <$> final r) = Some [1; 2].
Proof. by vm_compute. Qed.

(** The case the comment in the default branch of [item_get] warns of: an
    error after a resize.  The block of 97 bytes still has its zeroed header,
    [item_free] takes its record for a small one, and the block joins the
    freelist. *)
Example item_get_error_after_resize :
  let r := item_get junk0 BUF SIZEOF_ITEM BDB_BUFFER_SMALL BDB_NOTFOUND "k" 1
             (start [] [DbReply BDB_BUFFER_SMALL 97 None;
                        DbReply BDB_RUNRECOVERY 0 None]) in
  value r = Some NULL ∧
  pool <$> final r = Some [1; 2] ∧
  (λ s, blk_cap <$> heap s !! 2) <$> final r = Some (Some 97).
Proof. by vm_compute. Qed.

(** The bytes [item_alloc1] leaves behind the header.  A key of five bytes
    passed with its length: key, terminator, suffix.  The same key passed
    with length 2: the suffix is written three bytes in, over the rest of
    the key and its terminator. *)
Example item_alloc1_bytes :
  (λ s, it_end <$> (blk_item <$> heap s !! 1)) <$>
    final (item_alloc1 junk0 BUF SIZEOF_ITEM "hello" 5 0 5 (start [] []))
  = Some (Some ("hello" +:+ String NUL (" 0 3" +:+ CRLF))) ∧
  (λ s, it_end <$> (blk_item <$> heap s !! 1)) <$>
    final (item_alloc1 junk0 BUF SIZEOF_ITEM "hello" 2 0 5 (start [] []))
  = Some (Some ("hel 0 3" +:+ CRLF)).
Proof. by vm_compute. Qed.

(** A key longer than the length passed for it can run past the end of the
    block: 100 bytes copied into a buffer of 64. *)
Example item_alloc1_overrun :
  item_alloc1 junk0 BUF SIZEOF_ITEM
    (string_of_list_ascii (replicate 100 "a"%char)) 3 0 5 (start [] [])
  = Err MemFault.
Proof. by vm_compute. Qed.

(** A key of 255 bytes is outside what [item_alloc1] can size: [nkey + 1]
    does not fit the [uint8_t] parameter of [item_make_header], and the
    total it allocates for is 256 bytes short of [ITEM_ntotal]. *)
Example item_alloc1_key_of_255_bytes :
  (item_make_header SIZEOF_ITEM (uint8_t (255 + 1)) 0 70).2 = 85 ∧
  ITEM_ntotal SIZEOF_ITEM (Item 70 7 (uint8_t 255) "") = 341.
Proof. by vm_compute. Qed.

(** * The further properties at work *)

(** Two releases right after [item_init]. *)
Lemma item_init_takes_500_witness :
  ∃ s, (item_init ;; release_all [7; 9]) (State ∅ 1 [] 0 0 [] [] [])
         = Ok [0; 0] s ∧
       pool s = [7; 9].
Proof.
  destruct (item_init_takes_500 (State ∅ 1 [] 0 0 [] [] []) [7; 9])
    as (s & Hrun & Hp & _); [reflexivity | reflexivity | simpl; lia |].
  exists s. split; [exact Hrun | exact Hp].
Defined.

(** Two releases, then two acquisitions: last in, first out. *)
Lemma release_acquire_lifo_witness :
  ∃ s1 s2,
    release_all [7; 9] (start [] []) = Ok [0; 0] s1 ∧
    acquire_n junk0 BUF 2 s1 = Ok [9; 7] s2 ∧
    pool s2 = pool (start [] []).
Proof.
  destruct (release_acquire_lifo junk0 BUF (start [] []) [7; 9])
    as (s1 & s2 & Hrel & Hacq & Hp & _).
  - destruct (wf_start [] []) as [Hok _]. exact Hok.
  - vm_compute. discriminate.
  - exists s1, s2. split; [exact Hrel|]. split; [exact Hacq | exact Hp].
Defined.

(** [item_init] with no memory, then a release. *)
Lemma item_init_failure_unreported_witness :
  ∃ s, item_init (State ∅ 1 [] 0 0 [true] [] []) = Ok tt s ∧
       do_item_add_to_freelist 7 s = Err MemFault.
Proof.
  destruct (item_init_failure_unreported (State ∅ 1 [] 0 0 [true] [] []) 7)
    as (s & Hrun & _ & _ & _ & Hadd); [reflexivity|].
  exists s. split; [exact Hrun | exact Hadd].
Defined.

(** Two releases and an acquisition leave one buffer in the freelist. *)
Lemma pool_run_accounting_witness :
  ∃ s evs,
    (item_init ;; pool_run junk0 BUF [Release 1; Release 2; Acquire])
      (State ∅ 1 [] 0 0 [] [] []) = Ok tt s ∧
    freeitemcurr s =
      Z.of_nat (length (pushed evs)) - Z.of_nat (length (popped evs)).
Proof.
  destruct (pool_run_accounting junk0 BUF (State ∅ 1 [] 0 0 [] [] [])
              [Release 1; Release 2; Acquire])
    as (s & evs & Hrun & _ & _ & Hc & _); [reflexivity | reflexivity |].
  exists s, evs. split; [exact Hrun | exact Hc].
Defined.

(** A request above the buffer size goes to [malloc]. *)
Lemma item_alloc2_routes_witness :
  ∃ it s', item_alloc2 junk0 BUF 97 (start [] []) = Ok it s' ∧
           heap s' = <[it := Block 97 zero_item]> (heap (start [] [])).
Proof.
  destruct (item_alloc2_routes junk0 BUF 97 (start [] []) (wf_start [] []))
    as (it & s' & Hrun & _ & _ & Hbig & _).
  destruct Hbig as (_ & _ & _ & Hok & _); [reflexivity|].
  destruct Hok as (_ & _ & Hh); [reflexivity|].
  exists it, s'. split; [exact Hrun | exact Hh].
Defined.

(** The caller's buffer goes to the freelist and comes back. *)
Lemma item_free_then_alloc2_recycles_witness :
  ∃ s1 s2,
    item_free BUF SIZEOF_ITEM 1 holding = Ok 0 s1 ∧
    item_alloc2 junk0 BUF 10 s1 = Ok 1 s2 ∧
    heap s2 = heap holding.
Proof.
  destruct (item_free_then_alloc2_recycles junk0 BUF SIZEOF_ITEM 1 10 holding
              (Block 64 old_item))
    as (s1 & s2 & Hfree & Halloc & _ & Hh & _).
  - apply wfb_sound. vm_compute. reflexivity.
  - split; [by eexists | vm_compute; apply not_elem_of_nil].
  - reflexivity.
  - vm_compute. discriminate.
  - reflexivity.
  - vm_compute. discriminate.
  - exists s1, s2. split; [exact Hfree|]. split; [exact Halloc | exact Hh].
Defined.

(** A block of 97 bytes, released untouched, is handed out again for a
    request of 10 bytes. *)
Lemma item_alloc2_raw_block_joins_freelist_witness :
  ∃ it s1 s2 s3,
    item_alloc2 junk0 BUF 97 (start [] []) = Ok it s1 ∧
    item_free BUF SIZEOF_ITEM it s1 = Ok 0 s2 ∧
    item_alloc2 junk0 BUF 10 s2 = Ok it s3 ∧
    heap s3 !! it = Some (Block 97 zero_item).
Proof.
  destruct (item_alloc2_raw_block_joins_freelist junk0 BUF SIZEOF_ITEM 97 10
              (start [] []) (wf_start [] []))
    as (it & s1 & s2 & s3 & Ha & Hf & _ & _ & _ & Ha' & Hb).
  - reflexivity.
  - reflexivity.
  - vm_compute. discriminate.
  - reflexivity.
  - vm_compute. discriminate.
  - exists it, s1, s2, s3.
    split; [exact Ha|]. split; [exact Hf|]. split; [exact Ha' | exact Hb].
Defined.

(** A small record built and released. *)
Lemma item_alloc1_free_round_trip_witness :
  ∃ it s1,
    item_alloc1 junk0 BUF SIZEOF_ITEM "k" 1 0 5 (start [] []) = Ok it s1 ∧
    (it ≠ NULL → ∃ s2, item_free BUF SIZEOF_ITEM it s1 = Ok 0 s2).
Proof.
  destruct (item_alloc1_free_round_trip junk0 BUF SIZEOF_ITEM "k" 1 0 5
              (start [] []) (wf_start [] []))
    as (suffix & nsuffix & ntotal & it & s1 & _ & Hrun & Hfree);
    [unfold SIZEOF_ITEM; lia | lia | reflexivity
    | unfold INT_MIN, INT_MAX; lia | unfold INT_MAX; lia |].
  exists it, s1. split; [exact Hrun|]. intros Hnn.
  destruct (Hfree Hnn) as (s2 & evs & Hf & _). exists s2. exact Hf.
Defined.

(** Releasing the one buffer a caller holds. *)
Lemma api_call_keeps_ownership_witness :
  ∃ s', item_free BUF SIZEOF_ITEM 1 holding = Ok 0 s' ∧
        wf BUF s' ∧ ¬ held s' 1.
Proof.
  assert (∃ s', item_free BUF SIZEOF_ITEM 1 holding = Ok 0 s') as [s' E]
    by (eexists; vm_compute; reflexivity).
  destruct (api_call_keeps_ownership junk0 BUF SIZEOF_ITEM BDB_BUFFER_SMALL
              BDB_NOTFOUND (CallFree 1) holding s' 0)
    as (Hwf & _ & Hgone).
  - apply wfb_sound. vm_compute. reflexivity.
  - right. split; [by eexists | vm_compute; apply not_elem_of_nil].
  - exact E.
  - exists s'. split; [exact E|]. split; [exact Hwf|]. apply Hgone. discriminate.
Defined.


(** One resize: a read of 64 bytes, then one of 97. *)
Lemma item_get_reads_until_settled_witness :
  ∃ v s' evs,
    item_get junk0 BUF SIZEOF_ITEM BDB_BUFFER_SMALL BDB_NOTFOUND "elevenchars" 11
      (warm [] resize_script) = Ok v s' ∧
    read_log evs = [(64, BDB_BUFFER_SMALL); (97, 0)] ∧
    v ≠ NULL.
Proof.
  destruct (item_get_reads_until_settled junk0 BUF SIZEOF_ITEM BDB_BUFFER_SMALL
              BDB_NOTFOUND "elevenchars" 11 (warm [] resize_script)
              [DbReply BDB_BUFFER_SMALL 97 None]
              (DbReply 0 97 (Some big_item)) [])
    as (v & s' & evs & Hrun & _ & _ & Hlog & Hok & _).
  - apply (wf_warm [] resize_script).
  - reflexivity.
  - constructor; [reflexivity | constructor].
  - discriminate.
  - reflexivity.
  - exists v, s', evs. split; [exact Hrun|]. split; [exact Hlog|].
    destruct Hok as [Hnn _]; [reflexivity | exact Hnn].
Defined.

(** A store in need of recovery: NULL, after a read that failed. *)
Lemma item_get_result_meaning_witness :
  ∃ s' evs,
    item_get junk0 BUF SIZEOF_ITEM BDB_BUFFER_SMALL BDB_NOTFOUND "k" 1
      (start [] [DbReply BDB_RUNRECOVERY 0 None]) = Ok NULL s' ∧
    get_outcome BDB_BUFFER_SMALL "k" 1 NULL evs.
Proof.
  assert (∃ s', item_get junk0 BUF SIZEOF_ITEM BDB_BUFFER_SMALL BDB_NOTFOUND
                  "k" 1 (start [] [DbReply BDB_RUNRECOVERY 0 None]) = Ok NULL s')
    as [s' E] by (eexists; vm_compute; reflexivity).
  destruct (item_get_result_meaning junk0 BUF SIZEOF_ITEM BDB_BUFFER_SMALL
              BDB_NOTFOUND "k" 1 (start [] [DbReply BDB_RUNRECOVERY 0 None])
              s' NULL (wf_start [] _) E)
    as (evs & _ & Hout).
  exists s', evs. split; [exact E | exact Hout].
Defined.

(** A successful read leaves its caller one buffer, and no other. *)
Lemma api_call_leaks_nothing_witness :
  ∃ s',
    item_get junk0 BUF SIZEOF_ITEM BDB_BUFFER_SMALL BDB_NOTFOUND "k" 1
      (start [] [DbReply 0 22 (Some old_item)]) = Ok 1 s' ∧
    ∀ q, held s' q → q = 1.
Proof.
  assert (∃ s', item_get junk0 BUF SIZEOF_ITEM BDB_BUFFER_SMALL BDB_NOTFOUND
                  "k" 1 (start [] [DbReply 0 22 (Some old_item)]) = Ok 1 s')
    as [s' E] by (eexists; vm_compute; reflexivity).
  exists s'. split; [exact E|]. intros q Hq.
  destruct (api_call_leaks_nothing junk0 BUF SIZEOF_ITEM BDB_BUFFER_SMALL
              BDB_NOTFOUND (CallGet "k" 1)
              (start [] [DbReply 0 22 (Some old_item)]) s' 1
              (wf_start [] _) I E q Hq) as [[[b Hb] _]|Hq1]; [|exact Hq1].
  vm_compute in Hb. discriminate.
Defined.

(** No buffer in the freelist and no memory: the store is not asked. *)
Lemma item_get_out_of_memory_witness :
  ∃ s',
    item_get junk0 BUF SIZEOF_ITEM BDB_BUFFER_SMALL BDB_NOTFOUND "k" 1
      (start [true] [DbReply 0 22 (Some old_item)]) = Ok NULL s' ∧
    db_script s' = [DbReply 0 22 (Some old_item)].
Proof.
  destruct (item_get_out_of_memory junk0 BUF SIZEOF_ITEM BDB_BUFFER_SMALL
              BDB_NOTFOUND "k" 1 (start [true] [DbReply 0 22 (Some old_item)]))
    as (s' & Hrun & _ & Hdb & _); [reflexivity | reflexivity |].
  exists s'. split; [exact Hrun | exact Hdb].
Defined.

(** The store has a record of 97 bytes, and the [malloc] for it fails. *)
Lemma item_get_out_of_memory_at_resize_witness :
  ∃ s',
    item_get junk0 BUF SIZEOF_ITEM BDB_BUFFER_SMALL BDB_NOTFOUND "elevenchars" 11
      (warm [true] resize_script) = Ok NULL s' ∧
    db_script s' = [DbReply 0 97 (Some big_item)].
Proof.
  destruct (item_get_out_of_memory_at_resize junk0 BUF SIZEOF_ITEM
              BDB_BUFFER_SMALL BDB_NOTFOUND "elevenchars" 11
              (warm [true] resize_script)
              (DbReply BDB_BUFFER_SMALL 97 None)
              [DbReply 0 97 (Some big_item)])
    as (s' & it & evs & Hrun & Hdb & _).
  - apply (wf_warm [true] resize_script).
  - reflexivity.
  - reflexivity.
  - reflexivity.
  - reflexivity.
  - reflexivity.
  - exists s'. split; [exact Hrun | exact Hdb].
Defined.

(** A key of 255 bytes with 70 bytes of data: the block of 85 bytes does
    not hold the key. *)
Lemma item_alloc1_long_key_witness :
  strlen long_key = 255 ∧
  (item_make_header SIZEOF_ITEM (uint8_t (255 + 1)) 0 70).2 = 85 ∧
  item_alloc1 junk0 BUF SIZEOF_ITEM long_key 255 0 70 (start [] [])
    = Err MemFault.
Proof.
  split; [reflexivity|]. split; [reflexivity|].
  destruct (item_alloc1_long_key junk0 BUF SIZEOF_ITEM long_key 255 0 70
              (start [] []) (wf_start [] []))
    as (_ & _ & _ & Hfault);
    [reflexivity | unfold SIZEOF_ITEM; lia | lia
    | unfold INT_MIN, INT_MAX; lia | unfold INT_MAX; lia | reflexivity |].
  apply Hfault; reflexivity.
Defined.
